(** * DJS chatbot: session/flow engine

    A shallow embedding of the conversational core of the DJS chatbot
    (core/utils.js, core/cacheSystem.js, core/stateManager.js,
    services/whatsappService.js, services/menuService.js,
    flows/mainFlow.js and flows/cotacaoFlow.js) and the properties its
    design document states about it.

    Conventions of the embedding.
    - A JavaScript string is a [string]; each character stands for one
      UTF-16 code unit in the range U+0000..U+00FF.  Case mapping and
      canonical decomposition are written out for that range.
    - A JavaScript number that the program uses as a counter, a clock
      reading or a menu option is a [Z].
    - [Date.now()] is the field [clock] of the world, which every
      computation reads; one call of an exported entry point runs at
      one reading of the clock (the pacing delays between outbound
      messages are not part of the model).
    - [setTimeout] adds a pending timer to the world; a timer may fire
      at any reading of the clock that is not earlier than its due time.
    - A JSON document is a [json] value; an object is the list of its
      members in order, and a number is a mantissa and a power of ten.
      [JSON.stringify] and [JSON.parse] are written out for these.
    - Console output is dropped. *)

From Stdlib Require Import ZArith Ascii String List Lia Bool.
From stdpp Require Import base gmap strings list fin_maps.

Local Open Scope Z_scope.

(** ** core/utils.js *)

Module Utils.

(** Code unit of a character. *)
Definition code (c : ascii) : Z := Z.of_N (N_of_ascii c).

Definition chr (n : Z) : ascii := ascii_of_N (Z.to_N n).

Definition inRange (lo hi : Z) (c : ascii) : bool :=
  (lo <=? code c) && (code c <=? hi).

(** [\d] *)
Definition isDigit (c : ascii) : bool := inRange 48 57 c.

(** [\w] : [A-Za-z0-9_] *)
Definition isWordChar (c : ascii) : bool :=
  inRange 65 90 c || inRange 97 122 c || isDigit c || (code c =? 95).

(** [\s], and the characters [trim] removes: TAB, LF, VT, FF, CR,
    SPACE and NO-BREAK SPACE are the ones below U+0100. *)
Definition isSpace (c : ascii) : bool :=
  inRange 9 13 c || (code c =? 32) || (code c =? 160).

Definition isEmpty (s : string) : bool :=
  match s with EmptyString => true | String _ _ => false end.

Fixpoint mapChars (f : ascii -> ascii) (s : string) : string :=
  match s with
  | EmptyString => EmptyString
  | String c s' => String (f c) (mapChars f s')
  end.

Fixpoint filterChars (p : ascii -> bool) (s : string) : string :=
  match s with
  | EmptyString => EmptyString
  | String c s' => if p c then String c (filterChars p s') else filterChars p s'
  end.

Fixpoint allChars (p : ascii -> bool) (s : string) : bool :=
  match s with
  | EmptyString => true
  | String c s' => p c && allChars p s'
  end.

(** [String.prototype.startsWith] *)
Fixpoint startsWith (s prefix : string) : bool :=
  match prefix, s with
  | EmptyString, _ => true
  | String _ _, EmptyString => false
  | String a p', String b s' => Ascii.eqb a b && startsWith s' p'
  end.

(** [String.prototype.includes] *)
Fixpoint includes (s sub : string) : bool :=
  startsWith s sub ||
  match s with
  | EmptyString => false
  | String _ s' => includes s' sub
  end.

(** [Array.prototype.some] *)
Definition some {A} (p : A -> bool) (l : list A) : bool := existsb p l.

(** [String.prototype.toLowerCase]: A-Z, and the capital letters of
    U+00C0..U+00DE except the multiplication sign. *)
Definition lowerChar (c : ascii) : ascii :=
  if inRange 65 90 c || inRange 192 214 c || inRange 216 222 c
  then chr (code c + 32) else c.

Definition toLowerCase (s : string) : string := mapChars lowerChar s.

Fixpoint trimStart (s : string) : string :=
  match s with
  | EmptyString => EmptyString
  | String c s' => if isSpace c then trimStart s' else s
  end.

Fixpoint trimEnd (s : string) : string :=
  match s with
  | EmptyString => EmptyString
  | String c s' =>
      let r := trimEnd s' in
      if isSpace c && isEmpty r then EmptyString else String c r
  end.

(** [String.prototype.trim] *)
Definition trim (s : string) : string := trimEnd (trimStart s).

(** [.normalize('NFD').replace(/[\u0300-\u036f]/g, '')]: a letter with
    a canonical decomposition loses its combining marks and keeps its
    base letter; every other character below U+0100 is its own
    decomposition. *)
Definition stripMarkChar (c : ascii) : ascii :=
  if inRange 192 197 c then "A"%char
  else if code c =? 199 then "C"%char
  else if inRange 200 203 c then "E"%char
  else if inRange 204 207 c then "I"%char
  else if code c =? 209 then "N"%char
  else if inRange 210 214 c then "O"%char
  else if inRange 217 220 c then "U"%char
  else if code c =? 221 then "Y"%char
  else if inRange 224 229 c then "a"%char
  else if code c =? 231 then "c"%char
  else if inRange 232 235 c then "e"%char
  else if inRange 236 239 c then "i"%char
  else if code c =? 241 then "n"%char
  else if inRange 242 246 c then "o"%char
  else if inRange 249 252 c then "u"%char
  else if (code c =? 253) || (code c =? 255) then "y"%char
  else c.

Definition stripMarks (s : string) : string := mapChars stripMarkChar s.

(** [.replace(/[^\w\s]/g, ' ')] *)
Definition punctToSpace (s : string) : string :=
  mapChars (fun c => if isWordChar c || isSpace c then c else " "%char) s.

(** [.replace(/\s+/g, ' ')]; [inRun] tells that the previous character
    was already part of the run being replaced. *)
Fixpoint collapseSpacesFrom (inRun : bool) (s : string) : string :=
  match s with
  | EmptyString => EmptyString
  | String c s' =>
      if isSpace c
      then if inRun then collapseSpacesFrom true s'
           else String " "%char (collapseSpacesFrom true s')
      else String c (collapseSpacesFrom false s')
  end.

Definition collapseSpaces (s : string) : string := collapseSpacesFrom false s.

Definition normalizeText (text : string) : string :=
  if isEmpty text then EmptyString
  else collapseSpaces (punctToSpace (stripMarks (trim (toLowerCase text)))).

(** The two keywords written with an accent in the source. *)
Definition ola_acute : string := "ol" +:+ String (chr 225) EmptyString.
Definition comecar_cedilla : string :=
  "come" +:+ String (chr 231) "ar".

Definition greetings : list string :=
  [ "oi"; "ola"; ola_acute; "hello"; "hi";
    "bom dia"; "boa tarde"; "boa noite";
    "bomdia"; "boatarde"; "boanoite";
    "oi bom dia"; "ola bom dia";
    "eae"; "e ai"; "salve" ].

Definition isGreeting (text : string) : bool :=
  let normalized := normalizeText text in
  some (fun greeting => includes normalized greeting || String.eqb normalized greeting)
       greetings.

Definition farewells : list string :=
  [ "tchau"; "ate mais"; "ate logo"; "ate breve";
    "obrigado"; "obrigada"; "valeu"; "ok obrigado";
    "tudo bem obrigado"; "ja consegui"; "ja resolvi";
    "fui"; "vlw"; "valeu mesmo" ].

Definition isFarewell (text : string) : bool :=
  let normalized := normalizeText text in
  some (fun farewell => includes normalized farewell) farewells.

Definition humanRequests : list string :=
  [ "atendente"; "atendimento"; "humano"; "pessoa";
    "falar com alguem"; "falar com pessoa";
    "quero falar com atendente"; "preciso de ajuda";
    "corretor"; "vendedor"; "consultor";
    "nao consigo"; "nao entendi"; "ajuda";
    "suporte"; "help" ].

Definition isRequestingHuman (text : string) : bool :=
  let normalized := normalizeText text in
  some (fun request => includes normalized request) humanRequests.

Definition menuCommands : list string :=
  [ "menu"; "inicio"; comecar_cedilla; "comecar";
    "voltar"; "start"; "reiniciar" ].

Definition isMenuCommand (text : string) : bool :=
  let normalized := normalizeText text in
  some (fun command => String.eqb normalized command || includes normalized command)
       menuCommands.

Definition backRequests : list string :=
  [ "voltar"; "volta"; "anterior"; "antes";
    "menu anterior"; "opcao anterior"; "back" ].

Definition isRequestingBack (text : string) : bool :=
  let normalized := normalizeText text in
  some (fun request => includes normalized request || String.eqb normalized request)
       backRequests.

(** Value of a run of decimal digits, most significant first
    ([parseInt] on a string of digits).  The value is exact; the number
    of the source is a double, which is the same value for a run below
    2^53, that is for every run of up to fifteen digits. *)
Fixpoint parseDigitsFrom (acc : Z) (s : string) : Z :=
  match s with
  | EmptyString => acc
  | String c s' => parseDigitsFrom (acc * 10 + (code c - 48)) s'
  end.

Definition parseInt (digits : string) : Z := parseDigitsFrom 0 digits.

(** The longest prefix of digits: what [/^(\d+)/] captures. *)
Fixpoint leadingDigits (s : string) : string :=
  match s with
  | EmptyString => EmptyString
  | String c s' => if isDigit c then String c (leadingDigits s') else EmptyString
  end.

Definition numberWords : list (string * Z) :=
  [ ("um", 1); ("uma", 1); ("primeiro", 1); ("primeira", 1);
    ("dois", 2); ("duas", 2); ("segundo", 2); ("segunda", 2);
    ("tres", 3); ("terceiro", 3); ("terceira", 3);
    ("quatro", 4); ("quarto", 4); ("quarta", 4);
    ("cinco", 5); ("quinto", 5); ("quinta", 5);
    ("seis", 6); ("sexto", 6); ("sexta", 6);
    ("sete", 7); ("setimo", 7); ("setima", 7);
    ("oito", 8); ("oitavo", 8); ("oitava", 8);
    ("nove", 9); ("nono", 9); ("nona", 9);
    ("dez", 10); ("decimo", 10); ("decima", 10) ].

(** [null] is [None]. *)
Definition extractOptionNumber (text : string) : option Z :=
  let normalized := normalizeText text in
  let run := leadingDigits normalized in
  if negb (isEmpty run) then Some (parseInt run)
  else snd <$> List.find (fun wn => includes normalized (fst wn)) numberWords.

Definition containsKeywords (text : string) (keywords : list string) : bool :=
  let normalized := normalizeText text in
  some (fun keyword => includes normalized (normalizeText keyword)) keywords.

Definition len (s : string) : Z := Z.of_nat (String.length s).

Definition formatPhone (phone : string) : string :=
  if isEmpty phone then EmptyString
  else
    let numbers := filterChars isDigit phone in
    if (len numbers =? 11) && startsWith numbers "11" then "55" +:+ numbers +:+ "@c.us"
    else if len numbers =? 10 then "5511" +:+ numbers +:+ "@c.us"
    else if startsWith numbers "55" then numbers +:+ "@c.us"
    else phone.

(** [/^[^\s@]+$/] on a whole string. *)
Definition isEmailAtom (s : string) : bool :=
  negb (isEmpty s) && allChars (fun c => negb (isSpace c || (code c =? 64))) s.

(** [/^[^\s@]+\.[^\s@]+$/]: some dot splits the string into two
    non-empty runs without blank and without at-sign. *)
Fixpoint isDottedAtom (left_nonempty : bool) (s : string) : bool :=
  match s with
  | EmptyString => false
  | String c s' =>
      if isSpace c || (code c =? 64) then false
      else ((code c =? 46) && left_nonempty && isEmailAtom s')
           || isDottedAtom true s'
  end.

(** [/^[^\s@]+@[^\s@]+\.[^\s@]+$/] *)
Fixpoint isEmailFrom (left_nonempty : bool) (s : string) : bool :=
  match s with
  | EmptyString => false
  | String c s' =>
      if isSpace c then false
      else if code c =? 64 then left_nonempty && isDottedAtom false s'
      else isEmailFrom true s'
  end.

Definition isValidEmail (email : string) : bool := isEmailFrom false email.

(** [parseInt(numbers.charAt(i))] for a position that holds a digit;
    positions outside the string do not occur where this is used. *)
Definition digitAt (numbers : string) (i : nat) : Z :=
  match String.get i numbers with
  | Some c => code c - 48
  | None => 0
  end.

(** [for (let i = 0; i < n; i++) sum += digit(i) * (w - i)] *)
Definition weightedSum (numbers : string) (n : nat) (w : Z) : Z :=
  fold_left (fun sum i => sum + digitAt numbers i * (w - Z.of_nat i)) (seq 0 n) 0.

(** [let d = 11 - (sum % 11); if (d > 9) d = 0;] *)
Definition checkDigit (sum : Z) : Z :=
  let d := 11 - sum mod 11 in
  if d >? 9 then 0 else d.

(** [/^(\d)\1{10}$/] on a string of digits. *)
Definition allSameDigit (numbers : string) : bool :=
  match numbers with
  | EmptyString => false
  | String c rest => (String.length rest =? 10)%nat && allChars (Ascii.eqb c) rest
  end.

Definition isValidCPF (cpf : string) : bool :=
  if isEmpty cpf then false
  else
    let numbers := filterChars isDigit cpf in
    if negb (len numbers =? 11) then false
    else if allSameDigit numbers then false
    else
      let digit1 := checkDigit (weightedSum numbers 9 10) in
      let digit2 := checkDigit (weightedSum numbers 10 11) in
      (digit1 =? digitAt numbers 9) && (digit2 =? digitAt numbers 10).

Definition truncateText (text : string) : string :=
  if isEmpty text || (len text <=? 100) then text
  else String.substring 0 97 text +:+ "...".

(** The mask [XXX.XXX.XXX-XX] for eleven digits. *)
Definition maskCPF (cpf : string) : string :=
  if isEmpty cpf then EmptyString
  else
    let numbers := filterChars isDigit cpf in
    if len numbers =? 11
    then String.substring 0 3 numbers +:+ "." +:+ String.substring 3 3 numbers +:+ "."
         +:+ String.substring 6 3 numbers +:+ "-" +:+ String.substring 9 2 numbers
    else cpf.

End Utils.

(** ** core/utils.js: the functions the flows do not call *)

Module UtilsMore.
Import Utils.

(** [truncateText(text, maxLength)]; [substring] takes a negative end
    for zero. *)
Definition truncateTextTo (text : string) (maxLength : Z) : string :=
  if isEmpty text || (len text <=? maxLength) then text
  else String.substring 0 (Z.to_nat (Z.max 0 (maxLength - 3))) text +:+ "...".

(** [/^[0-9]{10,}$/] *)
Definition isLongNumber (s : string) : bool :=
  (10 <=? len s) && allChars isDigit s.

(** [/^[^a-zA-Z0-9\s]+$/] *)
Definition isSymbolsOnly (s : string) : bool :=
  negb (isEmpty s)
  && allChars (fun c => negb (inRange 97 122 c || inRange 65 90 c || isDigit c || isSpace c)) s.

Definition isInvalidInput (text : string) : bool :=
  let normalized := normalizeText text in
  if len normalized <? 1 then true
  else if isLongNumber normalized then true
  else if isSymbolsOnly normalized then true
  else false.

End UtilsMore.

(** ** JSON values, [JSON.stringify(value, null, 2)] and [JSON.parse]

    The state file is written and read through the two built-ins.  A
    number is kept as a decimal mantissa and exponent ([JNum m e] is
    [m * 10^e]); every number of the store is an integer, [JNum m 0].
    An object is the list of its members in order. *)

Module JSON.
Import Utils.

#[local] Set Warnings "-register-all".

Inductive json : Type :=
| JNull
| JBool (b : bool)
| JNum (m e : Z)
| JStr (s : string)
| JArr (items : list json)
| JObj (members : list (string * json)).

(** *** Objects *)

(** [obj[key]]; [None] is [undefined]. *)
Fixpoint obj_get (key : string) (members : list (string * json)) : option json :=
  match members with
  | [] => None
  | (k, v) :: rest => if String.eqb k key then Some v else obj_get key rest
  end.

Definition hasKey (key : string) (members : list (string * json)) : bool :=
  existsb (fun kv => String.eqb (fst kv) key) members.

(** [obj[key] = value]: an existing member keeps its place. *)
Fixpoint obj_set (key : string) (value : json) (members : list (string * json))
  : list (string * json) :=
  match members with
  | [] => [(key, value)]
  | (k, v) :: rest =>
      if String.eqb k key then (k, value) :: rest
      else (k, v) :: obj_set key value rest
  end.

(** Truthiness of a value that may be [undefined]. *)
Definition truthy (v : option json) : bool :=
  match v with
  | None | Some JNull => false
  | Some (JBool b) => b
  | Some (JNum m _) => negb (m =? 0)
  | Some (JStr s) => negb (isEmpty s)
  | Some (JArr _) | Some (JObj _) => true
  end.

(** *** Printing *)

Definition digitChar (d : Z) : ascii := chr (48 + d).

(** Decimal digits of a non-negative number, least significant first. *)
Fixpoint digitsRev (fuel : nat) (n : Z) : list ascii :=
  match fuel with
  | O => []
  | S fuel' =>
      if n <? 10 then [digitChar n]
      else digitChar (n mod 10) :: digitsRev fuel' (n / 10)
  end.

Definition natural (n : Z) : string :=
  string_of_list_ascii (List.rev (digitsRev (S (Z.to_nat n)) n)).

Definition integer (n : Z) : string :=
  if n <? 0 then String "-" (natural (- n)) else natural n.

Definition number (m e : Z) : string :=
  if e =? 0 then integer m else integer m +:+ String "e" (integer e).

Definition hexChar (d : Z) : ascii :=
  if d <? 10 then chr (48 + d) else chr (87 + d).

(** The double quote, U+0022. *)
Definition quoteChar : ascii := Eval cbv in chr 34.

(** [QuoteJSONString] for one character. *)
Definition escapeChar (c : ascii) : string :=
  let n := code c in
  if n =? 34 then String (chr 92) (String quoteChar EmptyString)
  else if n =? 92 then "\\"
  else if n =? 8 then "\b"
  else if n =? 9 then "\t"
  else if n =? 10 then "\n"
  else if n =? 12 then "\f"
  else if n =? 13 then "\r"
  else if n <? 32 then "\u00" +:+ String (hexChar (n / 16)) (String (hexChar (n mod 16)) "")
  else String c "".

Fixpoint escape (s : string) : string :=
  match s with
  | EmptyString => EmptyString
  | String c s' => escapeChar c +:+ escape s'
  end.

Definition quote (s : string) : string :=
  String quoteChar (escape s +:+ String quoteChar EmptyString).

Definition newline : string := String (chr 10) "".

Fixpoint spaces (n : nat) : string :=
  match n with
  | O => EmptyString
  | S n' => String " " (spaces n')
  end.

(** The parts of an array or object, one after the other with the
    separator between them. *)
Fixpoint join (sep : string) (parts : list string) : string :=
  match parts with
  | [] => EmptyString
  | p :: rest =>
      match rest with
      | [] => p
      | _ :: _ => p +:+ sep +:+ join sep rest
      end
  end.

(** [SerializeJSONArray] and [SerializeJSONObject] once the parts are
    written: nothing between the brackets when there is no part, else
    each part on a line of its own, two spaces deeper. *)
Definition bracket (opening closing : string) (indent : nat) (parts : list string) : string :=
  match parts with
  | [] => opening +:+ closing
  | _ :: _ =>
      let inner := S (S indent) in
      opening +:+ newline +:+ spaces inner
      +:+ join ("," +:+ newline +:+ spaces inner) parts
      +:+ newline +:+ spaces indent +:+ closing
  end.

(** The text of a value whose members, if any, are indented by
    [indent + 2] spaces. *)
Fixpoint stringifyAt (indent : nat) (j : json) : string :=
  match j with
  | JNull => "null"
  | JBool true => "true"
  | JBool false => "false"
  | JNum m e => number m e
  | JStr s => quote s
  | JArr items => bracket "[" "]" indent (List.map (stringifyAt (S (S indent))) items)
  | JObj members =>
      bracket "{" "}" indent
        (List.map (fun kv => quote (fst kv) +:+ ": " +:+ stringifyAt (S (S indent)) (snd kv))
           members)
  end.

(** [JSON.stringify(value, null, 2)] *)
Definition stringify (j : json) : string := stringifyAt 0 j.

(** *** Parsing *)

(** Outcome of a parser: the value, whether the text held a character
    escape above U+00FF (which [string] cannot hold), and the rest of
    the text; or a syntax error. *)
Inductive presult (A : Type) : Type :=
| POk (a : A) (foreign : bool) (rest : string)
| PErr.
Arguments POk {A} a foreign rest.
Arguments PErr {A}.

Definition pmap {A B} (f : A -> B) (r : presult A) : presult B :=
  match r with
  | POk a fl rest => POk (f a) fl rest
  | PErr => PErr
  end.

Definition pflag {A} (fl : bool) (r : presult A) : presult A :=
  match r with
  | POk a fl' rest => POk a (fl || fl') rest
  | PErr => PErr
  end.

(** JSON white space: space, tab, line feed, carriage return. *)
Definition isWs (c : ascii) : bool :=
  (code c =? 32) || (code c =? 9) || (code c =? 10) || (code c =? 13).

Fixpoint skipWs (s : string) : string :=
  match s with
  | EmptyString => EmptyString
  | String c s' => if isWs c then skipWs s' else s
  end.

Definition hexValue (c : ascii) : option Z :=
  if isDigit c then Some (code c - 48)
  else if inRange 97 102 c then Some (code c - 87)
  else if inRange 65 70 c then Some (code c - 55)
  else None.

(** The characters of a string literal after its opening quote. *)
Fixpoint parseChars (s : string) : presult string :=
  match s with
  | EmptyString => PErr
  | String c s' =>
      if code c =? 34 then POk EmptyString false s'
      else if code c <? 32 then PErr
      else if code c =? 92 then
        match s' with
        | EmptyString => PErr
        | String e s'' =>
            let simple (x : Z) := pmap (String (chr x)) (parseChars s'') in
            if code e =? 34 then simple 34
            else if code e =? 92 then simple 92
            else if code e =? 47 then simple 47
            else if code e =? 98 then simple 8
            else if code e =? 102 then simple 12
            else if code e =? 110 then simple 10
            else if code e =? 114 then simple 13
            else if code e =? 116 then simple 9
            else if code e =? 117 then
              match s'' with
              | String h1 (String h2 (String h3 (String h4 rest))) =>
                  match hexValue h1, hexValue h2, hexValue h3, hexValue h4 with
                  | Some a, Some b, Some c', Some d =>
                      let n := ((a * 16 + b) * 16 + c') * 16 + d in
                      if n <? 256 then pmap (String (chr n)) (parseChars rest)
                      else pflag true (pmap (String "?"%char) (parseChars rest))
                  | _, _, _, _ => PErr
                  end
              | _ => PErr
              end
            else PErr
        end
      else pmap (String c) (parseChars s')
  end.

(** A run of digits and the text after it. *)
Fixpoint spanDigits (s : string) : string * string :=
  match s with
  | EmptyString => (EmptyString, EmptyString)
  | String c s' =>
      if isDigit c
      then let '(run, rest) := spanDigits s' in (String c run, rest)
      else (EmptyString, s)
  end.

(** An optional minus sign. *)
Definition takeMinus (s : string) : bool * string :=
  match s with
  | String c s' => if code c =? 45 then (true, s') else (false, s)
  | EmptyString => (false, s)
  end.

(** An optional sign of an exponent. *)
Definition takeSign (s : string) : bool * string :=
  match s with
  | String c s' =>
      if code c =? 45 then (true, s')
      else if code c =? 43 then (false, s')
      else (false, s)
  | EmptyString => (false, s)
  end.

(** An optional fraction: a dot and at least one digit. *)
Definition takeFraction (s : string) : option (string * string) :=
  match s with
  | String c s' =>
      if code c =? 46 then
        let '(frac, rest) := spanDigits s' in
        if isEmpty frac then None else Some (frac, rest)
      else Some (EmptyString, s)
  | EmptyString => Some (EmptyString, s)
  end.

(** An optional exponent: [e] or [E], an optional sign and at least
    one digit. *)
Definition takeExponent (s : string) : option (Z * string) :=
  match s with
  | String c s' =>
      if (code c =? 101) || (code c =? 69) then
        let '(negative, s1) := takeSign s' in
        let '(digits, rest) := spanDigits s1 in
        if isEmpty digits then None
        else Some ((if negative then - parseInt digits else parseInt digits), rest)
      else Some (0, s)
  | EmptyString => Some (0, s)
  end.

(** A number literal: an optional minus sign, an integer part (a
    single zero, or digits that do not start with zero), an optional
    fraction and an optional exponent. *)
Definition parseNumber (s : string) : presult json :=
  let '(negative, s1) := takeMinus s in
  let '(int, s2) := spanDigits s1 in
  if isEmpty int || (startsWith int "0" && negb (len int =? 1)) then PErr
  else
    match takeFraction s2 with
    | None => PErr
    | Some (frac, s3) =>
        match takeExponent s3 with
        | None => PErr
        | Some (ex, rest) =>
            let mant := parseInt (int +:+ frac) in
            POk (JNum (if negative then - mant else mant) (ex - len frac)) false rest
        end
    end.

(** The rest of a keyword whose first letter has been read. *)
Fixpoint keyword (tail : string) (value : json) (s : string) : presult json :=
  match tail, s with
  | EmptyString, _ => POk value false s
  | String a tail', String b s' =>
      if code a =? code b then keyword tail' value s' else PErr
  | String _ _, EmptyString => PErr
  end.

(** A value at the head of the text (white space before it is the
    caller's), the elements of an array after its first bracket and the
    members of an object after its first brace.  [fuel] bounds the
    number of nested calls. *)
Fixpoint parseValue (fuel : nat) (s : string) : presult json :=
  match fuel with
  | O => PErr
  | S fuel' =>
      match s with
      | EmptyString => PErr
      | String c rest =>
          if code c =? 110 then keyword "ull" JNull rest
          else if code c =? 116 then keyword "rue" (JBool true) rest
          else if code c =? 102 then keyword "alse" (JBool false) rest
          else if code c =? 34 then pmap JStr (parseChars rest)
          else if code c =? 91 then
            match skipWs rest with
            | EmptyString => PErr
            | String c' rest' =>
                if code c' =? 93 then POk (JArr []) false rest'
                else pmap JArr (parseElements fuel' (String c' rest'))
            end
          else if code c =? 123 then
            match skipWs rest with
            | EmptyString => PErr
            | String c' rest' =>
                if code c' =? 125 then POk (JObj []) false rest'
                else pmap JObj (parseMembers fuel' (String c' rest'))
            end
          else parseNumber s
      end
  end
with parseElements (fuel : nat) (s : string) : presult (list json) :=
  match fuel with
  | O => PErr
  | S fuel' =>
      match parseValue fuel' s with
      | PErr => PErr
      | POk v fl rest =>
          match skipWs rest with
          | EmptyString => PErr
          | String c rest' =>
              if code c =? 44
              then pflag fl (pmap (cons v) (parseElements fuel' (skipWs rest')))
              else if code c =? 93 then POk [v] fl rest'
              else PErr
          end
      end
  end
with parseMembers (fuel : nat) (s : string) : presult (list (string * json)) :=
  match fuel with
  | O => PErr
  | S fuel' =>
      match s with
      | EmptyString => PErr
      | String q s1 =>
          if negb (code q =? 34) then PErr
          else
            match parseChars s1 with
            | PErr => PErr
            | POk k flk s2 =>
                match skipWs s2 with
                | EmptyString => PErr
                | String colon s3 =>
                    if negb (code colon =? 58) then PErr
                    else
                      match parseValue fuel' (skipWs s3) with
                      | PErr => PErr
                      | POk v fl rest =>
                          match skipWs rest with
                          | EmptyString => PErr
                          | String c rest' =>
                              if code c =? 44
                              then pflag (flk || fl)
                                     (pmap (cons (k, v))
                                        (parseMembers fuel' (skipWs rest')))
                              else if code c =? 125 then POk [(k, v)] (flk || fl) rest'
                              else PErr
                          end
                      end
                end
            end
      end
  end.

(** An object built member by member: a repeated key keeps its first
    place and its last value. *)
Fixpoint normalise (j : json) : json :=
  match j with
  | JArr items => JArr (List.map normalise items)
  | JObj members =>
      JObj (fold_left (fun acc kv => obj_set (fst kv) (normalise (snd kv)) acc) members [])
  | _ => j
  end.

Inductive parsed : Type :=
| Parsed (j : json)
| SyntaxError
| Foreign.

(** [JSON.parse(text)] *)
Definition parse (text : string) : parsed :=
  match parseValue (2 * String.length text + 2) (skipWs text) with
  | PErr => SyntaxError
  | POk j fl rest =>
      if negb (isEmpty (skipWs rest)) then SyntaxError
      else if fl then Foreign
      else Parsed (normalise j)
  end.

End JSON.

(** ** core/stateManager.js: the state and its file *)

Module StateManager.
Import Utils JSON.

Record HistoryEntry : Type := {
  h_from : string;
  h_to : string;
  h_timestamp : Z
}.

(** A session; [data] is the object of the collected fields. *)
Record Session : Type := {
  phone : string;
  currentFlow : string;
  currentStep : string;
  data : list (string * json);
  history : list HistoryEntry;
  createdAt : Z;
  lastActivity : Z
}.

Record Stats : Type := {
  total_messages : Z;
  total_users : Z;
  last_reset : Z
}.

Record GlobalState : Type := {
  chatbot_is_on : bool;
  bot_start_time : Z;
  sessions : gmap string Session;
  stats : Stats
}.

(** The [updates] argument of [updateUserSession]: the fields the
    callers pass, each present or absent. *)
Record Updates : Type := {
  u_currentFlow : option string;
  u_currentStep : option string;
  u_data : option (list (string * json))
}.

Definition isBotActive (st : GlobalState) : bool := chatbot_is_on st.

Definition enableBot (st : GlobalState) : GlobalState :=
  {| chatbot_is_on := true; bot_start_time := bot_start_time st;
     sessions := sessions st; stats := stats st |}.

(** The synchronous part of [disableBot]; the timer it starts is
    [Runtime.disableBot]'s. *)
Definition setBotOff (st : GlobalState) : GlobalState :=
  {| chatbot_is_on := false; bot_start_time := bot_start_time st;
     sessions := sessions st; stats := stats st |}.

Definition newSession (now : Z) (phone : string) : Session :=
  {| phone := phone; currentFlow := "welcome"; currentStep := "inicio";
     data := []; history := []; createdAt := now; lastActivity := now |}.

Definition touch (now : Z) (s : Session) : Session :=
  {| phone := phone s; currentFlow := currentFlow s; currentStep := currentStep s;
     data := data s; history := history s; createdAt := createdAt s;
     lastActivity := now |}.

Definition countUser (st : Stats) : Stats :=
  {| total_messages := total_messages st; total_users := total_users st + 1;
     last_reset := last_reset st |}.

Definition withSessions (m : gmap string Session) (st : GlobalState) : GlobalState :=
  {| chatbot_is_on := chatbot_is_on st; bot_start_time := bot_start_time st;
     sessions := m; stats := stats st |}.

(** The names that [Object.prototype] gives to every plain object.
    The sessions are kept in a plain object, and [sessions[phone]] with
    one of these names finds the inherited member, which is no session:
    [getUserSession] then creates nothing and counts nobody, and
    [updateUserSession] throws or stores the inherited member.  The map
    [sessions] is the store for every other key, which is what a chat
    id is; the results on the store as such are stated for keys that
    are not [inherited]. *)
Definition objectPrototypeNames : list string :=
  ["constructor"; "__defineGetter__"; "__defineSetter__"; "hasOwnProperty";
   "__lookupGetter__"; "__lookupSetter__"; "isPrototypeOf"; "propertyIsEnumerable";
   "toString"; "valueOf"; "__proto__"; "toLocaleString"].

Definition inherited (key : string) : bool :=
  existsb (String.eqb key) objectPrototypeNames.

Definition getUserSession (now : Z) (phone : string) (st : GlobalState)
  : Session * GlobalState :=
  match sessions st !! phone with
  | Some s =>
      let s' := touch now s in
      (s', withSessions (<[phone := s']> (sessions st)) st)
  | None =>
      let s' := touch now (newSession now phone) in
      (s', {| chatbot_is_on := chatbot_is_on st; bot_start_time := bot_start_time st;
              sessions := <[phone := s']> (sessions st);
              stats := countUser (stats st) |})
  end.

(** [Object.assign(session, updates)] *)
Definition assign (s : Session) (u : Updates) : Session :=
  {| phone := phone s;
     currentFlow := default (currentFlow s) (u_currentFlow u);
     currentStep := default (currentStep s) (u_currentStep u);
     data := default (data s) (u_data u);
     history := history s;
     createdAt := createdAt s;
     lastActivity := lastActivity s |}.

Definition pushHistory (e : HistoryEntry) (s : Session) : Session :=
  {| phone := phone s; currentFlow := currentFlow s; currentStep := currentStep s;
     data := data s; history := history s ++ [e]; createdAt := createdAt s;
     lastActivity := lastActivity s |}.

Definition updateUserSession (now : Z) (phone : string) (u : Updates)
  (st : GlobalState) : GlobalState :=
  let '(s, st1) := getUserSession now phone st in
  let s1 :=
    match u_currentFlow u with
    | Some flow =>
        if negb (isEmpty flow) && negb (String.eqb flow (currentFlow s))
        then pushHistory {| h_from := currentFlow s; h_to := flow; h_timestamp := now |} s
        else s
    | None => s
    end in
  let s2 := touch now (assign s1 u) in
  withSessions (<[phone := s2]> (sessions st1)) st1.

Definition removeUserSession (phone : string) (st : GlobalState) : GlobalState :=
  withSessions (delete phone (sessions st)) st.

Definition cleanInactiveSessions (now : Z) (maxInactiveHours : Z) (st : GlobalState)
  : GlobalState :=
  let cutoffTime := now - maxInactiveHours * 60 * 60 * 1000 in
  withSessions (filter (fun kv => ~ (lastActivity (snd kv) < cutoffTime)) (sessions st)) st.

Definition incrementMessageCount (st : GlobalState) : GlobalState :=
  {| chatbot_is_on := chatbot_is_on st; bot_start_time := bot_start_time st;
     sessions := sessions st;
     stats := {| total_messages := total_messages (stats st) + 1;
                 total_users := total_users (stats st);
                 last_reset := last_reset (stats st) |} |}.

Definition resetStats (now : Z) (st : GlobalState) : GlobalState :=
  {| chatbot_is_on := chatbot_is_on st; bot_start_time := bot_start_time st;
     sessions := sessions st;
     stats := {| total_messages := 0; total_users := 0; last_reset := now |} |}.

(** *** The state as the object that is written to the file *)

Definition encodeHistoryEntry (e : HistoryEntry) : json :=
  JObj [("from", JStr (h_from e)); ("to", JStr (h_to e));
        ("timestamp", JNum (h_timestamp e) 0)].

Definition encodeSession (s : Session) : json :=
  JObj [("phone", JStr (phone s));
        ("currentFlow", JStr (currentFlow s));
        ("currentStep", JStr (currentStep s));
        ("data", JObj (data s));
        ("history", JArr (List.map encodeHistoryEntry (history s)));
        ("createdAt", JNum (createdAt s) 0);
        ("lastActivity", JNum (lastActivity s) 0)].

Definition encodeStats (st : Stats) : json :=
  JObj [("total_messages", JNum (total_messages st) 0);
        ("total_users", JNum (total_users st) 0);
        ("last_reset", JNum (last_reset st) 0)].

Definition encodeState (st : GlobalState) : json :=
  JObj [("chatbot_is_on", JBool (chatbot_is_on st));
        ("bot_start_time", JNum (bot_start_time st) 0);
        ("sessions", JObj (map_to_list (encodeSession <$> sessions st)));
        ("stats", encodeStats (stats st))].

Definition asString (v : option json) : option string :=
  match v with Some (JStr s) => Some s | _ => None end.

Definition asBool (v : option json) : option bool :=
  match v with Some (JBool b) => Some b | _ => None end.

(** An integer-valued number. *)
Definition asInt (v : option json) : option Z :=
  match v with
  | Some (JNum m e) =>
      if 0 <=? e then Some (m * 10 ^ e)
      else if m mod 10 ^ (- e) =? 0 then Some (m / 10 ^ (- e))
      else None
  | _ => None
  end.

Definition asObject (v : option json) : option (list (string * json)) :=
  match v with Some (JObj ms) => Some ms | _ => None end.

Definition asArray (v : option json) : option (list json) :=
  match v with Some (JArr xs) => Some xs | _ => None end.

Definition decodeHistoryEntry (j : json) : option HistoryEntry :=
  ms ← asObject (Some j);
  f ← asString (obj_get "from" ms);
  t ← asString (obj_get "to" ms);
  ts ← asInt (obj_get "timestamp" ms);
  Some {| h_from := f; h_to := t; h_timestamp := ts |}.

Definition decodeSession (j : json) : option Session :=
  ms ← asObject (Some j);
  p ← asString (obj_get "phone" ms);
  fl ← asString (obj_get "currentFlow" ms);
  stp ← asString (obj_get "currentStep" ms);
  d ← asObject (obj_get "data" ms);
  hs ← asArray (obj_get "history" ms);
  h ← mapM decodeHistoryEntry hs;
  c ← asInt (obj_get "createdAt" ms);
  l ← asInt (obj_get "lastActivity" ms);
  Some {| phone := p; currentFlow := fl; currentStep := stp; data := d;
          history := h; createdAt := c; lastActivity := l |}.

Definition decodeStats (j : json) : option Stats :=
  ms ← asObject (Some j);
  tm ← asInt (obj_get "total_messages" ms);
  tu ← asInt (obj_get "total_users" ms);
  lr ← asInt (obj_get "last_reset" ms);
  Some {| total_messages := tm; total_users := tu; last_reset := lr |}.

Definition decodeMember (kv : string * json) : option (string * Session) :=
  s ← decodeSession (snd kv); Some (fst kv, s).

(** The record a well-formed state object stands for. *)
Definition decodeState (j : json) : option GlobalState :=
  ms ← asObject (Some j);
  on ← asBool (obj_get "chatbot_is_on" ms);
  bst ← asInt (obj_get "bot_start_time" ms);
  ss ← asObject (obj_get "sessions" ms);
  l ← mapM decodeMember ss;
  sts ← obj_get "stats" ms;
  st ← decodeStats sts;
  Some {| chatbot_is_on := on; bot_start_time := bst;
          sessions := list_to_map l; stats := st |}.

(** *** The file *)

(** What [fs.existsSync] and [fs.readFileSync] find at [statePath]:
    no file, a file that cannot be read, or a text. *)
Inductive FileState : Type :=
| Missing
| Unreadable
| Content (text : string).

Definition defaultState (now : Z) : GlobalState :=
  {| chatbot_is_on := true;
     bot_start_time := now;
     sessions := ∅;
     stats := {| total_messages := 0; total_users := 0; last_reset := now |} |}.

(** A call that returns or throws. *)
Inductive Outcome (A : Type) : Type :=
| Returned (a : A)
| Thrown.
Arguments Returned {A} a.
Arguments Thrown {A}.

Definition existsSync (file : FileState) : bool :=
  match file with
  | Missing => false
  | Unreadable | Content _ => true
  end.

Definition readFileSync (file : FileState) : Outcome string :=
  match file with
  | Content text => Returned text
  | Missing | Unreadable => Thrown
  end.

(** What [loadState] returns: a value, or a parsed document with a
    character that [string] cannot hold. *)
Inductive Loaded : Type :=
| Value (j : json)
| ForeignValue.

(** [JSON.parse(data)], which throws on a text that is not JSON. *)
Definition parseText (data : string) : Outcome Loaded :=
  match parse data with
  | Parsed j => Returned (Value j)
  | Foreign => Returned ForeignValue
  | SyntaxError => Thrown
  end.

(** The [try] block of [loadState]: what its [return] gives when it is
    reached, nothing when the file does not exist. *)
Definition tryLoad (file : FileState) : Outcome (option Loaded) :=
  if existsSync file then
    match readFileSync file with
    | Thrown => Thrown
    | Returned data =>
        match parseText data with
        | Thrown => Thrown
        | Returned v => Returned (Some v)
        end
    end
  else Returned None.

(** The error of the [try] block is caught and logged; the default
    state follows. *)
Definition loadState (file : FileState) (now : Z) : Outcome Loaded :=
  match tryLoad file with
  | Returned (Some v) => Returned v
  | Returned None | Thrown => Returned (Value (encodeState (defaultState now)))
  end.

(** The text [saveState] writes. *)
Definition serialize (st : GlobalState) : string := stringify (encodeState st).

Definition saveState (st : GlobalState) : FileState := Content (serialize st).

(** The state of a manager constructed over [file], when what was
    loaded has the shape of a state. *)
Definition construct (file : FileState) (now : Z) : option GlobalState :=
  match loadState file now with
  | Returned (Value j) => decodeState j
  | Returned ForeignValue | Thrown => None
  end.

End StateManager.

(** ** Timers *)

Module Timers.

(** The delay Node.js gives a timer started with [setTimeout]: one
    millisecond when the requested delay is below 1 or above
    2147483647. *)
Definition timeoutDelay (ms : Z) : Z :=
  if (ms <? 1) || (2147483647 <? ms) then 1 else ms.

End Timers.

(** ** core/cacheSystem.js *)

Module CacheSystem.
Import Utils JSON Timers.

Record Entry : Type := {
  value : json;
  expirationTime : Z;
  createdAt : Z
}.

(** The map of the cache and the removal timers its [set] has started
    and that have not fired yet, each with its due time and key. *)
Record t : Type := {
  cache : gmap string Entry;
  pending : list (Z * string)
}.

Definition defaultTTL : Z := 60000.

Definition empty : t := {| cache := ∅; pending := [] |}.

Definition set (now : Z) (key : string) (v : json) (ttl : Z) (c : t) : t :=
  {| cache := <[key := {| value := v; expirationTime := now + ttl; createdAt := now |}]>
                (cache c);
     pending := pending c ++ [(now + timeoutDelay ttl, key)] |}.

Definition delete (key : string) (c : t) : t :=
  {| cache := base.delete key (cache c); pending := pending c |}.

(** [null] is [JNull]. *)
Definition get (now : Z) (key : string) (c : t) : json * t :=
  match cache c !! key with
  | None => (JNull, c)
  | Some entry =>
      if now >? expirationTime entry then (JNull, delete key c)
      else (value entry, c)
  end.

Definition isNull (j : json) : bool :=
  match j with JNull => true | _ => false end.

Definition has (now : Z) (key : string) (c : t) : bool * t :=
  let '(v, c') := get now key c in (negb (isNull v), c').

Definition performCleanup (now : Z) (c : t) : t :=
  {| cache := filter (fun kv => ~ (now > expirationTime (snd kv))) (cache c);
     pending := pending c |}.

Definition generateMessageKey (from messageId : string) : string :=
  "msg_" +:+ from +:+ "_" +:+ messageId.

Definition isMessageProcessed (now : Z) (from messageId : string) (c : t) : bool * t :=
  has now (generateMessageKey from messageId) c.

Definition markMessageProcessed (now : Z) (from messageId : string) (ttl : Z) (c : t) : t :=
  set now (generateMessageKey from messageId) (JBool true) ttl c.

Definition clear (c : t) : t := {| cache := ∅; pending := pending c |}.

(** The callback of the [i]-th pending timer runs; it may run once the
    clock has reached its due time. *)
Definition fire (now : Z) (i : nat) (c : t) : option t :=
  match pending c !! i with
  | Some (due, key) =>
      if due <=? now
      then Some {| cache := base.delete key (cache c);
                   pending := take i (pending c) ++ drop (S i) (pending c) |}
      else None
  | None => None
  end.

(** What can happen to the cache: the clock advances, a timer fires,
    the periodic cleanup runs, or one of the methods is called. *)
Inductive Op : Type :=
| Tick (dt : Z)
| Fire (i : nat)
| Cleanup
| CallGet (key : string)
| CallHas (key : string)
| CallIsMessageProcessed (from messageId : string)
| CallSet (key : string) (v : json) (ttl : Z)
| CallMarkMessageProcessed (from messageId : string) (ttl : Z)
| CallDelete (key : string)
| CallClear.

Definition step (op : Op) (nc : Z * t) : option (Z * t) :=
  let '(now, c) := nc in
  match op with
  | Tick dt => if 0 <=? dt then Some (now + dt, c) else None
  | Fire i => c' ← fire now i c; Some (now, c')
  | Cleanup => Some (now, performCleanup now c)
  | CallGet key => Some (now, snd (get now key c))
  | CallHas key => Some (now, snd (has now key c))
  | CallIsMessageProcessed from messageId =>
      Some (now, snd (isMessageProcessed now from messageId c))
  | CallSet key v ttl => Some (now, set now key v ttl c)
  | CallMarkMessageProcessed from messageId ttl =>
      Some (now, markMessageProcessed now from messageId ttl c)
  | CallDelete key => Some (now, delete key c)
  | CallClear => Some (now, clear c)
  end.

Fixpoint run (ops : list Op) (nc : Z * t) : option (Z * t) :=
  match ops with
  | [] => Some nc
  | op :: ops' => nc' ← step op nc; run ops' nc'
  end.

(** The operation neither inserts [key] again, nor deletes it with
    [delete], nor clears the cache. *)
Definition leaves (key : string) (op : Op) : bool :=
  match op with
  | CallSet k _ _ | CallDelete k => negb (String.eqb k key)
  | CallMarkMessageProcessed from messageId _ =>
      negb (String.eqb (generateMessageKey from messageId) key)
  | CallClear => false
  | _ => true
  end.

(** No removal timer for [key] is pending: the key was not inserted
    before, or the timers of its earlier insertions have all fired. *)
Definition noTimerFor (key : string) (c : t) : bool :=
  forallb (fun p : Z * string => negb (String.eqb p.2 key)) (pending c).

End CacheSystem.

(** ** The running system

    The state that the services and the flows share: the clock, the
    state of the manager and its file, the pending timers, the WhatsApp
    client and what has been asked of it, and the export sinks. *)

Module Runtime.
Import Utils JSON Timers StateManager.

(** The menus of services/menuService.js.  A menu is kept as its name
    and the ids of its rows; titles and descriptions are display text. *)
Inductive MenuName : Type :=
| WelcomeMenu | MainMenu | CotacaoMenu | SeguradorasMenu
| RenovacaoMenu | SinistroMenu | FinalizationMenu.

Record Row : Type := { row_id : string; row_rowId : string }.

Record MenuConfig : Type := {
  menu_name : MenuName;
  menu_rows : list Row
}.

(** The texts the bot sends.  A text is named after the literal of the
    source it stands for and carries the values interpolated into it. *)
Inductive Text : Type :=
| TxtFarewell
| TxtExistingClient
| TxtWelcomeOptionInvalid
| TxtSegundaVia
| TxtSeguradoraInfo (seguradoraId : string)
| TxtSinistroNotRecognized
| TxtSinistroError
| TxtSeguradorasNotRecognized
| TxtSeguradorasError
| TxtSeguradorasMenuError
| TxtTransferAck
| TxtInvalidOption
| TxtRestart
| TxtError
| TxtConversationClosed
| TxtFinalizationNotRecognized
| TxtBrokerTransfer (clientName clientContact : json) (reason : string) (at_ : Z)
| TxtMenuFailed
| TxtMenuAsText (menu : MenuConfig)
| TxtCotacaoStepMissing
| TxtCotacaoError
| TxtTipoNotRecognized
| TxtNomeTooShort
| TxtNomeInvalid
| TxtContinuacao
| TxtContinuing
| TxtContinuacaoInvalid
| TxtEmailInvalid
| TxtCpfInvalid
| TxtCpfConfirmed
| TxtDadosVeiculo
| TxtAskTipo
| TxtAskPlaca
| TxtPlacaInvalid
| TxtAskCep
| TxtCepInvalid
| TxtResumo (cotacao : json)
| TxtSuccess
| TxtAskNome
| TxtAskEmail
| TxtAskCpf.

(** A call made on the wppconnect client. *)
Inductive WireOp : Type :=
| SendText (to : string) (text : Text)
| SendListMessage (to : string) (menu : MenuConfig)
| SendSeen (messageId : string)
| StartTyping (to : string)
| StopTyping (to : string).

(** The calls that deliver a message to a chat: read receipts and
    typing indicators are not among them. *)
Definition isOutboundSend (op : WireOp) : bool :=
  match op with
  | SendText _ _ | SendListMessage _ _ => true
  | SendSeen _ | StartTyping _ | StopTyping _ => false
  end.

Definition outbound (log : list WireOp) : list WireOp :=
  List.filter isOutboundSend log.

(** A send that waits in [messageQueue] for the client. *)
Inductive Deferred : Type :=
| DeferText (to : string) (text : Text) (withTyping : bool) (delay : Z)
| DeferList (to : string) (menu : MenuConfig) (withTyping : bool) (delay : Z).

(** What a timer started by [setTimeout] will do. *)
Inductive TimerAction : Type :=
| ReenableBot
| StopTypingAfter (to : string)
| FinalizationAfterInfo (from : string)
| FollowUpAfterResumo (from : string).

Record Timer : Type := { due : Z; action : TimerAction }.

Record Seguradora : Type := { seg_id : string; seg_nome : string }.

(** What the process runs with: the environment variable
    [BROKER_WHATSAPP], data/seguradoras.json, whether the Google Sheets
    service is configured, and the wppconnect client.  The client is
    known by the calls it takes: the call number [n] made on it, counted
    from 0, is carried out when [clientTakes n] and throws otherwise. *)
Record Env : Type := {
  BROKER_WHATSAPP : option string;
  seguradoras : list Seguradora;
  sheetsReady : bool;
  clientTakes : nat -> bool
}.

(** A client that takes every call. *)
Definition reliable (e : Env) : Prop := forall n, clientTakes e n = true.

Inductive Sink : Type := CsvFile | GoogleSheets.

Record Lead : Type := { lead_sink : Sink; lead_from : string; lead_cotacao : json }.

Record Ctx : Type := {
  env : Env;
  state : GlobalState;
  disk : FileState;
  timers : list Timer;
  ready : bool;
  wire : list WireOp;
  messageQueue : list Deferred;
  leads : list Lead
}.

Definition withState (st : GlobalState) (c : Ctx) : Ctx :=
  {| env := env c; state := st; disk := disk c; timers := timers c;
     ready := ready c; wire := wire c; messageQueue := messageQueue c; leads := leads c |}.

Definition withDisk (f : FileState) (c : Ctx) : Ctx :=
  {| env := env c; state := state c; disk := f; timers := timers c;
     ready := ready c; wire := wire c; messageQueue := messageQueue c; leads := leads c |}.

Definition withTimers (ts : list Timer) (c : Ctx) : Ctx :=
  {| env := env c; state := state c; disk := disk c; timers := ts;
     ready := ready c; wire := wire c; messageQueue := messageQueue c; leads := leads c |}.

Definition withWire (w : list WireOp) (c : Ctx) : Ctx :=
  {| env := env c; state := state c; disk := disk c; timers := timers c;
     ready := ready c; wire := w; messageQueue := messageQueue c; leads := leads c |}.

Definition withQueue (q : list Deferred) (c : Ctx) : Ctx :=
  {| env := env c; state := state c; disk := disk c; timers := timers c;
     ready := ready c; wire := wire c; messageQueue := q; leads := leads c |}.

Definition withLeads (l : list Lead) (c : Ctx) : Ctx :=
  {| env := env c; state := state c; disk := disk c; timers := timers c;
     ready := ready c; wire := wire c; messageQueue := messageQueue c; leads := l |}.

(** *** Computations that change the context and may throw *)

Inductive Result (A : Type) : Type :=
| Ret (a : A)
| Throw.
Arguments Ret {A} a.
Arguments Throw {A}.

(** A computation reads the clock once and may change the context. *)
Definition M (A : Type) : Type := Z -> Ctx -> Result A * Ctx.

Definition ret {A} (a : A) : M A := fun _ c => (Ret a, c).

Definition throw {A} : M A := fun _ c => (Throw, c).

Definition bind {A B} (m : M A) (k : A -> M B) : M B :=
  fun t c =>
    match m t c with
    | (Ret a, c') => k a t c'
    | (Throw, c') => (Throw, c')
    end.

(** [try { m } catch (error) { handler }] *)
Definition catch {A} (m : M A) (handler : M A) : M A :=
  fun t c =>
    match m t c with
    | (Ret a, c') => (Ret a, c')
    | (Throw, c') => handler t c'
    end.

Definition gets {A} (f : Ctx -> A) : M A := fun _ c => (Ret (f c), c).

Definition modify (f : Ctx -> Ctx) : M unit := fun _ c => (Ret tt, f c).

(** [Date.now()] *)
Definition now : M Z := fun t c => (Ret t, c).

Declare Scope flow_scope.
Delimit Scope flow_scope with flow.
Notation "x <- m ;; k" := (bind m (fun x => k))
  (at level 100, m at next level, right associativity) : flow_scope.
Notation "m ;;; k" := (bind m (fun _ => k))
  (at level 100, right associativity) : flow_scope.
Local Open Scope flow_scope.

(** [setTimeout(callback, ms)] *)
Definition setTimeout (a : TimerAction) (ms : Z) : M unit :=
  t <- now ;;
  modify (fun c => withTimers (timers c ++ [{| due := t + timeoutDelay ms; action := a |}]) c).

(** [await this.client.<op>(...)]: the call is made, and throws when
    the client does not take it.  [wire] is the record of the calls
    made, in order. *)
Definition call (op : WireOp) : M unit :=
  fun _ c =>
    (if clientTakes (env c) (length (wire c)) then Ret tt else Throw,
     withWire (wire c ++ [op]) c).

(** *** core/stateManager.js, on the state of the context *)

Definition getUserSession (phone : string) : M Session :=
  fun t c =>
    let '(s, st) := StateManager.getUserSession t phone (state c) in
    (Ret s, withState st c).

Definition updateUserSession (phone : string) (u : Updates) : M unit :=
  t <- now ;;
  modify (fun c => withState (StateManager.updateUserSession t phone u (state c)) c).

Definition isBotActive : M bool := gets (fun c => StateManager.isBotActive (state c)).

Definition enableBot : M unit :=
  modify (fun c => withState (StateManager.enableBot (state c)) c).

Definition saveState : M unit :=
  modify (fun c => withDisk (StateManager.saveState (state c)) c).

Definition disableBot (minutes : Z) : M unit :=
  modify (fun c => withState (StateManager.setBotOff (state c)) c) ;;;
  setTimeout ReenableBot (minutes * 60 * 1000).

Definition incrementMessageCount : M unit :=
  modify (fun c => withState (StateManager.incrementMessageCount (state c)) c).

Definition flowStep (flow step : string) : Updates :=
  {| u_currentFlow := Some flow; u_currentStep := Some step; u_data := None |}.

Definition flowStepData (flow step : string) (d : list (string * json)) : Updates :=
  {| u_currentFlow := Some flow; u_currentStep := Some step; u_data := Some d |}.

Definition flowOnly (flow : string) : Updates :=
  {| u_currentFlow := Some flow; u_currentStep := None; u_data := None |}.

Definition stepOnly (step : string) : Updates :=
  {| u_currentFlow := None; u_currentStep := Some step; u_data := None |}.

Definition stepData (step : string) (d : list (string * json)) : Updates :=
  {| u_currentFlow := None; u_currentStep := Some step; u_data := Some d |}.

Definition dataOnly (d : list (string * json)) : Updates :=
  {| u_currentFlow := None; u_currentStep := None; u_data := Some d |}.

End Runtime.

(** ** services/menuService.js *)

Module MenuService.
Import Utils JSON Runtime.

(** [generateMenu]: row [i] of the one section has the id
    [option_<i+1>] and the row id [option_<i+1>_<key>]. *)
Definition generateMenu (name : MenuName) (keys : list string) : MenuConfig :=
  {| menu_name := name;
     menu_rows :=
       imap (fun i key =>
               let n := integer (Z.of_nat i + 1) in
               {| row_id := "option_" +:+ n;
                  row_rowId := "option_" +:+ n +:+ "_" +:+
                               (if isEmpty key then integer (Z.of_nat i) else key) |})
            keys |}.

Definition welcomeMenu : MenuConfig :=
  generateMenu WelcomeMenu ["cliente"; "cotacao"].

Definition mainMenu : MenuConfig :=
  generateMenu MainMenu
    ["nova_cotacao"; "renovacao"; "sinistro"; "segunda_via"; "seguradoras"; "atendimento"].

Definition cotacaoMenu : MenuConfig :=
  generateMenu CotacaoMenu ["auto"; "residencial"; "vida"; "empresarial"; "outros"; "voltar"].

Definition seguradorasMenu (e : Env) : MenuConfig :=
  generateMenu SeguradorasMenu (List.map seg_id (seguradoras e) ++ ["voltar"]).

Definition renovacaoMenu : MenuConfig :=
  generateMenu RenovacaoMenu ["contato"; "voltar"].

Definition sinistroMenu (e : Env) : MenuConfig :=
  generateMenu SinistroMenu (List.map seg_id (seguradoras e) ++ ["voltar"]).

Definition finalizationMenu : MenuConfig :=
  generateMenu FinalizationMenu ["menu"; "encerrar"].

End MenuService.

(** ** services/whatsappService.js *)

Module WhatsAppService.
Import Utils JSON Runtime.
Local Open Scope flow_scope.

Record ListResponse : Type := { lr_id : string; lr_rowId : string }.

(** An inbound message; a field that is absent is the empty string or
    [None]. *)
Record Message : Type := {
  msg_id : string;
  msg_from : string;
  msg_body : string;
  msg_type : string;
  msg_list_response : option ListResponse;
  msg_button_response : option string
}.

Record MessageInfo : Type := {
  info_id : string;
  info_from : string;
  info_body : string;
  info_listResponse : string
}.

Definition isServiceReady : M bool := gets ready.

Definition queueMessage (d : Deferred) : M unit :=
  modify (fun c => withQueue (messageQueue c ++ [d]) c).

Definition sendTyping (to : string) (duration : Z) : M bool :=
  catch
    (r <- isServiceReady ;;
     if negb r then ret false
     else
       let formattedTo := formatPhone to in
       call (StartTyping formattedTo) ;;;
       setTimeout (StopTypingAfter formattedTo) duration ;;;
       ret true)
    (ret false).

Definition sendTextWith (to : string) (text : Text) (withTyping : bool) (delay : Z)
  : M bool :=
  catch
    (r <- isServiceReady ;;
     if negb r then queueMessage (DeferText to text withTyping delay) ;;; ret false
     else
       let formattedTo := formatPhone to in
       (if withTyping then sendTyping formattedTo delay else ret false) ;;;
       call (SendText formattedTo text) ;;;
       ret true)
    (ret false).

(** [sendText(to, text)] with the default arguments. *)
Definition sendText (to : string) (text : Text) : M bool :=
  sendTextWith to text true 1500.

Definition validateMenuConfig (m : MenuConfig) : bool :=
  match menu_rows m with [] => false | _ :: _ => true end.

(** The handler of the outer [catch] is the fallback: the menu as
    plain text, [convertMenuToText(menuConfig)], sent without typing. *)
Definition sendListMessageWith (to : string) (m : MenuConfig) (withTyping : bool)
  (delay : Z) : M bool :=
  catch
    (r <- isServiceReady ;;
     if negb r then queueMessage (DeferList to m withTyping delay) ;;; ret false
     else
       let formattedTo := formatPhone to in
       (if withTyping then sendTyping formattedTo delay else ret false) ;;;
       if negb (validateMenuConfig m) then sendTextWith to TxtMenuFailed false 1500
       else call (SendListMessage formattedTo m) ;;; ret true)
    (catch (sendTextWith to (TxtMenuAsText m) false 1500) (ret false)).

Definition sendListMessage (to : string) (m : MenuConfig) : M bool :=
  sendListMessageWith to m true 1200.

Definition markAsRead (messageId : string) : M bool :=
  catch
    (r <- isServiceReady ;;
     if negb r then ret false
     else call (SendSeen messageId) ;;; ret true)
    (ret false).

(** The empty string is [null]. *)
Definition processListResponse (message : Message) : string :=
  match (if String.eqb (msg_type message) "list_response"
         then msg_list_response message else None) with
  | Some lr => if isEmpty (lr_id lr) then lr_rowId lr else lr_id lr
  | None =>
      match (if String.eqb (msg_type message) "button_response"
             then msg_button_response message else None) with
      | Some buttonId => buttonId
      | None =>
          if isEmpty (msg_body message) then ""
          else
            match extractOptionNumber (msg_body message) with
            | Some optionNumber =>
                if optionNumber =? 0 then "" else "option_" +:+ integer optionNumber
            | None => ""
            end
      end
  end.

Definition extractMessageInfo (message : Message) : MessageInfo :=
  {| info_id := msg_id message;
     info_from := msg_from message;
     info_body := msg_body message;
     info_listResponse := processListResponse message |}.

Definition defaultBrokerNumber : string := "5519995910737".

(** The number the transfer notification goes to. *)
Definition brokerNumber (e : Env) : string :=
  match BROKER_WHATSAPP e with
  | Some number => if isEmpty number then defaultBrokerNumber else number
  | None => defaultBrokerNumber
  end.

Definition notifyBrokerTransfer (clientName clientContact : json) (reason : string)
  : M bool :=
  e <- gets env ;;
  t <- now ;;
  let brokerFormatted := formatPhone (brokerNumber e) in
  catch
    (r <- isServiceReady ;;
     if negb r then throw
     else
       call (SendText brokerFormatted (TxtBrokerTransfer clientName clientContact reason t)) ;;;
       ret true)
    (ret false).

Definition runDeferred (d : Deferred) : M bool :=
  match d with
  | DeferText to text withTyping delay => sendTextWith to text withTyping delay
  | DeferList to m withTyping delay => sendListMessageWith to m withTyping delay
  end.

Fixpoint runAll (ds : list Deferred) : M unit :=
  match ds with
  | [] => ret tt
  | d :: ds' => runDeferred d ;;; runAll ds'
  end.

(** [setClient], and [processMessageQueue] which it starts. *)
Definition setClient : M unit :=
  q <- gets messageQueue ;;
  modify (fun c =>
    {| env := env c; state := state c; disk := disk c; timers := timers c;
       ready := true; wire := wire c; messageQueue := []; leads := leads c |}) ;;;
  runAll q.

End WhatsAppService.

(** ** flows/mainFlow.js and flows/cotacaoFlow.js

    The two flows call each other; their functions are listed here in
    the order of their dependencies, each under the name it has in its
    file. *)

Module Flows.
Import Utils JSON Timers StateManager Runtime MenuService WhatsAppService.
Local Open Scope flow_scope.

Definition str (c : Z) : string := String (chr c) "".

(** The literals of the source that carry an accent. *)
Definition naoInformado : string := "N" +:+ str 227 +:+ "o informado".
Definition reasonDefault : string :=
  "Solicita" +:+ str 231 +:+ str 227 +:+ "o de atendimento".
Definition reasonSegundaVia : string := "2" +:+ str 170 +:+ " Via de Documento/Boleto".
Definition reasonDireta : string := "Solicita" +:+ str 231 +:+ str 227 +:+ "o direta".
Definition reasonRenovacao : string :=
  "Renova" +:+ str 231 +:+ str 227 +:+ "o de Ap" +:+ str 243 +:+ "lice".
Definition reasonCotacao : string :=
  "Cota" +:+ str 231 +:+ str 227 +:+ "o - Solicitou atendente".

(** [value.key] for a value that may be [undefined]: reading a member
    of [undefined] or [null] throws, a value that is not an object has
    no member of the names used here. *)
Definition member (v : option json) (key : string) : M (option json) :=
  match v with
  | None | Some JNull => throw
  | Some (JObj ms) => ret (obj_get key ms)
  | Some _ => ret None
  end.

(** [value?.key] *)
Definition memberOpt (v : option json) (key : string) : option json :=
  match v with
  | Some (JObj ms) => obj_get key ms
  | _ => None
  end.

(** [a || b] *)
Definition orElse (a b : option json) : option json :=
  if truthy a then a else b.

Fixpoint indexed (i : Z) (l : list json) : list (string * json) :=
  match l with
  | [] => []
  | x :: l' => (integer i, x) :: indexed (i + 1) l'
  end.

Fixpoint charsOf (s : string) : list json :=
  match s with
  | EmptyString => []
  | String c s' => JStr (String c "") :: charsOf s'
  end.

(** The members [{ ...value }] copies. *)
Definition spread (v : option json) : list (string * json) :=
  match v with
  | Some (JObj ms) => ms
  | Some (JArr xs) => indexed 0 xs
  | Some (JStr s) => indexed 0 (charsOf s)
  | _ => []
  end.

(** [{ ...session.data, cotacao: { ...session.data.cotacao, [key]: value } }] *)
Definition withCotacao (d : list (string * json)) (fields : list (string * json))
  : list (string * json) :=
  obj_set "cotacao"
    (JObj (fold_left (fun acc kv => obj_set (fst kv) (snd kv) acc) fields
             (spread (obj_get "cotacao" d))))
    d.

(** [s.replace(pattern, '')] for a pattern without special characters:
    the first occurrence goes. *)
Fixpoint dropChars (n : nat) (s : string) : string :=
  match n, s with
  | O, _ => s
  | S n', String _ s' => dropChars n' s'
  | S _, EmptyString => EmptyString
  end.

Fixpoint removeFirst (pattern s : string) : string :=
  if startsWith s pattern then dropChars (String.length pattern) s
  else
    match s with
    | EmptyString => EmptyString
    | String c s' => String c (removeFirst pattern s')
    end.

(** *** mainFlow.js: what cotacaoFlow.js calls *)

Definition sendMainMenu (from : string) : M bool :=
  sendListMessage from mainMenu.

Definition transferToHuman (from : string) (reason : string) : M bool :=
  session <- getUserSession from ;;
  let d := Some (JObj (data session)) in
  let clientName :=
    orElse (orElse (memberOpt (memberOpt d "cotacao") "nome") (memberOpt d "nome"))
           (Some (JStr naoInformado)) in
  let clientEmail :=
    orElse (orElse (memberOpt (memberOpt d "cotacao") "email") (memberOpt d "email"))
           (Some (JStr "")) in
  let clientContact := orElse clientEmail (Some (JStr (removeFirst "@c.us" from))) in
  notifyBrokerTransfer (default JNull clientName) (default JNull clientContact) reason ;;;
  sendText from TxtTransferAck ;;;
  disableBot 60 ;;;
  t <- now ;;
  updateUserSession from
    (flowStepData "atendimento" "transferido"
       [("transferred_at", JNum t 0); ("reason", JStr reason)]) ;;;
  ret true.

Definition handleFinalization (from input : string) : M bool :=
  let normalized := normalizeText input in
  if includes input "menu" || includes input "option_1" || includes normalized "voltar"
     || includes normalized "menu principal"
     || bool_decide (extractOptionNumber input = Some 1)
  then updateUserSession from (flowOnly "main_menu") ;;; sendMainMenu from
  else if includes input "encerrar" || includes input "option_2"
          || includes normalized "encerrar" || includes normalized "tchau"
          || bool_decide (extractOptionNumber input = Some 2)
  then
    sendText from TxtConversationClosed ;;;
    updateUserSession from (flowStepData "welcome" "inicio" []) ;;;
    ret true
  else
    sendText from TxtFinalizationNotRecognized ;;;
    sendListMessage from finalizationMenu.

(** *** cotacaoFlow.js *)

Definition solicitarNome (from : string) : M bool :=
  sendText from TxtAskNome ;;; ret true.

Definition solicitarEmail (from : string) : M bool :=
  sendText from TxtAskEmail ;;; ret true.

Definition solicitarCPF (from : string) : M bool :=
  sendText from TxtAskCpf ;;; ret true.

Definition solicitarDadosVeiculo (from : string) : M bool :=
  sendText from TxtDadosVeiculo ;;; ret true.

Definition start (from : string) : M bool :=
  updateUserSession from (flowStepData "cotacao" "coleta_nome" [("cotacao", JObj [])]) ;;;
  solicitarNome from.

Definition forceRestart (from : string) : M bool :=
  updateUserSession from (flowStepData "cotacao" "coleta_nome" [("cotacao", JObj [])]) ;;;
  solicitarNome from.

(** The test every step makes first:
    [input.includes('voltar') || normalized.includes('voltar') ||
     utils.isRequestingBack(normalized)]. *)
Definition asksBack (input normalized : string) : bool :=
  includes input "voltar" || includes normalized "voltar" || isRequestingBack normalized.

Definition salvarCotacaoCSV (from : string) (cotacao : json) : M unit :=
  modify (fun c =>
    withLeads (leads c ++ [{| lead_sink := CsvFile; lead_from := from;
                              lead_cotacao := cotacao |}]) c).

Definition salvarCotacaoGoogleSheets (from : string) (cotacao : json) : M unit :=
  e <- gets env ;;
  if sheetsReady e
  then modify (fun c =>
         withLeads (leads c ++ [{| lead_sink := GoogleSheets; lead_from := from;
                                   lead_cotacao := cotacao |}]) c)
  else ret tt.

Definition isString (v : option json) : bool :=
  match v with Some (JStr _) => true | _ => false end.

(** [mostrarResumo(from, session)]; [d] is [session.data].  Formatting
    the CPF, and the CEP when there is one, calls [replace] on it, which
    throws when it is not a string. *)
Definition mostrarResumo (from : string) (d : list (string * json)) : M bool :=
  let cotacao := obj_get "cotacao" d in
  member cotacao "tipo_seguro" ;;;
  cpf <- member cotacao "cpf" ;;
  (if isString cpf then ret tt else throw) ;;;
  cep <- member cotacao "cep_pernoite" ;;
  (if truthy cep && negb (isString cep) then throw else ret tt) ;;;
  sendText from (TxtResumo (default JNull cotacao)) ;;;
  salvarCotacaoCSV from (default JNull cotacao) ;;;
  salvarCotacaoGoogleSheets from (default JNull cotacao) ;;;
  updateUserSession from (flowStep "finalization" "finalizado") ;;;
  setTimeout (FollowUpAfterResumo from) 2000 ;;;
  ret true.

Definition avancarParaProximoPasso (from : string) (d : list (string * json)) : M bool :=
  tipoSeguro <- member (obj_get "cotacao" d) "tipo_seguro" ;;
  match tipoSeguro with
  | Some (JStr tipo) =>
      if String.eqb tipo "auto"
      then updateUserSession from (stepOnly "dados_veiculo") ;;; solicitarDadosVeiculo from
      else updateUserSession from (stepOnly "resumo") ;;; mostrarResumo from d
  | _ => updateUserSession from (stepOnly "resumo") ;;; mostrarResumo from d
  end.

Definition handleTipoSeguro (from input : string) (session : Session) : M bool :=
  let normalized := normalizeText input in
  if asksBack input normalized
  then updateUserSession from (stepOnly "coleta_cpf") ;;; solicitarCPF from
  else
    let tipoSeguro :=
      if includes input "auto" || includes normalized "auto"
         || includes normalized "veiculo" then "auto"
      else if includes input "residencial" || includes normalized "casa"
              || includes normalized "residencia" then "residencial"
      else if includes input "vida" || includes normalized "vida" then "vida"
      else if includes input "empresarial" || includes normalized "empresa"
      then "empresarial"
      else if includes input "outros" || includes normalized "outros" then "outros"
      else "" in
    if isEmpty tipoSeguro
    then sendText from TxtTipoNotRecognized ;;; ret false
    else
      let updatedData := withCotacao (data session) [("tipo_seguro", JStr tipoSeguro)] in
      updateUserSession from (dataOnly updatedData) ;;;
      avancarParaProximoPasso from updatedData.

(** [/^[a-zA-ZÀ-ÿ\s]+$/] for one character. *)
Definition isNameChar (c : ascii) : bool :=
  inRange 97 122 c || inRange 65 90 c || inRange 192 255 c || isSpace c.

Definition handleColetaNome (from input : string) (session : Session) : M bool :=
  let normalized := normalizeText input in
  if asksBack input normalized
  then updateUserSession from (flowOnly "main_menu") ;;; sendMainMenu from
  else
    let nome := trim input in
    if len nome <? 2 then sendText from TxtNomeTooShort ;;; ret false
    else if negb (allChars isNameChar nome) then sendText from TxtNomeInvalid ;;; ret false
    else
      updateUserSession from
        (stepData "coleta_email" (withCotacao (data session) [("nome", JStr nome)])) ;;;
      solicitarEmail from.

Definition oferecerContinuacao (from : string) : M bool :=
  sendText from TxtContinuacao ;;;
  updateUserSession from (stepOnly "continuacao") ;;;
  ret true.

Definition handleContinuacao (from input : string) (session : Session) : M bool :=
  let normalized := normalizeText input in
  let optionNumber := extractOptionNumber input in
  if asksBack input normalized
  then updateUserSession from (stepOnly "coleta_email") ;;; solicitarEmail from
  else if bool_decide (optionNumber = Some 1) || includes normalized "continuar"
          || includes normalized "informacoes" || includes normalized "1"
  then
    sendText from TxtContinuing ;;;
    updateUserSession from (stepOnly "coleta_cpf") ;;;
    solicitarCPF from
  else if bool_decide (optionNumber = Some 2) || includes normalized "atendente"
          || includes normalized "corretor" || includes normalized "2"
  then transferToHuman from reasonCotacao
  else sendText from TxtContinuacaoInvalid ;;; ret false.

Definition handleColetaEmail (from input : string) (session : Session) : M bool :=
  let normalized := normalizeText input in
  if asksBack input normalized
  then updateUserSession from (stepOnly "coleta_nome") ;;; solicitarNome from
  else
    let email := toLowerCase (trim input) in
    if negb (isValidEmail email) then sendText from TxtEmailInvalid ;;; ret false
    else
      updateUserSession from
        (stepData "continuacao" (withCotacao (data session) [("email", JStr email)])) ;;;
      oferecerContinuacao from.

Definition handleColetaCPF (from input : string) (session : Session) : M bool :=
  let normalized := normalizeText input in
  if asksBack input normalized
  then updateUserSession from (stepOnly "continuacao") ;;; oferecerContinuacao from
  else
    let inputOriginal := trim input in
    let cpfLimpo := filterChars isDigit inputOriginal in
    if negb (isValidCPF inputOriginal) then sendText from TxtCpfInvalid ;;; ret false
    else
      updateUserSession from
        (stepData "tipo_seguro" (withCotacao (data session) [("cpf", JStr cpfLimpo)])) ;;;
      sendText from TxtCpfConfirmed ;;;
      sendListMessage from cotacaoMenu.

Definition handleDadosVeiculo (from input : string) (session : Session) : M bool :=
  let normalized := normalizeText input in
  if asksBack input normalized
  then
    updateUserSession from (stepOnly "tipo_seguro") ;;;
    sendText from TxtAskTipo ;;;
    sendListMessage from cotacaoMenu
  else
    let marca :=
      if includes normalized "pular" || includes normalized "sem marca"
         || includes normalized "nao sei"
      then naoInformado else input in
    updateUserSession from
      (stepData "coleta_placa_chassi"
         (withCotacao (data session) [("veiculo_marca", JStr (trim marca))])) ;;;
    sendText from TxtAskPlaca ;;;
    ret true.

Definition upperChar (c : ascii) : ascii :=
  if inRange 97 122 c then chr (code c - 32) else c.

Definition isAlnum (c : ascii) : bool :=
  inRange 65 90 c || inRange 97 122 c || isDigit c.

Definition isUpper (c : ascii) : bool := inRange 65 90 c.

(** [[A-HJ-NPR-Z0-9]] *)
Definition isChassiChar (c : ascii) : bool :=
  inRange 65 72 c || inRange 74 78 c || (code c =? 80) || inRange 82 90 c || isDigit c.

(** The string has one character per class, each in its class. *)
Fixpoint matchesClasses (classes : list (ascii -> bool)) (s : string) : bool :=
  match classes, s with
  | [], EmptyString => true
  | p :: classes', String c s' => p c && matchesClasses classes' s'
  | _, _ => false
  end.

Definition isPlaca (s : string) : bool :=
  matchesClasses [isUpper; isUpper; isUpper; isDigit; isDigit; isDigit; isDigit] s
  || matchesClasses [isUpper; isUpper; isUpper; isDigit; isUpper; isDigit; isDigit] s.

Definition isChassi (s : string) : bool :=
  matchesClasses (List.repeat isChassiChar 17) s.

Definition handleColetaPlacaChassi (from input : string) (session : Session) : M bool :=
  let normalized := normalizeText input in
  if includes input "voltar" || includes normalized "voltar" || isRequestingBack input
  then updateUserSession from (stepOnly "dados_veiculo") ;;; solicitarDadosVeiculo from
  else if asksBack input normalized
  then updateUserSession from (stepOnly "dados_veiculo") ;;; solicitarDadosVeiculo from
  else
    let inputLimpo := mapChars upperChar (filterChars isAlnum input) in
    if negb (isPlaca inputLimpo) && negb (isChassi inputLimpo)
    then sendText from TxtPlacaInvalid ;;; ret false
    else
      updateUserSession from
        (stepData "coleta_cep_pernoite"
           (withCotacao (data session)
              [("veiculo_placa_chassi", JStr inputLimpo);
               ("tipo_identificacao",
                JStr (if isPlaca inputLimpo then "placa" else "chassi"))])) ;;;
      sendText from TxtAskCep ;;;
      ret true.

Definition handleColetaCepPernoite (from input : string) (session : Session) : M bool :=
  let normalized := normalizeText input in
  if asksBack input normalized
  then
    updateUserSession from (stepOnly "coleta_placa_chassi") ;;;
    sendText from TxtAskPlaca ;;;
    ret true
  else
    let cep := filterChars isDigit input in
    if negb (len cep =? 8) then sendText from TxtCepInvalid ;;; ret false
    else
      let updatedData := withCotacao (data session) [("cep_pernoite", JStr cep)] in
      updateUserSession from (stepData "resumo" updatedData) ;;;
      mostrarResumo from updatedData.

Definition handleResumo (from input : string) (session : Session) : M bool :=
  mostrarResumo from (data session).

Definition handleFinalizado (from input : string) (session : Session) : M bool :=
  updateUserSession from (flowOnly "finalization") ;;;
  handleFinalization from input.

(** [verificarDadosPendentes] reads the three fields of
    [session.data.cotacao]. *)
Definition handleDadosIniciais (from input : string) (session : Session) : M bool :=
  let cotacao := obj_get "cotacao" (data session) in
  nome <- member cotacao "nome" ;;
  email <- member cotacao "email" ;;
  member cotacao "cpf" ;;;
  if negb (truthy nome) then handleColetaNome from input session
  else if negb (truthy email) then handleColetaEmail from input session
  else oferecerContinuacao from.

Definition Handler : Type := string -> string -> Session -> M bool.

(** [this.steps] of the quote flow. *)
Definition steps (step : string) : option Handler :=
  if String.eqb step "tipo_seguro" then Some handleTipoSeguro
  else if String.eqb step "dados_iniciais" then Some handleDadosIniciais
  else if String.eqb step "coleta_nome" then Some handleColetaNome
  else if String.eqb step "coleta_email" then Some handleColetaEmail
  else if String.eqb step "continuacao" then Some handleContinuacao
  else if String.eqb step "coleta_cpf" then Some handleColetaCPF
  else if String.eqb step "dados_veiculo" then Some handleDadosVeiculo
  else if String.eqb step "coleta_placa_chassi" then Some handleColetaPlacaChassi
  else if String.eqb step "coleta_cep_pernoite" then Some handleColetaCepPernoite
  else if String.eqb step "resumo" then Some handleResumo
  else if String.eqb step "finalizado" then Some handleFinalizado
  else None.

Definition processInput (from input : string) : M bool :=
  catch
    (session <- getUserSession from ;;
     let step := if isEmpty (currentStep session) then "coleta_nome"
                 else currentStep session in
     match steps step with
     | Some stepHandler => stepHandler from input session
     | None => sendText from TxtCotacaoStepMissing ;;; start from
     end)
    (sendText from TxtCotacaoError ;;;
     updateUserSession from (flowOnly "main_menu") ;;;
     sendMainMenu from).

(** *** mainFlow.js *)

Definition sendWelcome (from : string) : M bool :=
  updateUserSession from (flowStep "welcome_response" "aguardando_escolha") ;;;
  sendListMessage from welcomeMenu.

Definition handleGlobalCommands (from body : string) : M bool :=
  let normalizedBody := normalizeText body in
  if isMenuCommand normalizedBody
  then
    enableBot ;;;
    updateUserSession from (flowStepData "welcome" "inicio" []) ;;;
    sendWelcome from
  else if isGreeting normalizedBody
  then
    updateUserSession from (flowStep "welcome" "inicio") ;;;
    sendWelcome from
  else if isFarewell normalizedBody
  then sendText from TxtFarewell ;;; ret true
  else if isRequestingHuman normalizedBody
  then transferToHuman from reasonDefault
  else ret false.

Definition handleWelcome (from input : string) (session : Session) : M bool :=
  sendWelcome from.

Definition handleWelcomeResponse (from input : string) (session : Session) : M bool :=
  let normalized := normalizeText input in
  let optionNumber := extractOptionNumber input in
  if includes input "option_1" || includes input "cliente"
     || includes normalized "cliente" || includes normalized "ja sou cliente"
     || bool_decide (optionNumber = Some 1)
  then
    updateUserSession from
      (flowStepData "main_menu" "menu_principal"
         (obj_set "tipo_usuario" (JStr "cliente") (data session))) ;;;
    sendText from TxtExistingClient ;;;
    sendMainMenu from
  else if includes input "option_2" || includes input "cotacao"
          || includes normalized "cotar" || includes normalized "quero cotar"
          || includes normalized "cotacao" || bool_decide (optionNumber = Some 2)
  then start from
  else sendText from TxtWelcomeOptionInvalid ;;; ret false.

Definition sendCotacaoMenu (from : string) : M bool :=
  sendListMessage from cotacaoMenu.

Definition sendRenovacaoMenu (from : string) : M bool :=
  sendListMessage from renovacaoMenu.

Definition sendSinistroMenu (from : string) : M bool :=
  e <- gets env ;;
  sendListMessage from (sinistroMenu e).

Definition sendSeguradorasMenu (from : string) : M bool :=
  catch
    (e <- gets env ;;
     updateUserSession from (flowStep "seguradoras" "selecao_seguradora") ;;;
     sendListMessage from (seguradorasMenu e))
    (sendText from TxtSeguradorasMenuError ;;; ret false).

Definition handleInvalidOption (from : string) : M bool :=
  sendText from TxtInvalidOption ;;; ret false.

Definition handleMainMenu (from input : string) (session : Session) : M bool :=
  let normalized := normalizeText input in
  if isRequestingBack normalized then sendWelcome from
  else if includes input "option_1" || includes input "nova_cotacao"
          || includes normalized "nova cotacao" || includes normalized "cotacao"
          || includes normalized "quero uma nova cotacao"
          || bool_decide (extractOptionNumber input = Some 1)
  then start from
  else if includes input "option_2" || includes input "renovacao"
          || includes normalized "renovacao"
          || includes normalized "informacoes sobre renovacao"
          || bool_decide (extractOptionNumber input = Some 2)
  then updateUserSession from (flowOnly "renovacao") ;;; sendRenovacaoMenu from
  else if includes input "option_3" || includes input "sinistro"
          || includes normalized "sinistro" || includes normalized "comunicar sinistro"
          || bool_decide (extractOptionNumber input = Some 3)
  then updateUserSession from (flowOnly "sinistro") ;;; sendSinistroMenu from
  else if includes input "option_4" || includes input "segunda_via"
          || includes normalized "segunda via" || includes normalized "2a via"
          || includes normalized "documentos" || includes normalized "boleto"
          || bool_decide (extractOptionNumber input = Some 4)
  then sendText from TxtSegundaVia ;;; transferToHuman from reasonSegundaVia
  else if includes input "option_5" || includes input "seguradoras"
          || includes normalized "seguradora"
          || includes normalized "contatos das seguradoras"
          || bool_decide (extractOptionNumber input = Some 5)
  then updateUserSession from (flowOnly "seguradoras") ;;; sendSeguradorasMenu from
  else if includes input "option_6" || includes input "atendimento"
          || includes normalized "atendente"
          || includes normalized "falar com atendente"
          || bool_decide (extractOptionNumber input = Some 6)
  then transferToHuman from reasonDireta
  else handleInvalidOption from.

Definition handleCotacao (from input : string) (session : Session) : M bool :=
  processInput from input.

Definition handleRenovacao (from input : string) (session : Session) : M bool :=
  let normalized := normalizeText input in
  if asksBack input normalized
  then updateUserSession from (flowOnly "main_menu") ;;; sendMainMenu from
  else if includes input "contato" || includes normalized "atendente"
          || includes normalized "corretor"
  then transferToHuman from reasonRenovacao
  else transferToHuman from reasonRenovacao.

(** What [/option_(\d+)/] captures at its first match. *)
Fixpoint matchOption (s : string) : option string :=
  let run := leadingDigits (dropChars 7 s) in
  if startsWith s "option_" && negb (isEmpty run) then Some run
  else
    match s with
    | EmptyString => None
    | String _ s' => matchOption s'
    end.

(** The selection both directory flows make: by option number, or else
    by id or name. *)
Definition selectSeguradora (segs : list Seguradora) (input normalized : string)
  : option Seguradora :=
  match matchOption input with
  | Some digits =>
      let optionNumber := parseInt digits - 1 in
      if (0 <=? optionNumber) && (optionNumber <? Z.of_nat (length segs))
      then segs !! Z.to_nat optionNumber
      else None
  | None =>
      List.find (fun seg => includes input (seg_id seg)
                            || includes normalized (toLowerCase (seg_nome seg))
                            || includes normalized (seg_id seg)) segs
  end.

Definition handleSinistro (from input : string) (session : Session) : M bool :=
  catch
    (let normalized := normalizeText input in
     if asksBack input normalized
     then updateUserSession from (flowOnly "main_menu") ;;; sendMainMenu from
     else
       e <- gets env ;;
       match selectSeguradora (seguradoras e) input normalized with
       | Some seg =>
           sendText from (TxtSeguradoraInfo (seg_id seg)) ;;;
           setTimeout (FinalizationAfterInfo from) 2000 ;;;
           ret true
       | None =>
           sendText from TxtSinistroNotRecognized ;;;
           sendSinistroMenu from
       end)
    (sendText from TxtSinistroError ;;;
     updateUserSession from (flowOnly "main_menu") ;;;
     sendMainMenu from).

Definition handleSeguradoras (from input : string) (session : Session) : M bool :=
  catch
    (let normalized := normalizeText input in
     if asksBack input normalized
     then updateUserSession from (flowOnly "main_menu") ;;; sendMainMenu from
     else
       e <- gets env ;;
       match selectSeguradora (seguradoras e) input normalized with
       | Some seg =>
           sendText from (TxtSeguradoraInfo (seg_id seg)) ;;;
           setTimeout (FinalizationAfterInfo from) 2000 ;;;
           ret true
       | None =>
           sendText from TxtSeguradorasNotRecognized ;;;
           sendSeguradorasMenu from
       end)
    (sendText from TxtSeguradorasError ;;;
     updateUserSession from (flowOnly "main_menu") ;;;
     sendMainMenu from).

Definition handleSeguradoraInfo (from input : string) (session : Session) : M bool :=
  updateUserSession from (flowOnly "seguradoras") ;;;
  sendSeguradorasMenu from.

Definition handleAtendimento (from input : string) (session : Session) : M bool :=
  transferToHuman from reasonDefault.

Definition handleUnknownFlow (from : string) : M bool :=
  updateUserSession from (flowStepData "welcome" "inicio" []) ;;;
  sendText from TxtRestart ;;;
  sendWelcome from.

Definition handleError (from : string) : M bool :=
  sendText from TxtError ;;; ret false.

(** [this.flows] of the router. *)
Definition flows (flow : string) : option Handler :=
  if String.eqb flow "welcome" then Some handleWelcome
  else if String.eqb flow "welcome_response" then Some handleWelcomeResponse
  else if String.eqb flow "main_menu" then Some handleMainMenu
  else if String.eqb flow "cotacao" then Some handleCotacao
  else if String.eqb flow "renovacao" then Some handleRenovacao
  else if String.eqb flow "sinistro" then Some handleSinistro
  else if String.eqb flow "seguradoras" then Some handleSeguradoras
  else if String.eqb flow "seguradora_info" then Some handleSeguradoraInfo
  else if String.eqb flow "atendimento" then Some handleAtendimento
  else if String.eqb flow "finalization"
  then Some (fun from input _ => handleFinalization from input)
  else None.

(** [listResponse || body || ''] *)
Definition userInputOf (info : MessageInfo) : string :=
  if negb (isEmpty (info_listResponse info)) then info_listResponse info
  else info_body info.

(** [processMessage] from the bot-active test on: what runs once the
    message has been marked and counted. *)
Definition route (info : MessageInfo) : M bool :=
  let from := info_from info in
  let body := info_body info in
  active <- isBotActive ;;
  if negb active && negb (isMenuCommand body) then ret false
  else
    handled <- handleGlobalCommands from body ;;
    if handled then ret true
    else
      session <- getUserSession from ;;
      let flow := if isEmpty (currentFlow session) then "welcome"
                  else currentFlow session in
      sendTyping from 1500 ;;;
      match flows flow with
      | Some flowHandler => flowHandler from (userInputOf info) session
      | None => handleUnknownFlow from
      end.

(** *** The system with its deduplication cache *)

Record World : Type := {
  clock : Z;
  ctx : Ctx;
  cacheSystem : CacheSystem.t
}.

Definition processMessage (message : Message) (w : World) : Result bool * World :=
  let info := extractMessageInfo message in
  let from := info_from info in
  let id := info_id info in
  let '(seen, cache1) :=
    CacheSystem.isMessageProcessed (clock w) from id (cacheSystem w) in
  if seen
  then (Ret false, {| clock := clock w; ctx := ctx w; cacheSystem := cache1 |})
  else
    let cache2 :=
      CacheSystem.markMessageProcessed (clock w) from id CacheSystem.defaultTTL cache1 in
    let '(r, c) :=
      catch (markAsRead id ;;; incrementMessageCount ;;; route info)
            (handleError (msg_from message)) (clock w) (ctx w) in
    (r, {| clock := clock w; ctx := c; cacheSystem := cache2 |}).

(** *** Timer callbacks *)

Definition runTimer (a : TimerAction) : M unit :=
  match a with
  | ReenableBot => enableBot ;;; saveState
  | StopTypingAfter to =>
      catch (r <- isServiceReady ;;
             if r then call (StopTyping to) else throw)
            (ret tt)
  | FinalizationAfterInfo from =>
      updateUserSession from (flowStep "finalization" "menu_finalizacao") ;;;
      sendListMessage from finalizationMenu ;;;
      ret tt
  | FollowUpAfterResumo from =>
      sendText from TxtSuccess ;;;
      sendListMessage from finalizationMenu ;;;
      ret tt
  end.

(** The [i]-th pending timer fires; it may once the clock has reached
    its due time. *)
Definition fireTimer (t : Z) (i : nat) (c : Ctx) : option Ctx :=
  match timers c !! i with
  | Some tm =>
      if due tm <=? t
      then Some (runTimer (action tm) t
                   (withTimers (take i (timers c) ++ drop (S i) (timers c)) c)).2
      else None
  | None => None
  end.

(** *** What happens to the system

    The clock advances; a timer fires; the periodic cleanup of the cache
    or the periodic save of the state runs; a message arrives; the
    management API toggles the bot or clears the cache. *)
Inductive Event : Type :=
| Elapse (dt : Z)
| CacheTimer (i : nat)
| CtxTimer (i : nat)
| Sweep
| AutoSave
| Inbound (message : Message)
| ApiEnable
| ApiDisable (minutes : Z)
| ApiClearCache.

Definition withCtx (c : Ctx) (w : World) : World :=
  {| clock := clock w; ctx := c; cacheSystem := cacheSystem w |}.

Definition withCache (cs : CacheSystem.t) (w : World) : World :=
  {| clock := clock w; ctx := ctx w; cacheSystem := cs |}.

Definition occur (e : Event) (w : World) : option World :=
  match e with
  | Elapse dt =>
      if 0 <=? dt
      then Some {| clock := clock w + dt; ctx := ctx w; cacheSystem := cacheSystem w |}
      else None
  | CacheTimer i => cs ← CacheSystem.fire (clock w) i (cacheSystem w); Some (withCache cs w)
  | CtxTimer i => c ← fireTimer (clock w) i (ctx w); Some (withCtx c w)
  | Sweep => Some (withCache (CacheSystem.performCleanup (clock w) (cacheSystem w)) w)
  | AutoSave => Some (withCtx (saveState (clock w) (ctx w)).2 w)
  | Inbound message => Some (processMessage message w).2
  | ApiEnable => Some (withCtx (enableBot (clock w) (ctx w)).2 w)
  | ApiDisable minutes => Some (withCtx (disableBot minutes (clock w) (ctx w)).2 w)
  | ApiClearCache => Some (withCache (CacheSystem.clear (cacheSystem w)) w)
  end.

Fixpoint occurAll (es : list Event) (w : World) : option World :=
  match es with
  | [] => Some w
  | e :: es' => w' ← occur e w; occurAll es' w'
  end.

(** The event leaves the cache entry of [key] alone: it is neither a
    clearing of the cache nor the arrival of a message with that key. *)
Definition spares (key : string) (e : Event) : bool :=
  match e with
  | Inbound message =>
      negb (String.eqb
              (CacheSystem.generateMessageKey (msg_from message) (msg_id message)) key)
  | ApiClearCache => false
  | _ => true
  end.

End Flows.

(** ** A system to run the flows on *)

Module Scenario.
Import Utils JSON StateManager Runtime WhatsAppService Flows.

Definition env0 : Env :=
  {| BROKER_WHATSAPP := None;
     seguradoras := [{| seg_id := "porto"; seg_nome := "Porto Seguro" |};
                     {| seg_id := "allianz"; seg_nome := "Allianz" |}];
     sheetsReady := false;
     clientTakes := fun _ => true |}.

(** A freshly started bot with a connected client. *)
Definition ctx0 : Ctx :=
  {| env := env0; state := defaultState 0; disk := Missing; timers := [];
     ready := true; wire := []; messageQueue := []; leads := [] |}.

Definition world0 : World :=
  {| clock := 1000; ctx := ctx0; cacheSystem := CacheSystem.empty |}.

(** A text message. *)
Definition chat (id from body : string) : Message :=
  {| msg_id := id; msg_from := from; msg_body := body; msg_type := "chat";
     msg_list_response := None; msg_button_response := None |}.

Definition maria : string := "5519999990000@c.us".

Definition withBot (on : bool) (w : World) : World :=
  withCtx (withState (if on then StateManager.enableBot (state (ctx w))
                      else StateManager.setBotOff (state (ctx w))) (ctx w)) w.

(** Maria in the quote intake, at the step that collects the e-mail,
    her name already collected. *)
Definition mariaAtEmail : Session :=
  {| phone := maria; currentFlow := "cotacao"; currentStep := "coleta_email";
     data := [("cotacao", JObj [("nome", JStr "Maria Silva")])];
     history := [{| h_from := "welcome_response"; h_to := "cotacao"; h_timestamp := 500 |}];
     createdAt := 100; lastActivity := 900 |}.

Definition worldAtEmail : World :=
  withCtx (withState (withSessions {[ maria := mariaAtEmail ]} (state ctx0)) ctx0) world0.

End Scenario.

(** ** The hand-off claim as the design document words it *)

Module HandoffClaim.
Import Utils JSON StateManager Runtime WhatsAppService Flows.

(** The call delivers the transfer notification to the address [to]. *)
Definition notifies (to : string) (op : WireOp) : bool :=
  match op with
  | SendText a (TxtBrokerTransfer _ _ _ _) => String.eqb a to
  | _ => false
  end.

(** "For every originating user address, the operator notification is
    never sent to the originating user's own address." *)
Definition never_notifies_the_user : Prop :=
  forall (from reason : string) (t : Z) (c : Ctx),
    ready c = true ->
    existsb (notifies from) (wire c) = false ->
    existsb (notifies from) (wire (transferToHuman from reason t c).2) = false.

End HandoffClaim.

(** ** The deduplication and the expiry claims as the design document
    words them *)

Module DedupClaim.
Import Utils JSON CacheSystem Runtime WhatsAppService Flows.

(** "For every (sender, eventId) pair and every state of the system, if
    the router has already handled an event with that pair and the same
    pair arrives again within the TTL window, the second invocation
    returns without any side effect."  The reading most favourable to
    the sentence is taken: the window ends before the removal timer is
    due, and what happens in between is neither a clearing of the cache
    nor another delivery of the pair. *)
Definition duplicates_are_ignored : Prop :=
  forall (message : Message) (w0 : World) (events : list Event) (w2 : World),
    (isMessageProcessed (clock w0) (msg_from message) (msg_id message) (cacheSystem w0)).1
    = false ->
    forallb (spares (generateMessageKey (msg_from message) (msg_id message))) events
    = true ->
    occurAll events (processMessage message w0).2 = Some w2 ->
    clock w2 < clock w0 + defaultTTL ->
    processMessage message w2 = (Ret false, w2).

End DedupClaim.

Module ExpiryClaim.
Import Utils JSON CacheSystem.

(** "After markMessageProcessed(sender, eventId, T) at time t0, and
    provided the same key was not inserted earlier and clear()/delete
    was not called in between, isMessageProcessed(sender, eventId)
    returns true for every query at time t with t0 <= t <= t0 + T, and
    returns false for every query at time t > t0 + T." *)
Definition answers_by_the_clock : Prop :=
  forall (c0 : t) (t0 T : Z) (from messageId : string) (ops : list Op) (now : Z) (c : t),
    noTimerFor (generateMessageKey from messageId) c0 = true ->
    forallb (leaves (generateMessageKey from messageId)) ops = true ->
    run ops (t0, markMessageProcessed t0 from messageId T c0) = Some (now, c) ->
    (now <= t0 + T -> (isMessageProcessed now from messageId c).1 = true) /\
    (now > t0 + T -> (isMessageProcessed now from messageId c).1 = false).

End ExpiryClaim.

(** ** The national-id check digits as the design document words them

    The weighted mod-11 algorithm over the first nine digits: the first
    check digit weighs them 10 down to 2, the second one weighs them and
    the first check digit 11 down to 2; a remainder below 2 gives the
    digit 0, any other remainder [r] gives [11 - r]. *)

Module CPFSpec.

Fixpoint weighted (w : Z) (ds : list Z) : Z :=
  match ds with
  | [] => 0
  | d :: ds' => d * w + weighted (w - 1) ds'
  end.

Definition mod11Digit (sum : Z) : Z :=
  let r := sum mod 11 in
  if r <? 2 then 0 else 11 - r.

Definition digits (s : string) : list Z :=
  List.map (fun c => Utils.code c - 48) (list_ascii_of_string s).

Definition checkDigits (nine : string) : Z * Z :=
  let ds := digits nine in
  let c1 := mod11Digit (weighted 10 ds) in
  let c2 := mod11Digit (weighted 11 (ds ++ [c1])) in
  (c1, c2).

End CPFSpec.

(** ** Normalized texts *)

Module NormalForm.
Import Utils.

(** Not an upper-case letter of U+0000..U+00FF. *)
Definition isLowered (c : ascii) : bool :=
  negb (inRange 65 90 c || inRange 192 214 c || inRange 216 222 c).

(** Not an upper-case letter of [A-Z]. *)
Definition notUpper (c : ascii) : bool := negb (inRange 65 90 c).

(** A character that normalizing leaves as it is: [a-z0-9_]. *)
Definition cleanWord (c : ascii) : bool :=
  inRange 97 122 c || isDigit c || (code c =? 95).

Definition okChar (c : ascii) : bool := cleanWord c || isSpace c.

(** Clean characters, no two spaces in a row; [prev] tells that the
    character before the string is a space. *)
Fixpoint normal (prev : bool) (s : string) : bool :=
  match s with
  | EmptyString => true
  | String c s' =>
      if Ascii.eqb c " " then negb prev && normal true s'
      else cleanWord c && normal false s'
  end.

(** The first and the last character are not spaces. *)
Fixpoint solidEnd (g : string) : bool :=
  match g with
  | EmptyString => false
  | String c EmptyString => negb (isSpace c)
  | String _ g' => solidEnd g'
  end.

Definition solid (g : string) : bool :=
  match g with
  | EmptyString => false
  | String c _ => negb (isSpace c) && solidEnd g
  end.

End NormalForm.

(** ** The text of a value *)

Module JSONText.
Import Utils JSON.

#[local] Set Warnings "-register-all".

(** The value of a list of digits, least significant first. *)
Fixpoint valueRev (ds : list ascii) : Z :=
  match ds with
  | [] => 0
  | d :: ds' => (code d - 48) + 10 * valueRev ds'
  end.

(** The text that may follow a value in what [stringify] writes:
    nothing, a comma or a line feed. *)
Definition terminated (rest : string) : bool :=
  match rest with
  | EmptyString => true
  | String c _ => (code c =? 44) || (code c =? 10)
  end.

(** The text does not go on with a digit. *)
Definition stops (rest : string) : bool :=
  match rest with
  | EmptyString => true
  | String c _ => negb (isDigit c)
  end.

(** What a value's text starts with: a letter of [null], [true] or
    [false], a quote, a bracket, a brace, a minus sign or a digit. *)
Definition valueHead (c : ascii) : bool :=
  (code c =? 110) || (code c =? 116) || (code c =? 102) || (code c =? 34)
  || (code c =? 91) || (code c =? 123) || (code c =? 45) || isDigit c.

(** The first character of the text satisfies [P]. *)
Definition headed (P : ascii -> bool) (s : string) : bool :=
  match s with
  | EmptyString => false
  | String c _ => P c
  end.

(** A bound on the calls the parser nests to read a value back. *)
Fixpoint size (j : json) : nat :=
  match j with
  | JArr items => S (list_sum (List.map (fun x => S (size x)) items))
  | JObj members => S (list_sum (List.map (fun kv => S (size (snd kv))) members))
  | _ => 1
  end.

(** What [stringify] writes between two parts at depth [inner]. *)
Definition separator (inner : nat) : string := "," +:+ newline +:+ spaces inner.

Definition elementTexts (inner : nat) (items : list json) : list string :=
  List.map (stringifyAt inner) items.

Definition memberTexts (inner : nat) (members : list (string * json)) : list string :=
  List.map (fun kv => quote (fst kv) +:+ ": " +:+ stringifyAt inner (snd kv)) members.

(** The fuel that reads back the items of a list. *)
Definition weight {A} (f : A -> json) (l : list A) : nat :=
  list_sum (List.map (fun x => S (size (f x))) l).

(** No key occurs twice among the members. *)
Fixpoint distinctKeys (members : list (string * json)) : bool :=
  match members with
  | [] => true
  | (k, _) :: rest => negb (hasKey k rest) && distinctKeys rest
  end.

(** No object of the value, at any depth, has a repeated key. *)
Fixpoint wellFormed (j : json) : bool :=
  match j with
  | JArr items => forallb wellFormed items
  | JObj members =>
      distinctKeys members && forallb (fun kv => wellFormed (snd kv)) members
  | _ => true
  end.

End JSONText.

(** ** States that are written as they are *)

Module StateText.
Import Utils JSON StateManager JSONText.

(** The sessions whose collected data has no repeated key, at any
    depth. *)
Definition wellFormedState (st : GlobalState) : bool :=
  forallb (fun ks => wellFormed (JObj (data (snd ks)))) (map_to_list (sessions st)).

End StateText.

(** ** The state manager in use *)

Module StoreRun.
Import Utils JSON StateManager.

(** What can be asked of the state manager, and time passing. *)
Inductive StoreOp : Type :=
| Wait (dt : Z)
| GetUserSession (phone : string)
| UpdateUserSession (phone : string) (u : Updates)
| RemoveUserSession (phone : string)
| CleanInactiveSessions (maxInactiveHours : Z)
| IncrementMessageCount
| EnableBot
| DisableBot
| ResetStats.

Definition apply (op : StoreOp) (ns : Z * GlobalState) : option (Z * GlobalState) :=
  let '(now, st) := ns in
  match op with
  | Wait dt => if 0 <=? dt then Some (now + dt, st) else None
  | GetUserSession phone => Some (now, (getUserSession now phone st).2)
  | UpdateUserSession phone u => Some (now, updateUserSession now phone u st)
  | RemoveUserSession phone => Some (now, removeUserSession phone st)
  | CleanInactiveSessions hours => Some (now, cleanInactiveSessions now hours st)
  | IncrementMessageCount => Some (now, incrementMessageCount st)
  | EnableBot => Some (now, enableBot st)
  | DisableBot => Some (now, setBotOff st)
  | ResetStats => Some (now, resetStats now st)
  end.

Fixpoint applyAll (ops : list StoreOp) (ns : Z * GlobalState) : option (Z * GlobalState) :=
  match ops with
  | [] => Some ns
  | op :: ops' => ns' ← apply op ns; applyAll ops' ns'
  end.

(** Every session is stored under its own address, and was created no
    later than it was last active, which is no later than now. *)
Definition filed (now : Z) (st : GlobalState) : Prop :=
  forall key s,
    sessions st !! key = Some s ->
    phone s = key /\ createdAt s <= lastActivity s <= now.

(** The entries of a history lead from one flow to the next, each to a
    different one, from [start] to [current]. *)
Fixpoint linked (start : string) (h : list HistoryEntry) (current : string) : Prop :=
  match h with
  | [] => start = current
  | e :: h' => h_from e = start /\ h_to e <> start /\ linked (h_to e) h' current
  end.

(** The history of every session leads from the flow a session starts
    in to the flow it is in. *)
Definition chained (st : GlobalState) : Prop :=
  forall key s, sessions st !! key = Some s -> linked "welcome" (history s) (currentFlow s).

(** The operation does not set the flow of a session to the empty
    string. *)
Definition namesFlow (op : StoreOp) : bool :=
  match op with
  | UpdateUserSession _ u =>
      match u_currentFlow u with
      | Some flow => negb (isEmpty flow)
      | None => true
      end
  | _ => true
  end.

Definition isReset (op : StoreOp) : bool :=
  match op with ResetStats => true | _ => false end.

(** The operation does not look a session up under a name of
    [Object.prototype]. *)
Definition plainKey (op : StoreOp) : bool :=
  match op with
  | GetUserSession phone | UpdateUserSession phone _ => negb (inherited phone)
  | _ => true
  end.

End StoreRun.

(** ** The life of a cache entry *)

Module CacheInv.
Import Utils JSON Timers CacheSystem.

(** The timers of [c] that will delete [key]. *)
Definition timersOf (key : string) (c : t) : list (Z * string) :=
  filter (fun p => p.2 = key) (pending c).

(** The entry that [set] writes at [t0] with lifetime [T], and the
    timer it starts. *)
Definition entryOf (v : json) (t0 T : Z) : Entry :=
  {| value := v; expirationTime := t0 + T; createdAt := t0 |}.

Definition ownTimer (key : string) (t0 T : Z) : Z * string :=
  (t0 + timeoutDelay T, key).

(** What holds of the entry written at [t0] for as long as nothing
    inserts the key again, deletes it or clears the cache: its timer is
    pending or has fired after its due time, and the entry is there
    unless the timer has fired or the entry has been seen expired. *)
Definition alive (key : string) (v : json) (t0 T : Z) (nc : Z * t) : Prop :=
  let '(now, c) := nc in
  t0 <= now /\
  (timersOf key c = [ownTimer key t0 T]
   \/ (timersOf key c = [] /\ t0 + timeoutDelay T <= now)) /\
  (cache c !! key = Some (entryOf v t0 T) \/
   (cache c !! key = None /\ (timersOf key c = [] \/ now > t0 + T))) /\
  (timersOf key c = [] -> cache c !! key = None).

(** Every entry still has the removal timer of the [set] that wrote it
    among the pending ones. *)
Definition timed (c : t) : Prop :=
  forall key e,
    cache c !! key = Some e ->
    (createdAt e + timeoutDelay (expirationTime e - createdAt e), key) ∈ pending c.

End CacheInv.

(** ** What the client is asked once it is there *)

Module ServiceInv.
Import Utils JSON Runtime WhatsAppService.

(** The call that delivers a send that has waited in the queue. *)
Definition delivered (d : Deferred) : WireOp :=
  match d with
  | DeferText to text _ _ => SendText (formatPhone to) text
  | DeferList to m _ _ =>
      if validateMenuConfig m then SendListMessage (formatPhone to) m
      else SendText (formatPhone to) TxtMenuFailed
  end.

(** What the client is handed for a send that has waited: the call
    that delivers it and, after the call of a menu that the client did
    not take, the menu as text. *)
Definition handedFor (d : Deferred) (sent : list WireOp) : Prop :=
  sent = [delivered d] \/
  match d with
  | DeferList to m _ _ =>
      validateMenuConfig m = true /\
      sent = [delivered d; SendText (formatPhone to) (TxtMenuAsText m)]
  | DeferText _ _ _ _ => False
  end.

End ServiceInv.

(** ** What handling a message of one user may change *)

Module FlowInv.
Import Utils JSON StateManager Runtime.

(** From [c] to [c'] the environment, the file of the state, the
    connection of the client, the count of messages and the sessions of
    the users other than [from] are the same; the log of calls, the
    timers, the queue and the leads have only grown, and no user has
    been uncounted. *)
Definition extends (from : string) (c c' : Ctx) : Prop :=
  env c' = env c /\
  disk c' = disk c /\
  ready c' = ready c /\
  (forall other, other <> from ->
     sessions (state c') !! other = sessions (state c) !! other) /\
  total_messages (stats (state c')) = total_messages (stats (state c)) /\
  total_users (stats (state c)) <= total_users (stats (state c')) /\
  wire c `prefix_of` wire c' /\
  timers c `prefix_of` timers c' /\
  messageQueue c `prefix_of` messageQueue c' /\
  leads c `prefix_of` leads c'.

(** Whatever the clock and the context, a run of [m] extends the
    context, whether it returns or throws. *)
Definition keeps {A} (from : string) (m : M A) : Prop :=
  forall t c, extends from c (m t c).2.

(** The context with one more message counted. *)
Definition counted (c : Ctx) : Ctx :=
  withState (StateManager.incrementMessageCount (state c)) c.

(** A run of [m] leaves the state of the bot as it is. *)
Definition quiet {A} (m : M A) : Prop :=
  forall t c, state (m t c).2 = state c.

End FlowInv.

(** ** What a welcome leaves behind *)

Module RouterInv.
Import Utils JSON Timers StateManager Runtime MenuService WhatsAppService Flows.
Local Open Scope flow_scope.

(** The state and the sends of an interception that ends in the
    welcome menu: [before] is what the branch does to the state before
    [sendWelcome]. *)
Definition welcomed (from : string) (t : Z) (before : GlobalState -> GlobalState)
  (c c' : Ctx) : Prop :=
  state c'
  = StateManager.updateUserSession t from (flowStep "welcome_response" "aguardando_escolha")
      (before (StateManager.incrementMessageCount (state c))) /\
  outbound (wire c')
  = outbound (wire c) ++ [SendListMessage (formatPhone from) welcomeMenu].

(** What an interception does to the state before [sendWelcome]: a
    menu command switches the bot on and empties the data of the
    session, a greeting only restarts the welcome flow. *)
Definition restarted (from body : string) (t : Z) (st : GlobalState) : GlobalState :=
  if isMenuCommand (normalizeText body)
  then StateManager.updateUserSession t from (flowStepData "welcome" "inicio" [])
         (StateManager.enableBot st)
  else StateManager.updateUserSession t from (flowStep "welcome" "inicio") st.

(** The router of a bot that is on, once the global command has taken
    the message: a flow is dispatched only when the command reports
    that it did not handle the message, which is when the welcome could
    not be sent, and the flow is then the one that awaits the choice of
    the welcome menu. *)
Definition interceptedRoute (info : MessageInfo) : M bool :=
  let from := info_from info in
  handled <- handleGlobalCommands from (info_body info) ;;
  if handled then ret true
  else
    session <- getUserSession from ;;
    sendTyping from 1500 ;;;
    handleWelcomeResponse from (userInputOf info) session.

End RouterInv.

(** ** services/csvService.js *)

Module CsvService.
Import Utils.

(** LF, CR and the two punctuation marks of the file format. *)
Definition LF : ascii := Eval cbv in chr 10.
Definition CR : ascii := Eval cbv in chr 13.
Definition semicolon : ascii := Eval cbv in chr 59.
Definition comma : ascii := Eval cbv in chr 44.

(** [dadosLead]: the nine fields a caller hands over, as strings; a
    field left out is the empty string, which is what [|| ''] makes of
    it. *)
Record DadosLead : Type := {
  nome : string;
  email : string;
  telefone : string;
  cpf : string;
  tipoSeguro : string;
  veiculo : string;
  cep : string;
  observacoes : string;
  whatsapp : string
}.

(** A record of the file: the date, then the nine fields. *)
Record Registro : Type := {
  data : string;
  dados : DadosLead
}.

(** The file [leads.csv]: [None] when it does not exist. *)
Definition File : Type := option string.

Definition header : string :=
  "Data;Nome;Email;Telefone;CPF;Tipo_Seguro;Veiculo;CEP;Observacoes;WhatsApp"
  +:+ String LF "".

Definition ensureCSVExists (f : File) : File :=
  match f with
  | None => Some header
  | Some _ => f
  end.

(** [campo.replace(/[\r\n]/g, ' ').replace(/;/g, ',').trim()] *)
Definition sanitizeCSVField (campo : string) : string :=
  trim
    (mapChars (fun c => if Ascii.eqb c semicolon then comma else c)
       (mapChars (fun c => if Ascii.eqb c CR || Ascii.eqb c LF then " "%char else c)
          campo)).

(** [dadosLimpos], the date apart. *)
Definition limpar (dadosLead : DadosLead) : DadosLead :=
  {| nome := sanitizeCSVField (nome dadosLead);
     email := sanitizeCSVField (email dadosLead);
     telefone := sanitizeCSVField (telefone dadosLead);
     cpf := sanitizeCSVField (cpf dadosLead);
     tipoSeguro := sanitizeCSVField (tipoSeguro dadosLead);
     veiculo := sanitizeCSVField (veiculo dadosLead);
     cep := sanitizeCSVField (cep dadosLead);
     observacoes := sanitizeCSVField (observacoes dadosLead);
     whatsapp := sanitizeCSVField (whatsapp dadosLead) |}.

Definition linhaCsv (r : Registro) : string :=
  let d := dados r in
  let sep := String semicolon "" in
  data r +:+ sep +:+ nome d +:+ sep +:+ email d +:+ sep +:+ telefone d +:+ sep +:+
  cpf d +:+ sep +:+ tipoSeguro d +:+ sep +:+ veiculo d +:+ sep +:+ cep d +:+ sep +:+
  observacoes d +:+ sep +:+ whatsapp d +:+ String LF "".

(** [fs.appendFileSync]: the file is created when it is missing. *)
Definition appendFileSync (f : File) (text : string) : File :=
  match f with
  | Some conteudo => Some (conteudo +:+ text)
  | None => Some text
  end.

(** [salvarLead], the date as the locale formats it given; the append
    is taken to succeed. *)
Definition salvarLead (dataFormatada : string) (dadosLead : DadosLead) (f : File)
  : bool * File :=
  let dadosLimpos := {| data := dataFormatada; dados := limpar dadosLead |} in
  (true, appendFileSync f (linhaCsv dadosLimpos)).

(** [String.prototype.split] at a one-character separator. *)
Fixpoint splitOn (sep : ascii) (s : string) : list string :=
  match s with
  | EmptyString => [EmptyString]
  | String c s' =>
      if Ascii.eqb c sep then EmptyString :: splitOn sep s'
      else
        match splitOn sep s' with
        | x :: xs => String c x :: xs
        | [] => [String c EmptyString]
        end
  end.

(** [campos[i] || ''] *)
Definition campo (i : nat) (campos : list string) : string :=
  default EmptyString (campos !! i).

Definition lerLinha (linha : string) : Registro :=
  let campos := splitOn semicolon linha in
  {| data := campo 0 campos;
     dados := {| nome := campo 1 campos;
                 email := campo 2 campos;
                 telefone := campo 3 campos;
                 cpf := campo 4 campos;
                 tipoSeguro := campo 5 campos;
                 veiculo := campo 6 campos;
                 cep := campo 7 campos;
                 observacoes := campo 8 campos;
                 whatsapp := campo 9 campos |} |}.

Definition lerLeads (f : File) : list Registro :=
  match f with
  | None => []
  | Some conteudo =>
      let linhas :=
        List.filter (fun linha => negb (isEmpty (trim linha))) (splitOn LF conteudo) in
      let dadosLinhas := drop 1 linhas in
      List.map lerLinha dadosLinhas
  end.

(** A service started on a missing file, then a run of saves: each with
    the date of its moment. *)
Definition salvarTodos (entradas : list (string * DadosLead)) (f : File) : File :=
  fold_left (fun f e => (salvarLead (fst e) (snd e) f).2) entradas f.

(** Neither a field separator nor a line end. *)
Definition plain (c : ascii) : bool :=
  negb (Ascii.eqb c semicolon || Ascii.eqb c LF).

End CsvService.

(** ** The text of a file of leads *)

Module CsvText.
Import Utils CsvService.

Definition campos (r : Registro) : list string :=
  let d := dados r in
  [data r; nome d; email d; telefone d; cpf d; tipoSeguro d; veiculo d; cep d;
   observacoes d; whatsapp d].

(** The fields of a record fit the format. *)
Definition clean (r : Registro) : Prop :=
  Forall (fun campo => allChars plain campo = true) (campos r).

Fixpoint joined (fields : list string) : string :=
  match fields with
  | [] => EmptyString
  | [a] => a
  | a :: rest => a +:+ String semicolon "" +:+ joined rest
  end.

Fixpoint texto (rs : list Registro) : string :=
  match rs with
  | [] => EmptyString
  | r :: rs' => linhaCsv r +:+ texto rs'
  end.

(** What a save writes down. *)
Definition registro (e : string * DadosLead) : Registro :=
  {| data := fst e; dados := limpar (snd e) |}.

End CsvText.

(** * Properties *)

Module UtilsFacts.
Import Utils NormalForm.

Example normalize_dois : normalizeText "Dois!" = "dois ".
Proof. reflexivity. Qed.

Lemma isDigit_bounds c : isDigit c = true -> 0 <= code c - 48 <= 9.
Proof. unfold isDigit, inRange. lia. Qed.

Lemma filterChars_id p s : allChars p s = true -> filterChars p s = s.
Proof.
  induction s as [|c s IH]; simpl; [reflexivity|].
  intros [Hc Hs]%andb_prop. rewrite Hc, (IH Hs). reflexivity.
Qed.

Lemma checkDigit_mod11 sum : checkDigit sum = CPFSpec.mod11Digit sum.
Proof.
  unfold checkDigit, CPFSpec.mod11Digit.
  pose proof (Z.mod_pos_bound sum 11 eq_refl).
  destruct (11 - sum mod 11 >? 9) eqn:E1, (sum mod 11 <? 2) eqn:E2; lia.
Qed.

Lemma string_length_11 (s : string) :
  String.length s = 11%nat ->
  exists c0 c1 c2 c3 c4 c5 c6 c7 c8 c9 c10,
    s = String c0 (String c1 (String c2 (String c3 (String c4 (String c5
       (String c6 (String c7 (String c8 (String c9 (String c10 EmptyString)))))))))).
Proof.
  intros H.
  do 11 (destruct s as [|? s]; [discriminate H|]).
  destruct s; [|discriminate H].
  repeat eexists.
Qed.

(** C3. The validator accepts the masked and the unmasked form of
    529.982.247-25, rejects the string of eleven ones, and rejects every
    string of eleven digits whose last two digits are not the check
    digits that the weighted mod-11 algorithm computes from the first
    nine. *)
Theorem isValidCPF_check_digits :
  isValidCPF "529.982.247-25" = true /\
  isValidCPF "52998224725" = true /\
  isValidCPF "11111111111" = false /\
  forall s : string,
    String.length s = 11%nat ->
    allChars isDigit s = true ->
    (digitAt s 9, digitAt s 10) <> CPFSpec.checkDigits (String.substring 0 9 s) ->
    isValidCPF s = false.
Proof.
  split; [reflexivity|]. split; [reflexivity|]. split; [reflexivity|].
  intros s Hlen Hdig Hne.
  destruct (string_length_11 s Hlen)
    as (c0 & c1 & c2 & c3 & c4 & c5 & c6 & c7 & c8 & c9 & c10 & ->).
  unfold isValidCPF.
  rewrite (filterChars_id _ _ Hdig).
  change (isEmpty _) with false. cbv iota.
  change (len _ =? 11) with true. cbv iota. simpl negb. cbv iota.
  destruct (allSameDigit _); [reflexivity|].
  rewrite !checkDigit_mod11.
  unfold CPFSpec.checkDigits in Hne.
  cbn [String.substring CPFSpec.digits list_ascii_of_string List.map
       CPFSpec.weighted app] in Hne.
  unfold weightedSum, digitAt in *.
  cbn [seq fold_left String.get Z.of_nat Pos.of_succ_nat Pos.succ] in *.
  destruct (_ =? code c9 - 48) eqn:E1; [|reflexivity].
  destruct (_ =? code c10 - 48) eqn:E2; [|reflexivity].
  exfalso. apply Hne. clear Hne Hdig Hlen.
  apply Z.eqb_eq in E1, E2.
  match type of E1 with CPFSpec.mod11Digit ?a = _ =>
    match goal with |- _ = (CPFSpec.mod11Digit ?b, _) =>
      replace b with a by lia
    end
  end.
  rewrite E1.
  match type of E2 with CPFSpec.mod11Digit ?a = _ =>
    match goal with |- _ = (_, CPFSpec.mod11Digit ?b) =>
      replace b with a by lia
    end
  end.
  rewrite E2. reflexivity.
Qed.

(** An instance: 529.982.247-24, whose last digit is off by one. *)
Lemma isValidCPF_check_digits_witness : isValidCPF "52998224724" = false.
Proof.
  apply (proj2 (proj2 (proj2 isValidCPF_check_digits)) "52998224724").
  - reflexivity.
  - reflexivity.
  - vm_compute. intros H. discriminate H.
Defined.

(** *** Normalizing twice

    The router normalizes the body and the keyword tests normalize
    their argument again.  A normalized text consists of lower-case
    letters, digits, underscores and single spaces; normalizing it
    again only removes a space at either end, which no keyword
    occurrence contains. *)

Ltac all_chars c := destruct c as [[] [] [] [] [] [] [] []]; vm_compute; try reflexivity; try discriminate.

Lemma lowerChar_isLowered c : isLowered (lowerChar c) = true.
Proof. all_chars c. Qed.

Lemma stripMarkChar_notUpper c : isLowered c = true -> notUpper (stripMarkChar c) = true.
Proof. all_chars c. Qed.

Lemma punct_okChar c :
  notUpper c = true -> okChar (if isWordChar c || isSpace c then c else " "%char) = true.
Proof. all_chars c. Qed.

Lemma okChar_cases c :
  okChar c = true -> isSpace c = false -> cleanWord c = true /\ Ascii.eqb c " " = false.
Proof. all_chars c; intros; split; reflexivity. Qed.

Lemma space_isSpace c : Ascii.eqb c " " = true -> isSpace c = true.
Proof. intros H. apply Ascii.eqb_eq in H. subst. reflexivity. Qed.

Lemma cleanWord_fixed c :
  cleanWord c = true ->
  lowerChar c = c /\ stripMarkChar c = c /\
  (if isWordChar c || isSpace c then c else " "%char) = c /\ isSpace c = false.
Proof. all_chars c; intros; repeat split. Qed.

Lemma allChars_mapChars (P Q : ascii -> bool) f s :
  (forall c, P c = true -> Q (f c) = true) ->
  allChars P s = true -> allChars Q (mapChars f s) = true.
Proof.
  intros Hf. induction s as [|c s IH]; simpl; [reflexivity|].
  intros [Hc Hs]%andb_prop. rewrite (Hf c Hc), (IH Hs). reflexivity.
Qed.

Lemma allChars_true_mapChars (Q : ascii -> bool) f s :
  (forall c, Q (f c) = true) -> allChars Q (mapChars f s) = true.
Proof.
  intros Hf. induction s as [|c s IH]; simpl; [reflexivity|]. rewrite Hf, IH. reflexivity.
Qed.

Lemma allChars_trimStart P s : allChars P s = true -> allChars P (trimStart s) = true.
Proof.
  induction s as [|c s IH]; simpl; [reflexivity|].
  intros H. destruct (isSpace c); [|exact H].
  apply andb_prop in H as [_ H]. exact (IH H).
Qed.

Lemma allChars_trimEnd P s : allChars P s = true -> allChars P (trimEnd s) = true.
Proof.
  induction s as [|c s IH]; simpl; [reflexivity|].
  intros [Hc Hs]%andb_prop.
  destruct (isSpace c && isEmpty (trimEnd s)); [reflexivity|].
  simpl. rewrite Hc, (IH Hs). reflexivity.
Qed.

Lemma collapse_normal b s :
  allChars okChar s = true -> normal b (collapseSpacesFrom b s) = true.
Proof.
  revert b. induction s as [|c s IH]; simpl; intros b; [reflexivity|].
  intros [Hc Hs]%andb_prop.
  destruct (isSpace c) eqn:Hsp.
  - destruct b; [exact (IH true Hs)|]. simpl. exact (IH true Hs).
  - destruct (okChar_cases c Hc Hsp) as [Hw Hne]. simpl. rewrite Hne, Hw. exact (IH false Hs).
Qed.

Lemma normalizeText_normal s : normal false (normalizeText s) = true.
Proof.
  unfold normalizeText. destruct (isEmpty s); [reflexivity|].
  apply collapse_normal. unfold punctToSpace, stripMarks, toLowerCase.
  apply (allChars_mapChars notUpper); [exact punct_okChar|].
  apply (allChars_mapChars isLowered); [exact stripMarkChar_notUpper|].
  unfold trim. apply allChars_trimEnd, allChars_trimStart.
  apply allChars_true_mapChars. exact lowerChar_isLowered.
Qed.

Lemma normal_weaken b s : normal b s = true -> normal false s = true.
Proof.
  destruct s as [|c s]; simpl; [reflexivity|].
  destruct (Ascii.eqb c " "); [|exact id].
  destruct b; simpl; [discriminate|exact id].
Qed.

Lemma normal_trimStart b s : normal b s = true -> normal false (trimStart s) = true.
Proof.
  revert b. induction s as [|c s IH]; simpl; intros b; [reflexivity|].
  destruct (Ascii.eqb c " ") eqn:Hc.
  - rewrite (space_isSpace c Hc). intros [_ H]%andb_prop. exact (IH true H).
  - intros [Hw H]%andb_prop. destruct (cleanWord_fixed c Hw) as (_ & _ & _ & ->).
    simpl. rewrite Hc, Hw, H. reflexivity.
Qed.

Lemma normal_trimEnd b s : normal b s = true -> normal b (trimEnd s) = true.
Proof.
  revert b. induction s as [|c s IH]; simpl; intros b; [reflexivity|].
  destruct (Ascii.eqb c " ") eqn:Hc.
  - intros [Hb H]%andb_prop.
    destruct (isSpace c && isEmpty (trimEnd s)); [reflexivity|].
    simpl. rewrite Hc, Hb. exact (IH true H).
  - intros [Hw H]%andb_prop. destruct (cleanWord_fixed c Hw) as (_ & _ & _ & ->).
    simpl. rewrite Hc, Hw. exact (IH false H).
Qed.

Lemma normal_fixed b s :
  normal b s = true ->
  toLowerCase s = s /\ stripMarks s = s /\ punctToSpace s = s /\
  collapseSpacesFrom b s = s.
Proof.
  revert b. unfold toLowerCase, stripMarks, punctToSpace.
  induction s as [|c s IH]; simpl; intros b; [repeat split|].
  destruct (Ascii.eqb c " ") eqn:Hc.
  - intros [Hb H]%andb_prop. apply Ascii.eqb_eq in Hc. subst c.
    destruct (IH true H) as (-> & -> & -> & ->).
    destruct b; [discriminate Hb|]. repeat split.
  - intros [Hw H]%andb_prop.
    destruct (cleanWord_fixed c Hw) as (-> & -> & -> & ->).
    destruct (IH false H) as (-> & -> & -> & ->). repeat split.
Qed.

(** Normalizing a normalized text trims it. *)
Lemma normalizeText_twice s : normalizeText (normalizeText s) = trim (normalizeText s).
Proof.
  pose proof (normalizeText_normal s) as Hn.
  generalize dependent (normalizeText s). intros n Hn.
  unfold normalizeText at 1. destruct (isEmpty n) eqn:He.
  - destruct n; [reflexivity|discriminate He].
  - destruct (normal_fixed false n Hn) as (-> & _ & _ & _).
    assert (Ht : normal false (trim n) = true).
    { unfold trim. apply normal_trimEnd. eapply normal_trimStart. exact Hn. }
    destruct (normal_fixed false (trim n) Ht) as (_ & -> & -> & Hc).
    exact Hc.
Qed.

Lemma startsWith_nonempty s g : startsWith s g = true -> isEmpty g = false -> isEmpty s = false.
Proof. destruct g, s; simpl; congruence. Qed.

Lemma includes_nonempty s g : includes s g = true -> isEmpty g = false -> isEmpty s = false.
Proof. destruct s, g; simpl; congruence. Qed.

Lemma solidEnd_nonempty g : solidEnd g = true -> isEmpty g = false.
Proof. destruct g; simpl; congruence. Qed.

Lemma startsWith_empty s : startsWith s "" = true.
Proof. destruct s; reflexivity. Qed.

Lemma startsWith_trimEnd s g :
  solidEnd g = true -> startsWith s g = true -> startsWith (trimEnd s) g = true.
Proof.
  revert s. induction g as [|a g IH]; intros s Hg Hs; [discriminate Hg|].
  destruct s as [|c s]; [discriminate Hs|].
  simpl in Hs. apply andb_prop in Hs as [Hac Hs].
  apply Ascii.eqb_eq in Hac. subst c.
  destruct g as [|a' g'].
  - simpl in Hg. simpl. apply negb_true_iff in Hg. rewrite Hg. simpl.
    rewrite Ascii.eqb_refl, startsWith_empty. reflexivity.
  - assert (Hg' : solidEnd (String a' g') = true) by exact Hg.
    specialize (IH s Hg' Hs).
    pose proof (startsWith_nonempty _ _ IH eq_refl) as Hne.
    cbn [trimEnd]. rewrite Hne, andb_false_r.
    cbn [startsWith]. rewrite Ascii.eqb_refl. exact IH.
Qed.

Lemma includes_trimEnd s g :
  solidEnd g = true -> includes s g = true -> includes (trimEnd s) g = true.
Proof.
  intros Hg. induction s as [|c s IH]; intros Hs.
  - destruct g; [discriminate Hg|discriminate Hs].
  - cbn [includes] in Hs. apply orb_prop in Hs as [Hs|Hs].
    + pose proof (startsWith_trimEnd _ _ Hg Hs) as H.
      destruct (trimEnd (String c s)); cbn [includes]; rewrite H; reflexivity.
    + specialize (IH Hs).
      pose proof (includes_nonempty _ _ IH (solidEnd_nonempty _ Hg)) as Hne.
      cbn [trimEnd]. rewrite Hne, andb_false_r.
      cbn [includes]. rewrite IH. apply orb_true_r.
Qed.

Lemma includes_trimStart s g :
  solid g = true -> includes s g = true -> includes (trimStart s) g = true.
Proof.
  intros Hg. induction s as [|c s IH]; intros Hs; [exact Hs|].
  cbn [trimStart]. destruct (isSpace c) eqn:Hc; [|exact Hs].
  apply IH. cbn [includes] in Hs. apply orb_prop in Hs as [Hs|Hs]; [|exact Hs].
  destruct g as [|a g]; [discriminate Hg|].
  simpl in Hs. apply andb_prop in Hs as [Hac _].
  apply Ascii.eqb_eq in Hac. subst a.
  simpl in Hg. rewrite Hc in Hg. discriminate Hg.
Qed.

(** An occurrence of a keyword in a normalized text is still there
    when the text is normalized again. *)
Lemma includes_normalizeText_twice s g :
  solid g = true ->
  includes (normalizeText s) g = true ->
  includes (normalizeText (normalizeText s)) g = true.
Proof.
  intros Hg H. rewrite normalizeText_twice. unfold trim.
  apply includes_trimEnd.
  - destruct g; [discriminate Hg|]. simpl in Hg. apply andb_prop in Hg as [_ Hg]. exact Hg.
  - apply includes_trimStart; assumption.
Qed.

Lemma some_exists {A} (p : A -> bool) (l : list A) x :
  In x l -> p x = true -> some p l = true.
Proof. intros Hin Hp. unfold some. apply existsb_exists. exists x. split; assumption. Qed.

(** A normalized body that contains a greeting keyword passes the
    greeting test of the router. *)
Lemma isGreeting_contains body g :
  In g greetings -> includes (normalizeText body) g = true ->
  isGreeting (normalizeText body) = true.
Proof.
  intros Hin Hinc. unfold isGreeting.
  apply (some_exists _ _ g Hin).
  rewrite includes_normalizeText_twice; [reflexivity| |exact Hinc].
  simpl in Hin.
  repeat (destruct Hin as [<-|Hin]; [reflexivity|]). destruct Hin.
Qed.

End UtilsFacts.

Module JSONFacts.
Import Utils JSON JSONText UtilsFacts.

#[local] Set Warnings "-register-all".

Example stringify_parse_sample :
  let sample :=
    JObj [("a", JNum 12 0); ("b", JArr [JStr (String "x" (String quoteChar "y")); JNull; JBool true; JNum (-5) 0]);
          ("c", JObj []); ("d", JArr []); ("e", JObj [("k", JStr "")])] in
  parse (stringify sample) = Parsed sample.
Proof. vm_compute. reflexivity. Qed.

Example parse_examples :
  parse "{" = SyntaxError /\ parse "[1,]" = SyntaxError /\ parse "01" = SyntaxError /\
  parse " [ 1.5e3 , -0 ] " = Parsed (JArr [JNum 15 2; JNum 0 0]) /\
  parse ("{" +:+ quote "a" +:+ ":1," +:+ quote "b" +:+ ":2," +:+ quote "a" +:+ ":3}")
    = Parsed (JObj [("a", JNum 3 0); ("b", JNum 2 0)]).
Proof. vm_compute. repeat split. Qed.

(** *** Strings *)

Lemma append_cons x (a b : string) : String x a +:+ b = String x (a +:+ b).
Proof. reflexivity. Qed.

Lemma append_nil_l (b : string) : "" +:+ b = b.
Proof. reflexivity. Qed.

Lemma append_assoc (a b c : string) : (a +:+ b) +:+ c = a +:+ b +:+ c.
Proof.
  induction a as [|x a IH]; [reflexivity|]. rewrite !append_cons, IH. reflexivity.
Qed.

Lemma append_nil_r (a : string) : a +:+ "" = a.
Proof.
  induction a as [|x a IH]; [reflexivity|]. rewrite append_cons, IH. reflexivity.
Qed.

Lemma length_append (a b : string) :
  String.length (a +:+ b) = (String.length a + String.length b)%nat.
Proof.
  induction a as [|x a IH]; [reflexivity|]. rewrite append_cons. simpl. rewrite IH.
  reflexivity.
Qed.

(** *** Decimal digits *)

Lemma digitChar_spec d :
  0 <= d <= 9 -> isDigit (digitChar d) = true /\ code (digitChar d) - 48 = d.
Proof.
  intros H.
  assert (Hd : d = 0 \/ d = 1 \/ d = 2 \/ d = 3 \/ d = 4 \/ d = 5 \/ d = 6 \/ d = 7
               \/ d = 8 \/ d = 9) by lia.
  repeat (destruct Hd as [-> | Hd]; [split; reflexivity|]). subst. split; reflexivity.
Qed.

Lemma digitsRev_spec fuel n :
  0 <= n -> (Z.to_nat n < fuel)%nat ->
  digitsRev fuel n <> [] /\
  Forall (fun d => isDigit d = true) (digitsRev fuel n) /\
  valueRev (digitsRev fuel n) = n /\
  (10 <= n -> exists d, last (digitsRev fuel n) = Some d /\ 1 <= code d - 48).
Proof.
  revert n. induction fuel as [|fuel IH]; intros n Hn Hf; [lia|].
  cbn [digitsRev]. destruct (n <? 10) eqn:E.
  - destruct (digitChar_spec n ltac:(lia)) as [Hd Hv].
    split; [discriminate|]. split; [constructor; [exact Hd|constructor]|].
    split; [cbn [valueRev]; lia|lia].
  - assert (H10 : 0 <= n / 10 < n) by (split; [apply Z.div_pos; lia|apply Z.div_lt; lia]).
    destruct (digitChar_spec (n mod 10) ltac:(pose proof (Z.mod_pos_bound n 10); lia))
      as [Hd Hv].
    destruct (IH (n / 10) ltac:(lia) ltac:(lia)) as (Hne & Hall & Hval & Hlast).
    split; [discriminate|]. split; [constructor; assumption|].
    split.
    + cbn [valueRev]. rewrite Hv, Hval. pose proof (Z.div_mod n 10). lia.
    + intros _. destruct (digitsRev fuel (n / 10)) as [|d0 ds] eqn:Eds; [congruence|].
      destruct (Z_lt_le_dec (n / 10) 10) as [Hsmall|Hbig].
      * (* one more digit *)
        destruct fuel as [|fuel']; [discriminate Eds|]. cbn [digitsRev] in Eds.
        assert (E2 : (n / 10 <? 10) = true) by lia. rewrite E2 in Eds.
        injection Eds as <- <-. exists (digitChar (n / 10)). split; [reflexivity|].
        destruct (digitChar_spec (n / 10) ltac:(lia)) as [_ ->].
        apply Z.div_le_lower_bound; lia.
      * destruct (Hlast Hbig) as (d & Hl & Hd1). exists d. split; [|exact Hd1].
        rewrite last_cons, Hl. reflexivity.
Qed.

Lemma parseDigitsFrom_app acc a b :
  parseDigitsFrom acc (a +:+ b) = parseDigitsFrom (parseDigitsFrom acc a) b.
Proof.
  revert acc. induction a as [|c a IH]; intros acc; [reflexivity|].
  rewrite append_cons. simpl. apply IH.
Qed.

Lemma string_of_list_app l1 l2 :
  string_of_list_ascii (l1 ++ l2) = string_of_list_ascii l1 +:+ string_of_list_ascii l2.
Proof.
  induction l1 as [|x l1 IH]; [reflexivity|]. simpl. rewrite IH, append_cons. reflexivity.
Qed.

Lemma parseDigits_rev acc ds :
  parseDigitsFrom acc (string_of_list_ascii (List.rev ds))
  = acc * 10 ^ Z.of_nat (length ds) + valueRev ds.
Proof.
  revert acc. induction ds as [|d ds IH]; intros acc.
  - cbn. lia.
  - cbn [List.rev valueRev length]. rewrite string_of_list_app, parseDigitsFrom_app, IH.
    cbn [string_of_list_ascii parseDigitsFrom].
    rewrite Nat2Z.inj_succ, Z.pow_succ_r by lia. lia.
Qed.

Lemma allChars_string_of_list P l :
  Forall (fun d => P d = true) l -> allChars P (string_of_list_ascii l) = true.
Proof.
  induction 1 as [|d l Hd _ IH]; simpl; [reflexivity|]. rewrite Hd, IH. reflexivity.
Qed.

(** The text of a natural number: digits only, at least one, of the
    right value, and without a leading zero unless it is "0". *)
Lemma natural_spec n :
  0 <= n ->
  allChars isDigit (natural n) = true /\
  isEmpty (natural n) = false /\
  parseInt (natural n) = n /\
  (startsWith (natural n) "0" && negb (len (natural n) =? 1)) = false.
Proof.
  intros Hn. unfold natural.
  destruct (digitsRev_spec (S (Z.to_nat n)) n Hn ltac:(lia)) as (Hne & Hall & Hval & Hlast).
  set (ds := digitsRev (S (Z.to_nat n)) n) in *.
  split; [|split; [|split]].
  - apply allChars_string_of_list. apply Forall_rev. exact Hall.
  - destruct ds as [|d ds'] using rev_ind; [congruence|].
    rewrite rev_app_distr. reflexivity.
  - unfold parseInt. rewrite parseDigits_rev. lia.
  - destruct (Z_lt_le_dec n 10) as [Hsmall|Hbig].
    + subst ds. cbn [digitsRev]. assert (E : (n <? 10) = true) by lia. rewrite E.
      cbn. apply andb_false_r.
    + destruct (Hlast Hbig) as (d & Hl & Hd).
      destruct ds as [|d' ds'] using rev_ind; [discriminate Hl|].
      rewrite last_snoc in Hl. injection Hl as ->.
      rewrite rev_app_distr. cbn [List.rev app string_of_list_ascii startsWith].
      destruct (Ascii.eqb "0" d) eqn:E0; [|reflexivity].
      apply Ascii.eqb_eq in E0. subst d. change (code "0" - 48) with 0 in Hd. lia.
Qed.

Lemma terminated_cases rest :
  terminated rest = true ->
  rest = "" \/ (exists r, rest = String "," r) \/ (exists r, rest = String (chr 10) r).
Proof.
  destruct rest as [|c r]; [left; reflexivity|]. cbn [terminated].
  intros H. right.
  destruct c as [[] [] [] [] [] [] [] []]; try discriminate H;
    first [left; eexists; reflexivity | right; eexists; reflexivity].
Qed.

Lemma spanDigits_stops a rest :
  allChars isDigit a = true -> stops rest = true ->
  spanDigits (a +:+ rest) = (a, rest).
Proof.
  intros Ha Hr. induction a as [|c a IH].
  - rewrite append_nil_l. destruct rest as [|c r]; [reflexivity|].
    cbn in Hr. cbn [spanDigits]. destruct (isDigit c); [discriminate|reflexivity].
  - cbn in Ha. apply andb_prop in Ha as [Hc Ha].
    rewrite append_cons. cbn [spanDigits]. rewrite Hc, (IH Ha). reflexivity.
Qed.

Lemma terminated_stops rest : terminated rest = true -> stops rest = true.
Proof.
  destruct rest as [|c r]; [reflexivity|]. unfold terminated, stops, isDigit, inRange. lia.
Qed.

Lemma natural_head n :
  0 <= n -> exists d r, natural n = String d r /\ isDigit d = true.
Proof.
  intros Hn. destruct (natural_spec n Hn) as (Hall & Hne & _).
  destruct (natural n) as [|d r]; [discriminate Hne|].
  cbn in Hall. apply andb_prop in Hall as [Hd _]. eauto.
Qed.

Lemma integer_split m :
  integer m = (if m <? 0 then String "-" (natural (Z.abs m)) else natural (Z.abs m)).
Proof.
  unfold integer. destruct (m <? 0) eqn:E.
  - rewrite Z.abs_neq by lia. reflexivity.
  - rewrite Z.abs_eq by lia. reflexivity.
Qed.

Lemma takeMinus_integer m rest :
  takeMinus (integer m +:+ rest) = (m <? 0, natural (Z.abs m) +:+ rest).
Proof.
  rewrite integer_split. destruct (m <? 0) eqn:E.
  - reflexivity.
  - destruct (natural_head (Z.abs m) ltac:(lia)) as (d & r & -> & Hd).
    rewrite append_cons. unfold takeMinus.
    apply isDigit_bounds in Hd. replace (code d =? 45) with false by lia. reflexivity.
Qed.

Lemma takeSign_integer m rest :
  takeSign (integer m +:+ rest) = (m <? 0, natural (Z.abs m) +:+ rest).
Proof.
  rewrite integer_split. destruct (m <? 0) eqn:E.
  - reflexivity.
  - destruct (natural_head (Z.abs m) ltac:(lia)) as (d & r & -> & Hd).
    rewrite append_cons. unfold takeSign.
    apply isDigit_bounds in Hd.
    replace (code d =? 45) with false by lia. replace (code d =? 43) with false by lia.
    reflexivity.
Qed.

Lemma signed_abs m : (if m <? 0 then - Z.abs m else Z.abs m) = m.
Proof. destruct (m <? 0) eqn:E; lia. Qed.

Lemma takeFraction_terminated rest :
  terminated rest = true -> takeFraction rest = Some (EmptyString, rest).
Proof.
  destruct rest as [|c r]; [reflexivity|]. unfold terminated, takeFraction. intros H.
  replace (code c =? 46) with false by lia. reflexivity.
Qed.

Lemma takeExponent_terminated rest :
  terminated rest = true -> takeExponent rest = Some (0, rest).
Proof.
  destruct rest as [|c r]; [reflexivity|]. unfold terminated, takeExponent. intros H.
  replace (code c =? 101) with false by lia. replace (code c =? 69) with false by lia.
  reflexivity.
Qed.

Lemma takeExponent_integer e rest :
  stops rest = true ->
  takeExponent (String "e" (integer e +:+ rest)) = Some (e, rest).
Proof.
  intros Hr. cbn [takeExponent]. change (code "e" =? 101) with true. cbn [orb].
  rewrite takeSign_integer.
  destruct (natural_spec (Z.abs e) ltac:(lia)) as (Hall & Hne & Hval & _).
  rewrite (spanDigits_stops _ _ Hall Hr), Hne, Hval, signed_abs. reflexivity.
Qed.

Lemma parseNumber_number m e rest :
  terminated rest = true ->
  parseNumber (number m e +:+ rest) = POk (JNum m e) false rest.
Proof.
  intros Hr. unfold number, parseNumber.
  destruct (natural_spec (Z.abs m) ltac:(lia)) as (Hall & Hne & Hval & Hz).
  destruct (e =? 0) eqn:E.
  - rewrite takeMinus_integer.
    rewrite (spanDigits_stops _ _ Hall (terminated_stops _ Hr)), Hne, Hz. cbn [orb].
    rewrite (takeFraction_terminated _ Hr), (takeExponent_terminated _ Hr).
    rewrite append_nil_r, Hval, signed_abs.
    apply Z.eqb_eq in E. subst e. reflexivity.
  - rewrite append_assoc, append_cons, takeMinus_integer.
    rewrite (spanDigits_stops _ _ Hall) by reflexivity. rewrite Hne, Hz. cbn [orb].
    cbn [takeFraction]. change (code "e" =? 46) with false. cbv iota.
    rewrite (takeExponent_integer _ _ (terminated_stops _ Hr)).
    rewrite append_nil_r, Hval, signed_abs.
    change (len "") with 0. rewrite Z.sub_0_r. reflexivity.
Qed.

(** *** String literals *)

Lemma parseChars_escapeChar c tail :
  parseChars (escapeChar c +:+ tail) = pmap (String c) (parseChars tail).
Proof. destruct c as [[] [] [] [] [] [] [] []]; reflexivity. Qed.

Lemma parseChars_escape s rest :
  parseChars (escape s +:+ String quoteChar rest) = POk s false rest.
Proof.
  induction s as [|c s IH]; [reflexivity|].
  cbn [escape]. rewrite append_assoc, parseChars_escapeChar, IH. reflexivity.
Qed.

Lemma quote_append s rest :
  quote s +:+ rest = String quoteChar (escape s +:+ String quoteChar rest).
Proof. unfold quote. rewrite append_cons, append_assoc. reflexivity. Qed.

(** *** The first character of a value *)

Lemma headed_append P a b : headed P a = true -> headed P (a +:+ b) = true.
Proof. destruct a; [discriminate|]. intros H. exact H. Qed.

Lemma number_head m e : headed (fun c => (code c =? 45) || isDigit c) (number m e) = true.
Proof.
  assert (H : headed (fun c => (code c =? 45) || isDigit c) (integer m) = true).
  { rewrite integer_split. destruct (m <? 0); [reflexivity|].
    destruct (natural_head (Z.abs m) ltac:(lia)) as (d & r & -> & Hd).
    cbn. rewrite Hd. apply orb_true_r. }
  unfold number. destruct (e =? 0); [exact H|]. apply headed_append, H.
Qed.

Lemma stringifyAt_head ind j : headed valueHead (stringifyAt ind j) = true.
Proof.
  destruct j as [|[]|m e|s|items|members]; try reflexivity.
  - pose proof (number_head m e) as H. cbn [stringifyAt].
    destruct (number m e) as [|c r]; [discriminate|]. cbn in *. unfold valueHead.
    apply orb_prop in H as [H|H]; rewrite H; repeat rewrite ?orb_true_r, ?orb_true_l; reflexivity.
  - cbn [stringifyAt]. destruct items; reflexivity.
  - cbn [stringifyAt]. destruct members; reflexivity.
Qed.

Lemma skipWs_spaces n s : skipWs (spaces n +:+ s) = skipWs s.
Proof. induction n as [|n IH]; [reflexivity|]. cbn [spaces]. rewrite append_cons. exact IH. Qed.

Lemma skipWs_newline n s : skipWs (newline +:+ spaces n +:+ s) = skipWs s.
Proof. unfold newline. rewrite append_cons, append_nil_l. cbn [skipWs].
  change (isWs (chr 10)) with true. cbv iota. apply skipWs_spaces. Qed.

Lemma skipWs_headed P s :
  (forall c, P c = true -> isWs c = false) -> headed P s = true -> skipWs s = s.
Proof.
  intros HP. destruct s as [|c s]; [discriminate|]. cbn. intros H. rewrite (HP c H).
  reflexivity.
Qed.

Lemma valueHead_not_ws c : valueHead c = true -> isWs c = false.
Proof. unfold valueHead, isWs, isDigit, inRange. lia. Qed.

Lemma headed_inv P s : headed P s = true -> exists c r, s = String c r /\ P c = true.
Proof. destruct s as [|c r]; [discriminate|]. intros H. eauto. Qed.

(** *** Values *)

Lemma join_cons sep p q l : join sep (p :: q :: l) = p +:+ sep +:+ join sep (q :: l).
Proof. reflexivity. Qed.

Lemma elementTexts_head inner x xs :
  headed valueHead (join (separator inner) (elementTexts inner (x :: xs))) = true.
Proof.
  destruct xs; [apply stringifyAt_head|].
  unfold elementTexts. cbn [List.map]. rewrite join_cons. apply headed_append, stringifyAt_head.
Qed.

Lemma memberTexts_head inner kv ms :
  headed (fun c => code c =? 34) (join (separator inner) (memberTexts inner (kv :: ms))) = true.
Proof. destruct ms; reflexivity. Qed.

Lemma terminated_newline s : terminated (newline +:+ s) = true.
Proof. reflexivity. Qed.

Lemma terminated_separator inner s : terminated (separator inner +:+ s) = true.
Proof. reflexivity. Qed.

Lemma skipWs_closing n closing rest :
  isWs closing = false ->
  skipWs (newline +:+ spaces n +:+ String closing rest) = String closing rest.
Proof. intros H. rewrite skipWs_newline. cbn [skipWs]. rewrite H. reflexivity. Qed.

Lemma skipWs_separator inner s :
  headed (fun c => negb (isWs c)) s = true ->
  skipWs (separator inner +:+ s) = String "," (newline +:+ spaces inner +:+ s) /\
  skipWs (newline +:+ spaces inner +:+ s) = s.
Proof.
  intros H. split.
  - unfold separator. rewrite !append_assoc. reflexivity.
  - rewrite skipWs_newline. apply (skipWs_headed (fun c => negb (isWs c))); [|exact H].
    intros c Hc. destruct (isWs c); [discriminate|reflexivity].
Qed.

Lemma headed_weaken (P Q : ascii -> bool) s :
  (forall c, P c = true -> Q c = true) -> headed P s = true -> headed Q s = true.
Proof. intros HPQ. destruct s; [discriminate|]. apply HPQ. Qed.

Lemma parseValue_number fuel m e rest :
  terminated rest = true ->
  parseValue (S fuel) (number m e +:+ rest) = POk (JNum m e) false rest.
Proof.
  intros Hr. rewrite <- (parseNumber_number m e rest Hr).
  destruct (headed_inv _ _ (number_head m e)) as (c & r & E & Hc). rewrite E, append_cons.
  cbn [parseValue]. unfold isDigit, inRange in Hc.
  replace (code c =? 110) with false by lia. replace (code c =? 116) with false by lia.
  replace (code c =? 102) with false by lia. replace (code c =? 34) with false by lia.
  replace (code c =? 91) with false by lia. replace (code c =? 123) with false by lia.
  reflexivity.
Qed.

Lemma parseValue_string fuel s rest :
  parseValue (S fuel) (quote s +:+ rest) = POk (JStr s) false rest.
Proof.
  rewrite quote_append.
  change (parseValue (S fuel) (String quoteChar ?t)) with (pmap JStr (parseChars t)).
  rewrite parseChars_escape. reflexivity.
Qed.

(** With fuel for its size, a value is read back from its text, the
    elements of an array from the text after its first line break and
    the members of an object likewise. *)
Lemma parse_stringifyAt fuel :
  (forall j ind rest,
     (size j <= fuel)%nat -> terminated rest = true ->
     parseValue fuel (stringifyAt ind j +:+ rest) = POk j false rest) /\
  (forall x xs inner ind rest,
     (weight id (x :: xs) <= fuel)%nat ->
     parseElements fuel
       (join (separator inner) (elementTexts inner (x :: xs))
        +:+ newline +:+ spaces ind +:+ String "]" rest)
     = POk (x :: xs) false rest) /\
  (forall kv ms inner ind rest,
     (weight snd (kv :: ms) <= fuel)%nat ->
     parseMembers fuel
       (join (separator inner) (memberTexts inner (kv :: ms))
        +:+ newline +:+ spaces ind +:+ String "}" rest)
     = POk (kv :: ms) false rest).
Proof.
  induction fuel as [|fuel (IHV & IHE & IHM)].
  { split; [|split].
    - intros j ? ? H. destruct j; cbn in H; lia.
    - intros ? ? ? ? ? H. cbn in H. lia.
    - intros ? ? ? ? ? H. cbn in H. lia. }
  split; [|split].
  - intros j ind rest Hs Hr.
    destruct j as [|[]|m e|s|items|members]; try reflexivity.
    + apply parseValue_number, Hr.
    + apply parseValue_string.
    + destruct items as [|x xs]; [reflexivity|].
      cbn [stringifyAt List.map bracket]. rewrite !append_assoc.
      change (List.map (stringifyAt (S (S ind))) xs) with (elementTexts (S (S ind)) xs).
      change (stringifyAt (S (S ind)) x :: elementTexts (S (S ind)) xs)
        with (elementTexts (S (S ind)) (x :: xs)).
      change ("," +:+ newline +:+ spaces (S (S ind))) with (separator (S (S ind))).
      set (body := join _ _ +:+ _).
      assert (Hb : headed valueHead body = true) by apply headed_append, elementTexts_head.
      change (parseValue (S fuel) ("[" +:+ ?t))
        with (match skipWs t with
              | EmptyString => PErr
              | String c' rest' =>
                  if code c' =? 93 then POk (JArr []) false rest'
                  else pmap JArr (parseElements fuel (String c' rest'))
              end).
      rewrite skipWs_newline, (skipWs_headed _ _ valueHead_not_ws Hb).
      destruct (headed_inv _ _ Hb) as (c & r & E & Hc). rewrite E.
      replace (code c =? 93) with false by (unfold valueHead, isDigit, inRange in Hc; lia).
      rewrite <- E. subst body. change ("]" +:+ rest) with (String "]" rest).
      rewrite IHE; [reflexivity|]. cbn in Hs. unfold weight. cbn. lia.
    + destruct members as [|kv ms]; [reflexivity|].
      cbn [stringifyAt List.map bracket]. rewrite !append_assoc.
      change (List.map (fun kv0 => quote (fst kv0) +:+ ": " +:+ stringifyAt (S (S ind)) (snd kv0)) ms)
        with (memberTexts (S (S ind)) ms).
      change ((quote (fst kv) +:+ ": " +:+ stringifyAt (S (S ind)) (snd kv)) :: memberTexts (S (S ind)) ms)
        with (memberTexts (S (S ind)) (kv :: ms)).
      change ("," +:+ newline +:+ spaces (S (S ind))) with (separator (S (S ind))).
      set (body := join _ _ +:+ _).
      assert (Hb : headed (fun c => code c =? 34) body = true)
        by apply headed_append, memberTexts_head.
      change (parseValue (S fuel) ("{" +:+ ?t))
        with (match skipWs t with
              | EmptyString => PErr
              | String c' rest' =>
                  if code c' =? 125 then POk (JObj []) false rest'
                  else pmap JObj (parseMembers fuel (String c' rest'))
              end).
      rewrite skipWs_newline.
      rewrite (skipWs_headed (fun c => code c =? 34) body)
        by (exact Hb || (intros c Hc; unfold isWs; lia)).
      destruct (headed_inv _ _ Hb) as (c & r & E & Hc). rewrite E.
      replace (code c =? 125) with false by lia.
      rewrite <- E. subst body. change ("}" +:+ rest) with (String "}" rest).
      rewrite IHM; [reflexivity|]. cbn in Hs. unfold weight. cbn. lia.
  - intros x xs inner ind rest Hw. cbn [parseElements].
    assert (Hx : (size x <= fuel)%nat) by (unfold weight in Hw; cbn in Hw; lia).
    destruct xs as [|y ys].
    + cbn [elementTexts List.map join].
      rewrite (IHV x inner _ Hx (terminated_newline _)).
      rewrite skipWs_closing by reflexivity. reflexivity.
    + unfold elementTexts. cbn [List.map]. rewrite join_cons, !append_assoc.
      fold (elementTexts inner ys).
      change (stringifyAt inner y :: elementTexts inner ys) with (elementTexts inner (y :: ys)).
      rewrite (IHV x inner _ Hx (terminated_separator _ _)).
      set (body := join _ _ +:+ _).
      assert (Hb : headed valueHead body = true) by apply headed_append, elementTexts_head.
      destruct (skipWs_separator inner body) as [-> E].
      { revert Hb. apply headed_weaken. intros c Hc. rewrite (valueHead_not_ws c Hc). reflexivity. }
      change (code "," =? 44) with true. cbv iota. rewrite E. subst body.
      rewrite IHE; [reflexivity|]. unfold weight in *. cbn in *. lia.
  - intros [k x] ms inner ind rest Hw.
    assert (Hx : (size x <= fuel)%nat) by (unfold weight in Hw; cbn in Hw; lia).
    assert (Hkey : forall tail,
      parseMembers (S fuel) (quote k +:+ ": " +:+ stringifyAt inner x +:+ tail)
      = match parseValue fuel (stringifyAt inner x +:+ tail) with
        | PErr => PErr
        | POk v fl rest0 =>
            match skipWs rest0 with
            | EmptyString => PErr
            | String c rest' =>
                if code c =? 44
                then pflag (false || fl)
                       (pmap (cons (k, v)) (parseMembers fuel (skipWs rest')))
                else if code c =? 125 then POk [(k, v)] (false || fl) rest'
                else PErr
            end
        end).
    { intros tail. rewrite quote_append. cbn [parseMembers].
      change (code quoteChar =? 34) with true. cbn [negb]. cbv iota.
      rewrite parseChars_escape.
      change (skipWs (": " +:+ ?t)) with (String ":" (String " " t)). cbv iota.
      change (code ":" =? 58) with true. cbn [negb]. cbv iota.
      change (skipWs (String " " ?t)) with (skipWs t).
      rewrite (skipWs_headed _ _ valueHead_not_ws)
        by apply headed_append, stringifyAt_head.
      reflexivity. }
    destruct ms as [|kv' ms'].
    + cbn [memberTexts List.map join fst snd]. rewrite !append_assoc, Hkey.
      rewrite (IHV x inner _ Hx (terminated_newline _)).
      rewrite skipWs_closing by reflexivity. reflexivity.
    + unfold memberTexts. cbn [List.map fst snd]. rewrite join_cons, !append_assoc, Hkey.
      fold (memberTexts inner ms').
      change ((quote (fst kv') +:+ ": " +:+ stringifyAt inner (snd kv')) :: memberTexts inner ms')
        with (memberTexts inner (kv' :: ms')).
      rewrite (IHV x inner _ Hx (terminated_separator _ _)).
      set (body := join _ _ +:+ _).
      assert (Hb : headed (fun c => code c =? 34) body = true)
        by apply headed_append, memberTexts_head.
      destruct (skipWs_separator inner body) as [-> E].
      { revert Hb. apply headed_weaken. intros c Hc. unfold isWs.
        apply negb_true_iff. lia. }
      change (code "," =? 44) with true. cbv iota. rewrite E. subst body.
      rewrite IHM; [reflexivity|]. unfold weight in *. cbn in *. lia.
Qed.

(** Induction on a value, with the property in hand for the items of
    an array and for the values of an object. *)
Lemma json_induction (P : json -> Prop) :
  P JNull -> (forall b, P (JBool b)) -> (forall m e, P (JNum m e)) -> (forall s, P (JStr s)) ->
  (forall items, Forall P items -> P (JArr items)) ->
  (forall members, Forall (fun kv => P (snd kv)) members -> P (JObj members)) ->
  forall j, P j.
Proof.
  intros HNull HBool HNum HStr HArr HObj.
  fix IH 1. intros [|b|m e|s|items|members].
  - exact HNull.
  - apply HBool.
  - apply HNum.
  - apply HStr.
  - apply HArr. induction items as [|x items IHitems]; constructor; [apply IH|exact IHitems].
  - apply HObj. induction members as [|[k x] members IHmembers]; constructor;
      [apply IH|exact IHmembers].
Qed.

Lemma weight_cons {A} (f : A -> json) a l :
  weight f (a :: l) = (S (size (f a)) + weight f l)%nat.
Proof. reflexivity. Qed.

Lemma join_weight {A} (f : A -> json) (g : A -> string) sep l :
  (1 <= String.length sep)%nat ->
  Forall (fun a => (size (f a) <= String.length (g a))%nat) l ->
  (weight f l <= String.length (join sep (List.map g l)) + 1)%nat.
Proof.
  intros Hsep. induction 1 as [|a l Ha Hl IH]; [cbn; lia|].
  rewrite weight_cons. destruct l as [|b l].
  - cbn. lia.
  - cbn [List.map] in *. rewrite join_cons, !length_append. lia.
Qed.

Lemma headed_length P s : headed P s = true -> (1 <= String.length s)%nat.
Proof. destruct s; [discriminate|]. cbn. lia. Qed.

Lemma bracket_length opening closing indent p parts :
  String.length (bracket opening closing indent (p :: parts))
  = (String.length opening + (1 + (S (S indent)
     + (String.length (join ("," +:+ newline +:+ spaces (S (S indent))) (p :: parts))
     + (1 + (indent + String.length closing))))))%nat.
Proof.
  assert (Hsp : forall n, String.length (spaces n) = n)
    by (induction n as [|n IHn]; [reflexivity|cbn; rewrite IHn; reflexivity]).
  cbn [bracket]. rewrite !length_append, !Hsp. reflexivity.
Qed.

Lemma separator_length s : (1 <= String.length ("," +:+ s))%nat.
Proof. rewrite length_append. cbn. lia. Qed.

Lemma size_le_length j : forall ind, (size j <= String.length (stringifyAt ind j))%nat.
Proof.
  induction j as [|b|m e|s|items IH|members IH] using json_induction; intros ind.
  - cbn. lia.
  - destruct b; cbn; lia.
  - apply (headed_length _ _ (number_head m e)).
  - cbn. lia.
  - destruct items as [|x xs]; [apply (headed_length _ _ (stringifyAt_head ind (JArr [])))|].
    cbn [stringifyAt size]. set (l := x :: xs) in *.
    assert (H := join_weight id (stringifyAt (S (S ind))) ("," +:+ newline +:+ spaces (S (S ind)))
                   l (separator_length _)).
    subst l. cbn [List.map] in *. rewrite bracket_length.
    cbn [String.length].
    assert (Hall : Forall (fun a => (size a <= String.length (stringifyAt (S (S ind)) a))%nat)
                     (x :: xs)).
    { eapply Forall_impl; [exact IH|]. intros a Ha. apply Ha. }
    specialize (H Hall). unfold weight, id in H. cbn [List.map] in H. lia.
  - destruct members as [|kv ms]; [apply (headed_length _ _ (stringifyAt_head ind (JObj [])))|].
    cbn [stringifyAt size]. set (l := kv :: ms) in *.
    assert (H := join_weight snd
                   (fun kv0 => quote (fst kv0) +:+ ": " +:+ stringifyAt (S (S ind)) (snd kv0))
                   ("," +:+ newline +:+ spaces (S (S ind))) l (separator_length _)).
    subst l. cbn [List.map] in *. rewrite bracket_length.
    cbn [String.length].
    assert (Hall : Forall (fun a : string * json =>
                     (size (snd a) <= String.length
                        (quote (fst a) +:+ ": " +:+ stringifyAt (S (S ind)) (snd a)))%nat)
                     (kv :: ms)).
    { eapply Forall_impl; [exact IH|]. intros a Ha. cbn beta in Ha.
      rewrite !length_append. specialize (Ha (S (S ind))). lia. }
    specialize (H Hall). unfold weight, id in H. cbn [List.map] in H. lia.
Qed.

(** What is written is read back, member for member. *)
Lemma parse_stringify j : parse (stringify j) = Parsed (normalise j).
Proof.
  unfold parse, stringify.
  rewrite (skipWs_headed _ _ valueHead_not_ws (stringifyAt_head 0 j)).
  rewrite <- (append_nil_r (stringifyAt 0 j)) at 2.
  destruct (parse_stringifyAt (2 * String.length (stringifyAt 0 j) + 2)) as [HV _].
  rewrite HV; [reflexivity| |reflexivity].
  pose proof (size_le_length j 0). lia.
Qed.

(** *** Objects without a repeated key *)

Lemma obj_set_fresh key value members :
  hasKey key members = false -> obj_set key value members = members ++ [(key, value)].
Proof.
  induction members as [|[k v] rest IH]; [reflexivity|].
  cbn. intros [Hk Hrest]%orb_false_elim. rewrite Hk, (IH Hrest). reflexivity.
Qed.

Lemma hasKey_app key a b : hasKey key (a ++ b) = hasKey key a || hasKey key b.
Proof. apply existsb_app. Qed.

Lemma hasKey_false key members :
  hasKey key members = false -> forall kv, In kv members -> fst kv <> key.
Proof.
  induction members as [|[k v] rest IH]; [intros _ ? []|].
  cbn. intros [Hk Hrest]%orb_false_elim kv [<-|Hin].
  - apply String.eqb_neq, Hk.
  - apply IH; assumption.
Qed.

Lemma normalise_members members acc :
  distinctKeys members = true ->
  (forall kv, In kv members -> hasKey (fst kv) acc = false) ->
  Forall (fun kv => normalise (snd kv) = snd kv) members ->
  fold_left (fun acc kv => obj_set (fst kv) (normalise (snd kv)) acc) members acc
  = acc ++ members.
Proof.
  revert acc. induction members as [|[k v] rest IH]; intros acc Hd Hacc Hfix.
  - cbn. rewrite app_nil_r. reflexivity.
  - cbn in Hd. apply andb_prop in Hd as [Hk Hd]. apply negb_true_iff in Hk.
    inversion Hfix as [|? ? Hv Hrest]; subst. cbn in Hv. cbn [fold_left fst snd].
    rewrite Hv, obj_set_fresh by (apply (Hacc (k, v)); left; reflexivity).
    rewrite (IH _ Hd); [rewrite <- app_assoc; reflexivity| |exact Hrest].
    intros kv Hin. rewrite hasKey_app, (Hacc kv) by (right; exact Hin).
    cbn. rewrite orb_false_r. apply String.eqb_neq. intros ->.
    exact (hasKey_false _ _ Hk kv Hin eq_refl).
Qed.

Lemma normalise_wellFormed j : wellFormed j = true -> normalise j = j.
Proof.
  induction j as [|b|m e|s|items IH|members IH] using json_induction; try reflexivity.
  - cbn. intros Hwf. f_equal. induction IH as [|x xs Hx _ IHxs]; [reflexivity|].
    cbn in Hwf. apply andb_prop in Hwf as [Hwx Hwxs]. cbn. rewrite (Hx Hwx), (IHxs Hwxs).
    reflexivity.
  - cbn. intros [Hd Hwf]%andb_prop. f_equal.
    rewrite normalise_members; [reflexivity|exact Hd|reflexivity|].
    induction IH as [|kv ms Hkv _ IHms]; [constructor|].
    cbn in Hd, Hwf. destruct kv as [k v].
    apply andb_prop in Hd as [_ Hd]. apply andb_prop in Hwf as [Hwv Hwf].
    constructor; [exact (Hkv Hwv)|exact (IHms Hd Hwf)].
Qed.

End JSONFacts.

(** ** The state file *)

Module StateFacts.
Import Utils JSON StateManager JSONText StateText UtilsFacts JSONFacts.

Lemma asInt_integer n : asInt (Some (JNum n 0)) = Some n.
Proof. cbn. f_equal. lia. Qed.

Lemma decode_encodeHistory h :
  mapM decodeHistoryEntry (List.map encodeHistoryEntry h) = Some h.
Proof.
  induction h as [|[f t ts] h IH]; [reflexivity|].
  cbn [List.map mapM]. rewrite IH.
  unfold decodeHistoryEntry, encodeHistoryEntry. cbn. rewrite Z.mul_1_r. reflexivity.
Qed.

Lemma decode_encodeSession s : decodeSession (encodeSession s) = Some s.
Proof.
  destruct s as [p fl stp d h c l]. unfold decodeSession, encodeSession. cbn.
  rewrite decode_encodeHistory. cbn. rewrite !Z.mul_1_r. reflexivity.
Qed.

Lemma decode_encodeStats s : decodeStats (encodeStats s) = Some s.
Proof.
  destruct s as [tm tu lr]. unfold decodeStats, encodeStats. cbn. rewrite !Z.mul_1_r.
  reflexivity.
Qed.

Lemma decode_encodeState st : decodeState (encodeState st) = Some st.
Proof.
  destruct st as [on bst ss sts]. unfold decodeState, encodeState. cbn.
  rewrite Z.mul_1_r. cbn.
  rewrite map_to_list_fmap.
  rewrite (mapM_fmap_Some decodeMember (prod_map id encodeSession)).
  - cbn. rewrite list_to_map_to_list. destruct sts as [tm tu lr]. cbn.
    rewrite !Z.mul_1_r. reflexivity.
  - intros [k s]. unfold decodeMember, prod_map. cbn [fst snd].
    rewrite decode_encodeSession. reflexivity.
Qed.

Lemma distinctKeys_NoDup (members : list (string * json)) :
  NoDup (members.*1) -> distinctKeys members = true.
Proof.
  induction members as [|[k v] rest IH]; [reflexivity|].
  cbn. intros [Hk Hrest]%NoDup_cons. rewrite (IH Hrest), andb_true_r.
  apply negb_true_iff. destruct (hasKey k rest) eqn:E; [|reflexivity].
  exfalso. apply Hk. unfold hasKey in E. apply existsb_exists in E as ([k' v'] & Hin & Heq).
  apply String.eqb_eq in Heq. cbn in Heq. subst k'.
  apply list_elem_of_fmap. exists (k, v'). split; [reflexivity|].
  apply list_elem_of_In, Hin.
Qed.

Lemma wellFormed_encodeHistory h :
  forallb wellFormed (List.map encodeHistoryEntry h) = true.
Proof. induction h as [|e h IH]; [reflexivity|]. cbn. exact IH. Qed.

Lemma wellFormed_encodeSession s :
  wellFormed (JObj (data s)) = true -> wellFormed (encodeSession s) = true.
Proof.
  intros H. unfold encodeSession. cbn [wellFormed forallb snd].
  change (wellFormed (JObj (data s))) with
    (distinctKeys (data s) && forallb (fun kv => wellFormed (snd kv)) (data s)) in H.
  rewrite H, wellFormed_encodeHistory. reflexivity.
Qed.

Lemma wellFormed_encodeState st :
  wellFormedState st = true -> wellFormed (encodeState st) = true.
Proof.
  intros H. unfold encodeState.
  assert (Hd : distinctKeys (map_to_list (encodeSession <$> sessions st)) = true)
    by apply distinctKeys_NoDup, NoDup_fst_map_to_list.
  assert (Hs : forallb (fun kv : string * json => wellFormed (snd kv))
                 (map_to_list (encodeSession <$> sessions st)) = true).
  { rewrite map_to_list_fmap. unfold wellFormedState in H.
    induction (map_to_list (sessions st)) as [|[k s] l IH]; [reflexivity|].
    cbn [forallb snd] in H. apply andb_prop in H as [Hs Hl].
    cbn [fmap list_fmap forallb prod_map snd].
    rewrite (IH Hl), andb_true_r. apply wellFormed_encodeSession, Hs. }
  set (l := map_to_list _) in *. cbn. rewrite Hd, Hs. reflexivity.
Qed.

Lemma loadState_saveState st now :
  wellFormedState st = true ->
  loadState (saveState st) now = Returned (Value (encodeState st)).
Proof.
  intros H. unfold loadState, tryLoad, saveState, serialize. cbn [existsSync readFileSync].
  unfold parseText. rewrite parse_stringify, (normalise_wellFormed _ (wellFormed_encodeState _ H)).
  reflexivity.
Qed.

(** C7. Whatever is found at the state path, [loadState] returns and
    does not throw.  When the file is missing, cannot be read or holds
    a text that is not JSON, it returns the default state: the bot
    switched on, no session, and zero messages and users counted.  It
    returns something else only when the file exists and holds a text
    that is JSON. *)
Theorem loadState_falls_back_to_defaults (file : FileState) (now : Z) :
  loadState file now <> Thrown /\
  ((file = Missing \/ file = Unreadable \/
    exists text, file = Content text /\ parse text = SyntaxError) ->
   loadState file now = Returned (Value (encodeState (defaultState now))) /\
   construct file now = Some (defaultState now)) /\
  (chatbot_is_on (defaultState now) = true /\
   sessions (defaultState now) = ∅ /\
   total_messages (stats (defaultState now)) = 0 /\
   total_users (stats (defaultState now)) = 0) /\
  (loadState file now <> Returned (Value (encodeState (defaultState now))) ->
   exists text, file = Content text /\ parse text <> SyntaxError).
Proof.
  split; [|split; [|split]].
  - unfold loadState. destruct (tryLoad file) as [[v|]|]; discriminate.
  - intros Hfile.
    assert (Hload : loadState file now = Returned (Value (encodeState (defaultState now)))).
    { destruct Hfile as [->|[->|(text & -> & Hparse)]]; [reflexivity|reflexivity|].
      unfold loadState, tryLoad, parseText. cbn [existsSync readFileSync].
      rewrite Hparse. reflexivity. }
    split; [exact Hload|]. unfold construct. rewrite Hload. apply decode_encodeState.
  - repeat split.
  - intros Hdiff. destruct file as [| |text].
    + exfalso. apply Hdiff. reflexivity.
    + exfalso. apply Hdiff. reflexivity.
    + exists text. split; [reflexivity|]. intros Hparse. apply Hdiff.
      unfold loadState, tryLoad, parseText. cbn [existsSync readFileSync].
      rewrite Hparse. reflexivity.
Qed.

Lemma loadState_falls_back_to_defaults_witness :
  loadState (Content "{ chatbot_is_on: ") 7
  = Returned (Value (encodeState (defaultState 7))) /\
  construct (Content "{ chatbot_is_on: ") 7 = Some (defaultState 7).
Proof.
  apply (proj1 (proj2 (loadState_falls_back_to_defaults (Content "{ chatbot_is_on: ") 7))).
  right. right. exists "{ chatbot_is_on: ". split; reflexivity.
Defined.

(** C8. For a state whose sessions hold data without a repeated key,
    constructing a manager over the file that [saveState] has written
    gives the same state back: the same switch, start time and
    counters, and the same session, field for field, at every
    address. *)
Theorem saved_state_is_loaded_back (st : GlobalState) (now : Z) :
  wellFormedState st = true ->
  parse (serialize st) = Parsed (encodeState st) /\
  construct (saveState st) now = Some st /\
  forall st', construct (saveState st) now = Some st' ->
    forall address, sessions st' !! address = sessions st !! address.
Proof.
  intros H.
  assert (Hc : construct (saveState st) now = Some st).
  { unfold construct. rewrite (loadState_saveState st now H). apply decode_encodeState. }
  split; [|split; [exact Hc|]].
  - unfold serialize.
    rewrite parse_stringify, (normalise_wellFormed _ (wellFormed_encodeState _ H)).
    reflexivity.
  - intros st' Hst'. rewrite Hc in Hst'. injection Hst' as <-. reflexivity.
Qed.

Lemma saved_state_is_loaded_back_witness :
  construct (saveState (Runtime.state (Flows.ctx Scenario.worldAtEmail))) 2000
  = Some (Runtime.state (Flows.ctx Scenario.worldAtEmail)).
Proof.
  apply (saved_state_is_loaded_back (Runtime.state (Flows.ctx Scenario.worldAtEmail)) 2000).
  vm_compute. reflexivity.
Defined.

End StateFacts.


Module CacheFacts.
Import Utils JSON Timers CacheSystem CacheInv.

Section Lifetime.

Variables (key : string) (v : json) (t0 T : Z).

Let entry : Entry := entryOf v t0 T.
Let own : Z * string := ownTimer key t0 T.
Let alive : Z * t -> Prop := CacheInv.alive key v t0 T.

Lemma timersOf_remove_other (c : t) i due k :
  pending c !! i = Some (due, k) -> k <> key ->
  filter (fun p : Z * string => p.2 = key) (take i (pending c) ++ drop (S i) (pending c))
  = timersOf key c.
Proof.
  intros Hi Hk. unfold timersOf.
  rewrite <- (take_drop_middle (pending c) i (due, k) Hi) at 3.
  rewrite !filter_app, filter_cons_False; [reflexivity|]. simpl. congruence.
Qed.

Lemma timersOf_remove_own (c : t) i due :
  pending c !! i = Some (due, key) -> timersOf key c = [own] ->
  due = t0 + timeoutDelay T /\
  filter (fun p : Z * string => p.2 = key) (take i (pending c) ++ drop (S i) (pending c)) = [].
Proof.
  intros Hi Hown. unfold timersOf in Hown.
  rewrite <- (take_drop_middle (pending c) i (due, key) Hi) in Hown.
  rewrite !filter_app, filter_cons_True in Hown by reflexivity.
  destruct (filter _ (take i (pending c))) as [|x xs] eqn:E1.
  - simpl in Hown. injection Hown as Hd Hrest.
    split; [congruence|]. rewrite filter_app, E1, Hrest. reflexivity.
  - simpl in Hown. injection Hown as _ Hnil.
    destruct xs; discriminate Hnil.
Qed.

Lemma alive_set (c0 : t) :
  (forall due, (due, key) ∉ pending c0) ->
  alive (t0, set t0 key v T c0).
Proof.
  intros Hfresh. unfold alive, CacheInv.alive, timersOf, set; simpl.
  assert (Hnil : filter (fun p : Z * string => p.2 = key) (pending c0) = []).
  { induction (pending c0) as [|[d k] l IH]; [reflexivity|].
    rewrite filter_cons_False.
    - apply IH. intros due Hin. apply (Hfresh due). right. exact Hin.
    - simpl. intros ->. apply (Hfresh d). left. }
  rewrite filter_app, Hnil, filter_cons_True by reflexivity. simpl.
  split; [lia|]. split; [left; reflexivity|].
  split; [left; apply lookup_insert_eq|]. discriminate.
Qed.

Lemma alive_get (now : Z) (k : string) (c : t) :
  alive (now, c) -> alive (now, (get now k c).2).
Proof.
  unfold get. destruct (cache c !! k) as [e|] eqn:Hk; [|exact id].
  destruct (now >? expirationTime e) eqn:Hexp; [|exact id].
  intros (Ht & Htm & Hc & Hnone). unfold alive, CacheInv.alive, timersOf, delete in *; simpl.
  split; [exact Ht|]. split; [exact Htm|].
  destruct (decide (k = key)) as [->|Hne].
  - rewrite lookup_delete_eq. split; [|reflexivity].
    right. split; [reflexivity|].
    destruct Hc as [Hc|[Hc _]]; [|congruence].
    rewrite Hk in Hc. injection Hc as ->. simpl in Hexp. right. lia.
  - rewrite lookup_delete_ne by exact Hne. split; assumption.
Qed.

Lemma alive_step (op : Op) (nc nc' : Z * t) :
  leaves key op = true -> step op nc = Some nc' -> alive nc -> alive nc'.
Proof.
  destruct nc as [now c]. destruct op; cbn [leaves step]; intros Hq Hstep.
  - (* the clock advances *)
    destruct (0 <=? dt) eqn:Hdt; [|discriminate]. injection Hstep as <-.
    intros (Ht & Htm & Hc & Hnone). unfold alive, CacheInv.alive. repeat split.
    + lia.
    + destruct Htm as [?|[? ?]]; [left; assumption|right; split; [assumption|lia]].
    + destruct Hc as [?|[? [?|?]]]; [left; assumption|right..]; (split; [assumption|]).
      * left; assumption.
      * right; lia.
    + exact Hnone.
  - (* a timer fires *)
    unfold fire in Hstep.
    destruct (pending c !! i) as [[due k]|] eqn:Hi; [|discriminate].
    destruct (due <=? now) eqn:Hdue; [|discriminate]. simpl in Hstep.
    injection Hstep as <-.
    intros (Ht & Htm & Hc & Hnone). unfold alive, CacheInv.alive, timersOf in *; simpl.
    destruct (decide (k = key)) as [->|Hne].
    + destruct Htm as [Hown|[Hnil _]].
      * destruct (timersOf_remove_own c i due Hi Hown) as [-> ->].
        rewrite lookup_delete_eq.
        split; [exact Ht|]. split; [right; split; [reflexivity|lia]|].
        split; [right; split; [reflexivity|left; reflexivity]|reflexivity].
      * exfalso. assert (Hin : (due, key) ∈ filter (fun p : Z * string => p.2 = key) (pending c)).
        { apply list_elem_of_filter. split; [reflexivity|].
          eapply list_elem_of_lookup_2; eassumption. }
        rewrite Hnil in Hin. inversion Hin.
    + rewrite (timersOf_remove_other c i due k Hi Hne).
      rewrite lookup_delete_ne by exact Hne. unfold timersOf. tauto.
  - (* the cleanup *)
    injection Hstep as <-.
    intros (Ht & Htm & Hc & Hnone). unfold alive, CacheInv.alive, timersOf, performCleanup in *; simpl.
    split; [exact Ht|]. split; [exact Htm|].
    destruct Hc as [Hc|[Hc Hwhy]].
    + destruct (decide (now > t0 + T)) as [Hexp|Hexp].
      * assert (Hgone : filter (fun kv : string * Entry => ~ now > expirationTime kv.2)
                          (cache c) !! key = None).
        { apply map_lookup_filter_None. right. intros e He. rewrite Hc in He.
          injection He as <-. simpl. intros Habs. apply Habs. exact Hexp. }
        split; [right; split; [exact Hgone|right; exact Hexp]|intros _; exact Hgone].
      * assert (Hkept : filter (fun kv : string * Entry => ~ now > expirationTime kv.2)
                          (cache c) !! key = Some entry).
        { apply map_lookup_filter_Some. split; [exact Hc|]. simpl. exact Hexp. }
        split; [left; exact Hkept|]. intros Hnil. specialize (Hnone Hnil). congruence.
    + assert (Hgone : filter (fun kv : string * Entry => ~ now > expirationTime kv.2)
                        (cache c) !! key = None).
      { apply map_lookup_filter_None. left. exact Hc. }
      split; [right; split; [exact Hgone|exact Hwhy]|intros _; exact Hgone].
  - injection Hstep as <-. apply alive_get.
  - injection Hstep as <-. unfold has.
    pose proof (alive_get now key0 c) as H.
    destruct (get now key0 c) as [x c']. exact H.
  - injection Hstep as <-. unfold isMessageProcessed, has.
    pose proof (alive_get now (generateMessageKey from messageId) c) as H.
    destruct (get now (generateMessageKey from messageId) c) as [x c']. exact H.
  - (* another key is inserted *)
    injection Hstep as <-.
    apply negb_true_iff, String.eqb_neq in Hq.
    intros (Ht & Htm & Hc & Hnone). unfold alive, CacheInv.alive, timersOf, set in *; simpl.
    rewrite filter_app, filter_cons_False, filter_nil, app_nil_r by (simpl; congruence).
    rewrite lookup_insert_ne by exact Hq. tauto.
  - injection Hstep as <-.
    apply negb_true_iff, String.eqb_neq in Hq.
    intros (Ht & Htm & Hc & Hnone).
    unfold alive, CacheInv.alive, timersOf, markMessageProcessed, set in *; simpl.
    rewrite filter_app, filter_cons_False, filter_nil, app_nil_r by (simpl; congruence).
    rewrite lookup_insert_ne by exact Hq. tauto.
  - injection Hstep as <-.
    apply negb_true_iff, String.eqb_neq in Hq.
    intros (Ht & Htm & Hc & Hnone). unfold alive, CacheInv.alive, timersOf, delete in *; simpl.
    rewrite lookup_delete_ne by exact Hq. tauto.
  - discriminate Hq.
Qed.

Lemma alive_run (ops : list Op) (nc nc' : Z * t) :
  forallb (leaves key) ops = true -> run ops nc = Some nc' -> alive nc -> alive nc'.
Proof.
  revert nc. induction ops as [|op ops IH]; simpl; intros nc Hq Hrun Hal.
  - injection Hrun as <-. exact Hal.
  - apply andb_prop in Hq as [Hq1 Hq2].
    destruct (step op nc) as [nc1|] eqn:Hstep; [|discriminate]. simpl in Hrun.
    eapply IH; [exact Hq2|exact Hrun|]. eapply alive_step; eassumption.
Qed.

Lemma alive_has (now : Z) (c : t) :
  isNull v = false ->
  alive (now, c) ->
  t0 <= now /\
  (now > t0 + T -> (has now key c).1 = false) /\
  (now <= t0 + T -> now < t0 + timeoutDelay T -> (has now key c).1 = true) /\
  (now <= t0 + T -> ((has now key c).1 = true <-> own ∈ pending c)).
Proof.
  intros Hv (Ht & Htm & Hc & Hnone).
  assert (Hhas_some : cache c !! key = Some entry -> now <= t0 + T -> (has now key c).1 = true).
  { intros He Hle. unfold has, get. rewrite He. simpl.
    destruct (now >? t0 + T) eqn:E; [lia|]. simpl. rewrite Hv. reflexivity. }
  assert (Hhas_none : cache c !! key = None -> (has now key c).1 = false).
  { intros He. unfold has, get. rewrite He. reflexivity. }
  split; [exact Ht|]. split; [|split].
  - intros Hgt. destruct Hc as [He|[He _]]; [|exact (Hhas_none He)].
    unfold has, get. rewrite He. simpl.
    destruct (now >? t0 + T) eqn:E; [reflexivity|lia].
  - intros Hle Hlt. destruct Hc as [He|[He [Hnil|Hgt]]]; [exact (Hhas_some He Hle)| |lia].
    destruct Htm as [Hown|[_ Hdue]]; [|lia]. rewrite Hnil in Hown. discriminate Hown.
  - intros Hle. split.
    + intros Htrue. destruct Htm as [Hown|[Hnil _]].
      * assert (Hin : own ∈ timersOf key c) by (rewrite Hown; left).
        apply list_elem_of_filter in Hin. tauto.
      * rewrite (Hhas_none (Hnone Hnil)) in Htrue. discriminate Htrue.
    + intros Hin.
      assert (Hin' : own ∈ timersOf key c) by (apply list_elem_of_filter; split; [reflexivity|exact Hin]).
      destruct Hc as [He|[He [Hnil|Hgt]]]; [exact (Hhas_some He Hle)| |lia].
      rewrite Hnil in Hin'. inversion Hin'.
Qed.

End Lifetime.

Lemma noTimerFor_spec key c :
  noTimerFor key c = true -> forall due, (due, key) ∉ pending c.
Proof.
  unfold noTimerFor. intros H due Hin.
  rewrite forallb_forall in H. apply list_elem_of_In in Hin.
  specialize (H _ Hin). simpl in H.
  apply negb_true_iff, String.eqb_neq in H. congruence.
Qed.

Lemma timeoutDelay_id ms : 1 <= ms <= 2147483647 -> timeoutDelay ms = ms.
Proof.
  intros H. unfold timeoutDelay.
  destruct (ms <? 1) eqn:E1; [lia|]. destruct (2147483647 <? ms) eqn:E2; [lia|]. reflexivity.
Qed.

Lemma performCleanup_lookup now c key e :
  cache (performCleanup now c) !! key = Some e <->
  cache c !! key = Some e /\ ~ now > expirationTime e.
Proof. unfold performCleanup; simpl. apply map_lookup_filter_Some. Qed.

(** C2, as amended.  The default time-to-live is 60 seconds and the
    sweep removes exactly the entries past their expiration time.
    After [markMessageProcessed(sender, eventId, T)] at [t0], when no
    removal timer of an earlier insertion of the key is pending, and as
    long as the key is not inserted again, [delete] is not called on it
    and the cache is not cleared: a query at [now > t0 + T] answers
    false, and a query at [now <= t0 + T] answers true exactly while
    the removal timer of the entry is pending.  The timer cannot fire
    before it is due, which is at [t0 + T] when [1 <= T <= 2147483647]
    and 1 ms after the mark otherwise: so the answer is true at every
    [now < t0 + T] for such a [T]. *)
Theorem cache_entry_expiry :
  defaultTTL = 60000 /\
  (forall now c key e,
      cache (performCleanup now c) !! key = Some e <->
      cache c !! key = Some e /\ ~ now > expirationTime e) /\
  forall (c0 : t) (t0 T : Z) (from messageId : string) (ops : list Op) (now : Z) (c : t),
    noTimerFor (generateMessageKey from messageId) c0 = true ->
    forallb (leaves (generateMessageKey from messageId)) ops = true ->
    run ops (t0, markMessageProcessed t0 from messageId T c0) = Some (now, c) ->
    t0 <= now /\
    (now > t0 + T -> (isMessageProcessed now from messageId c).1 = false) /\
    (now <= t0 + T ->
     ((isMessageProcessed now from messageId c).1 = true <->
      (t0 + timeoutDelay T, generateMessageKey from messageId) ∈ pending c)) /\
    (now <= t0 + T -> now < t0 + timeoutDelay T ->
     (isMessageProcessed now from messageId c).1 = true) /\
    (1 <= T <= 2147483647 -> now < t0 + T ->
     (isMessageProcessed now from messageId c).1 = true).
Proof.
  split; [reflexivity|]. split; [exact performCleanup_lookup|].
  intros c0 t0 T from messageId ops now c Hfresh Hquiet Hrun.
  pose proof (alive_set (generateMessageKey from messageId) (JBool true) t0 T c0
                (noTimerFor_spec _ _ Hfresh)) as H0.
  pose proof (alive_run _ (JBool true) t0 T ops _ _ Hquiet Hrun H0) as H1.
  destruct (alive_has _ (JBool true) t0 T now c eq_refl H1) as (Ht & Hgt & Hlt & Hiff).
  unfold isMessageProcessed.
  split; [exact Ht|]. split; [exact Hgt|]. split; [exact Hiff|]. split; [exact Hlt|].
  intros HT Hnow. apply Hlt; [lia|]. rewrite (timeoutDelay_id T HT). exact Hnow.
Qed.

(** A run for [cache_entry_expiry]: one second after the mark, with a
    sweep and a query of another key in between, the event is known. *)
Lemma cache_entry_expiry_witness :
  exists c,
    run [Tick 1000; Cleanup; CallHas "msg_other"]
        (0, markMessageProcessed 0 "5519999990000@c.us" "m1" defaultTTL empty)
    = Some (1000, c) /\
    (isMessageProcessed 1000 "5519999990000@c.us" "m1" c).1 = true.
Proof.
  eexists. split; [vm_compute; reflexivity|].
  refine (proj2 (proj2 (proj2 (proj2 (proj2 (proj2 cache_entry_expiry)
            empty 0 defaultTTL "5519999990000@c.us" "m1"
            [Tick 1000; Cleanup; CallHas "msg_other"] 1000 _ _ _ _)))) _ _).
  - reflexivity.
  - reflexivity.
  - vm_compute. reflexivity.
  - unfold defaultTTL. lia.
  - unfold defaultTTL. lia.
Defined.

(** The last millisecond of the window: the removal timer is due at
    [t0 + T]; once it has fired, which calls [delete], the event is
    unknown at [t0 + T]. *)
Example removal_timer_at_its_due_time :
  exists c,
    run [Tick 60000; Fire 0]
        (0, markMessageProcessed 0 "5519999990000@c.us" "m1" 60000 empty)
    = Some (60000, c) /\
    pending c = [] /\
    (isMessageProcessed 60000 "5519999990000@c.us" "m1" c).1 = false.
Proof. eexists. vm_compute. repeat split. Qed.

(** C2 as it is worded fails in two places.  At the last instant of the
    window the removal timer of the entry is due, and once it has fired
    the event is unknown at [t0 + T].  And a lifetime above 2147483647
    ms is beyond what a timer can wait: the timer is due 1 ms after the
    mark, and the event is unknown from then on, long before
    [t0 + T]. *)
Lemma the_mark_can_go_before_its_time :
  (exists c,
      run [Tick 60000; Fire 0]
          (0, markMessageProcessed 0 "5519999990000@c.us" "m1" 60000 empty)
      = Some (60000, c) /\
      (isMessageProcessed 60000 "5519999990000@c.us" "m1" c).1 = false) /\
  (exists c,
      run [Tick 1; Fire 0]
          (0, markMessageProcessed 0 "5519999990000@c.us" "m1" 3000000000 empty)
      = Some (1, c) /\
      (isMessageProcessed 1 "5519999990000@c.us" "m1" c).1 = false) /\
  ~ ExpiryClaim.answers_by_the_clock.
Proof.
  split; [eexists; vm_compute; split; reflexivity|].
  split; [eexists; vm_compute; split; reflexivity|].
  intros H.
  assert (Hrun : exists c,
             run [Tick 60000; Fire 0]
                 (0, markMessageProcessed 0 "5519999990000@c.us" "m1" 60000 empty)
             = Some (60000, c) /\
             (isMessageProcessed 60000 "5519999990000@c.us" "m1" c).1 = false)
    by (eexists; vm_compute; split; reflexivity).
  destruct Hrun as (c & Hrun & Hfalse).
  destruct (H empty 0 60000 "5519999990000@c.us" "m1" [Tick 60000; Fire 0] 60000 c
              eq_refl eq_refl Hrun) as [Htrue _].
  rewrite Htrue in Hfalse by lia. discriminate Hfalse.
Qed.

End CacheFacts.

Module RouterFacts.
Import Utils JSON Timers StateManager Runtime MenuService WhatsAppService Flows.
Import CacheSystem CacheInv FlowInv RouterInv NormalForm CacheFacts UtilsFacts.

Lemma has_true_unchanged t key c : (has t key c).1 = true -> (has t key c).2 = c.
Proof.
  unfold has, get. destruct (cache c !! key) as [e|]; [|discriminate].
  destruct (t >? expirationTime e); [discriminate|reflexivity].
Qed.

Lemma has_pending t key c : pending (has t key c).2 = pending c.
Proof.
  unfold has, get. destruct (cache c !! key) as [e|]; [|reflexivity].
  destruct (t >? expirationTime e); reflexivity.
Qed.

(** A delivery that the cache knows changes nothing. *)
Lemma processMessage_seen message w :
  (isMessageProcessed (clock w) (msg_from message) (msg_id message) (cacheSystem w)).1 = true ->
  processMessage message w = (Ret false, w).
Proof.
  intros Hseen. unfold processMessage. simpl.
  pose proof (has_true_unchanged _ _ _ Hseen) as Hsame.
  unfold isMessageProcessed in *.
  destruct (has (clock w) (generateMessageKey (msg_from message) (msg_id message))
              (cacheSystem w)) as [seen c1].
  simpl in Hseen, Hsame. subst seen c1. destruct w; reflexivity.
Qed.

(** A delivery that the cache does not know leaves the cache with the
    mark of its key. *)
Lemma processMessage_fresh message w :
  (isMessageProcessed (clock w) (msg_from message) (msg_id message) (cacheSystem w)).1 = false ->
  clock (processMessage message w).2 = clock w /\
  cacheSystem (processMessage message w).2 =
    markMessageProcessed (clock w) (msg_from message) (msg_id message) defaultTTL
      (isMessageProcessed (clock w) (msg_from message) (msg_id message) (cacheSystem w)).2.
Proof.
  intros Hfresh. unfold processMessage. simpl.
  destruct (isMessageProcessed (clock w) (msg_from message) (msg_id message) (cacheSystem w))
    as [seen c1].
  simpl in Hfresh. subst seen.
  destruct (catch _ _ (clock w) (ctx w)) as [r c]. simpl. split; reflexivity.
Qed.

(** What an event does to the cache is a run of cache operations. *)
Lemma occur_cache key e w w' :
  spares key e = true -> occur e w = Some w' ->
  exists ops,
    forallb (leaves key) ops = true /\
    run ops (clock w, cacheSystem w) = Some (clock w', cacheSystem w').
Proof.
  destruct e; cbn [spares occur]; intros Hsp Hoc.
  - destruct (0 <=? dt) eqn:Hdt; [|discriminate]. injection Hoc as <-.
    exists [Tick dt]. split; [reflexivity|]. simpl. rewrite Hdt. reflexivity.
  - destruct (fire (clock w) i (cacheSystem w)) as [cs|] eqn:Hf; [|discriminate].
    simpl in Hoc. injection Hoc as <-.
    exists [Fire i]. split; [reflexivity|]. simpl. rewrite Hf. reflexivity.
  - destruct (fireTimer (clock w) i (ctx w)) as [c|]; [|discriminate].
    simpl in Hoc. injection Hoc as <-. exists []. split; reflexivity.
  - injection Hoc as <-. exists [Cleanup]. split; reflexivity.
  - injection Hoc as <-. exists []. split; reflexivity.
  - injection Hoc as <-.
    destruct (isMessageProcessed (clock w) (msg_from message) (msg_id message)
                (cacheSystem w)).1 eqn:Hseen.
    + rewrite (processMessage_seen _ _ Hseen). exists []. split; reflexivity.
    + destruct (processMessage_fresh _ _ Hseen) as [-> ->].
      exists [CallIsMessageProcessed (msg_from message) (msg_id message);
              CallMarkMessageProcessed (msg_from message) (msg_id message) defaultTTL].
      split; [cbn [forallb leaves]; rewrite Hsp; reflexivity|reflexivity].
  - injection Hoc as <-. exists []. split; reflexivity.
  - injection Hoc as <-. exists []. split; reflexivity.
  - discriminate Hsp.
Qed.

Lemma run_app ops1 ops2 nc nc1 nc2 :
  run ops1 nc = Some nc1 -> run ops2 nc1 = Some nc2 -> run (ops1 ++ ops2) nc = Some nc2.
Proof.
  revert nc. induction ops1 as [|op ops1 IH]; simpl; intros nc H1 H2.
  - injection H1 as ->. exact H2.
  - destruct (step op nc) as [nc'|]; [|discriminate]. simpl in *. eauto.
Qed.

Lemma occurAll_cache key es w w' :
  forallb (spares key) es = true -> occurAll es w = Some w' ->
  exists ops,
    forallb (leaves key) ops = true /\
    run ops (clock w, cacheSystem w) = Some (clock w', cacheSystem w').
Proof.
  revert w. induction es as [|e es IH]; simpl; intros w Hsp Hoc.
  - injection Hoc as <-. exists []. split; reflexivity.
  - apply andb_prop in Hsp as [Hsp1 Hsp2].
    destruct (occur e w) as [w1|] eqn:He; [|discriminate]. simpl in Hoc.
    destruct (occur_cache key e w w1 Hsp1 He) as (ops1 & Hq1 & Hr1).
    destruct (IH w1 Hsp2 Hoc) as (ops2 & Hq2 & Hr2).
    exists (ops1 ++ ops2). split.
    + rewrite forallb_app, Hq1, Hq2. reflexivity.
    + eapply run_app; eassumption.
Qed.




#[local] Arguments isMenuCommand : simpl never.
#[local] Arguments isGreeting : simpl never.
#[local] Arguments isFarewell : simpl never.
#[local] Arguments isRequestingHuman : simpl never.
#[local] Arguments normalizeText : simpl never.
#[local] Arguments formatPhone : simpl never.
#[local] Arguments flows : simpl never.
#[local] Arguments timeoutDelay : simpl never.
#[local] Arguments userInputOf : simpl never.
#[local] Arguments welcomeMenu : simpl never.
#[local] Arguments brokerNumber : simpl never.
#[local] Arguments removeFirst : simpl never.
#[local] Arguments StateManager.getUserSession : simpl never.
#[local] Arguments StateManager.updateUserSession : simpl never.

(** Unfolding of the plumbing of a flow: the monad, the setters of the
    context and the wrappers of the state manager, not the string
    tests. *)
Ltac flow_unfold :=
  cbv beta iota zeta delta
    [catch bind ret throw gets modify Runtime.now call setTimeout
     isServiceReady queueMessage markAsRead sendTyping sendTextWith sendText
     sendListMessageWith sendListMessage
     Runtime.getUserSession Runtime.updateUserSession Runtime.isBotActive
     Runtime.enableBot Runtime.saveState Runtime.disableBot
     Runtime.incrementMessageCount
     withState withDisk withTimers withWire withQueue withLeads];
  cbn [env state disk timers ready wire messageQueue leads fst snd negb andb orb].

Lemma processMessage_new message w :
  (isMessageProcessed (clock w) (msg_from message) (msg_id message) (cacheSystem w)).1 = false ->
  processMessage message w =
  let rc := catch (markAsRead (msg_id message) ;;; incrementMessageCount ;;;
                   route (extractMessageInfo message))%flow
                  (handleError (msg_from message)) (clock w) (ctx w) in
  (rc.1, {| clock := clock w; ctx := rc.2;
            cacheSystem :=
              markMessageProcessed (clock w) (msg_from message) (msg_id message) defaultTTL
                (isMessageProcessed (clock w) (msg_from message) (msg_id message)
                   (cacheSystem w)).2 |}).
Proof.
  intros Hnew. unfold processMessage. simpl.
  destruct (isMessageProcessed (clock w) (msg_from message) (msg_id message) (cacheSystem w))
    as [seen c1].
  simpl in Hnew. subst seen.
  destruct (catch _ _ (clock w) (ctx w)) as [r c]. reflexivity.
Qed.

(** C4. A new message whose body is not a menu command reaches a bot
    that is switched off: the call returns false, no session is created
    or changed, nothing is sent or queued (the client is only told that
    the message was seen), no timer is started, and the message counter
    is one higher, because the count comes before the test of the
    switch. *)
Theorem disabled_bot_counts_then_drops :
  forall (message : Message) (w : World),
    (isMessageProcessed (clock w) (msg_from message) (msg_id message) (cacheSystem w)).1
    = false ->
    chatbot_is_on (state (ctx w)) = false ->
    isMenuCommand (msg_body message) = false ->
    (processMessage message w).1 = Ret false /\
    sessions (state (ctx (processMessage message w).2)) = sessions (state (ctx w)) /\
    total_messages (stats (state (ctx (processMessage message w).2)))
    = total_messages (stats (state (ctx w))) + 1 /\
    total_users (stats (state (ctx (processMessage message w).2)))
    = total_users (stats (state (ctx w))) /\
    chatbot_is_on (state (ctx (processMessage message w).2)) = false /\
    wire (ctx (processMessage message w).2)
    = wire (ctx w) ++ (if ready (ctx w) then [SendSeen (msg_id message)] else []) /\
    outbound (wire (ctx (processMessage message w).2)) = outbound (wire (ctx w)) /\
    messageQueue (ctx (processMessage message w).2) = messageQueue (ctx w) /\
    timers (ctx (processMessage message w).2) = timers (ctx w) /\
    leads (ctx (processMessage message w).2) = leads (ctx w).
Proof.
  intros message w Hnew Hoff Hcmd.
  rewrite (processMessage_new _ _ Hnew). cbv zeta.
  unfold route, extractMessageInfo. cbn [info_from info_body info_id info_listResponse].
  flow_unfold. unfold StateManager.isBotActive, StateManager.incrementMessageCount.
  destruct (ready (ctx w)) eqn:Hr; cbn;
    [destruct (clientTakes (env (ctx w)) (length (wire (ctx w)))); cbn|];
    rewrite Hoff, Hcmd; cbn;
    unfold outbound; rewrite ?List.filter_app, ?app_nil_r; cbn; rewrite ?app_nil_r;
    repeat split; reflexivity.
Qed.

(** An instance: a question sent
    to the bot of [Scenario.world0] once it is switched off. *)
Lemma disabled_bot_counts_then_drops_witness :
  total_messages (stats (state (ctx
    (processMessage (Scenario.chat "m1" Scenario.maria "qual o valor do seguro?")
       (Scenario.withBot false Scenario.world0)).2))) = 1.
Proof.
  refine (proj1 (proj2 (proj2 (disabled_bot_counts_then_drops
            (Scenario.chat "m1" Scenario.maria "qual o valor do seguro?")
            (Scenario.withBot false Scenario.world0) _ _ _)))).
  - reflexivity.
  - reflexivity.
  - vm_compute. reflexivity.
Defined.

(** *** The session after an update *)

Lemma getUserSession_lookup t phone st :
  sessions (StateManager.getUserSession t phone st).2 !! phone
  = Some (StateManager.getUserSession t phone st).1.
Proof.
  unfold StateManager.getUserSession.
  destruct (sessions st !! phone); cbn; apply lookup_insert_eq.
Qed.

Lemma getUserSession_data t phone st s0 :
  sessions st !! phone = Some s0 ->
  data (StateManager.getUserSession t phone st).1 = data s0 /\
  currentFlow (StateManager.getUserSession t phone st).1 = currentFlow s0 /\
  currentStep (StateManager.getUserSession t phone st).1 = currentStep s0.
Proof.
  intros H. unfold StateManager.getUserSession. rewrite H. cbn. repeat split.
Qed.

(** After [updateUserSession(phone, updates)] the session of [phone]
    has the fields of [updates] and keeps the others. *)
Lemma updateUserSession_lookup t phone u st :
  exists s,
    sessions (StateManager.updateUserSession t phone u st) !! phone = Some s /\
    currentFlow s = default (currentFlow (StateManager.getUserSession t phone st).1)
                            (u_currentFlow u) /\
    currentStep s = default (currentStep (StateManager.getUserSession t phone st).1)
                            (u_currentStep u) /\
    data s = default (data (StateManager.getUserSession t phone st).1) (u_data u).
Proof.
  unfold StateManager.updateUserSession. destruct u as [uf us ud].
  destruct (StateManager.getUserSession t phone st) as [s0 st1]. cbn.
  eexists. split; [apply lookup_insert_eq|].
  destruct uf as [flow|]; cbn;
    [destruct (negb (isEmpty flow) && negb (flow =? currentFlow s0)%string)|];
    cbn; repeat split.
Qed.

Lemma updateUserSession_stats t phone u st :
  total_messages (stats (StateManager.updateUserSession t phone u st))
  = total_messages (stats st) /\
  chatbot_is_on (StateManager.updateUserSession t phone u st) = chatbot_is_on st.
Proof.
  unfold StateManager.updateUserSession, StateManager.getUserSession.
  destruct (sessions st !! phone); cbn; split; reflexivity.
Qed.

(** [sendWelcome] with a connected client: the session waits for the
    choice, and the welcome menu is the one message sent. *)
Lemma sendWelcome_ready from t c :
  ready c = true ->
  reliable (env c) ->
  (sendWelcome from t c).1 = Ret true /\
  state (sendWelcome from t c).2
  = StateManager.updateUserSession t from (flowStep "welcome_response" "aguardando_escolha")
      (state c) /\
  wire (sendWelcome from t c).2
  = wire c ++ [StartTyping (formatPhone (formatPhone from));
               SendListMessage (formatPhone from) welcomeMenu] /\
  ready (sendWelcome from t c).2 = true.
Proof.
  intros Hr Hc. unfold sendWelcome. flow_unfold. rewrite Hr.
  change (validateMenuConfig welcomeMenu) with true. cbn.
  repeat (progress (rewrite ?Hc; cbn)).
  rewrite <- app_assoc. repeat split.
Qed.

Lemma outbound_app l1 l2 : outbound (l1 ++ l2) = outbound l1 ++ outbound l2.
Proof. apply List.filter_app. Qed.

(** *** Sends neither touch the state nor throw *)

Lemma quiet_ret {A} (a : A) : quiet (ret a).
Proof. intros t c. reflexivity. Qed.

Lemma quiet_gets {A} (f : Ctx -> A) : quiet (gets f).
Proof. intros t c. reflexivity. Qed.

Lemma quiet_now : quiet Runtime.now.
Proof. intros t c. reflexivity. Qed.

Lemma quiet_bind {A B} (m : M A) (k : A -> M B) :
  quiet m -> (forall a, quiet (k a)) -> quiet (bind m k).
Proof.
  intros Hm Hk t c. unfold bind. specialize (Hm t c).
  destruct (m t c) as [[a|] c1]; cbn [snd] in *; [|exact Hm].
  rewrite (Hk a t c1). exact Hm.
Qed.

Lemma quiet_catch {A} (m handler : M A) :
  quiet m -> quiet handler -> quiet (catch m handler).
Proof.
  intros Hm Hh t c. unfold catch. specialize (Hm t c).
  destruct (m t c) as [[a|] c1]; cbn [snd] in *; [exact Hm|].
  rewrite (Hh t c1). exact Hm.
Qed.

Lemma quiet_setTimeout a ms : quiet (setTimeout a ms).
Proof. intros t c. reflexivity. Qed.

Lemma quiet_call op : quiet (call op).
Proof. intros t c. reflexivity. Qed.

Lemma quiet_queueMessage d : quiet (queueMessage d).
Proof. intros t c. reflexivity. Qed.

Create HintDb quiets.
#[export] Hint Resolve quiet_ret quiet_gets quiet_now quiet_setTimeout quiet_call
  quiet_queueMessage : quiets.

Ltac hush :=
  cbv zeta;
  repeat first
    [ solve [auto with quiets]
    | apply quiet_bind; [|intros ?]
    | apply quiet_catch
    | match goal with
      | |- quiet (if ?b then _ else _) => destruct b
      | |- quiet (match ?x with _ => _ end) => destruct x
      end ].

Lemma quiet_sendTyping to duration : quiet (sendTyping to duration).
Proof. unfold sendTyping, isServiceReady. hush. Qed.
#[export] Hint Resolve quiet_sendTyping : quiets.

Lemma quiet_sendTextWith to text w delay : quiet (sendTextWith to text w delay).
Proof. unfold sendTextWith, isServiceReady. hush. Qed.
#[export] Hint Resolve quiet_sendTextWith : quiets.

Lemma quiet_sendText to text : quiet (sendText to text).
Proof. unfold sendText. hush. Qed.
#[export] Hint Resolve quiet_sendText : quiets.

Lemma quiet_sendListMessage to m : quiet (sendListMessage to m).
Proof. unfold sendListMessage, sendListMessageWith, isServiceReady. hush. Qed.
#[export] Hint Resolve quiet_sendListMessage : quiets.

Lemma quiet_markAsRead id : quiet (markAsRead id).
Proof. unfold markAsRead, isServiceReady. hush. Qed.
#[export] Hint Resolve quiet_markAsRead : quiets.

Lemma catch_returns {A} (m handler : M A) t c :
  (forall c', exists a, (handler t c').1 = Ret a) -> exists a, (catch m handler t c).1 = Ret a.
Proof.
  intros Hh. unfold catch. destruct (m t c) as [[a|] c1]; [eexists; reflexivity|apply Hh].
Qed.

Lemma sendTextWith_returns to text w delay t c :
  exists b, (sendTextWith to text w delay t c).1 = Ret b.
Proof. apply catch_returns. intros c'. eexists. reflexivity. Qed.

Lemma sendListMessageWith_returns to m w delay t c :
  exists b, (sendListMessageWith to m w delay t c).1 = Ret b.
Proof.
  apply catch_returns. intros c'. apply catch_returns. intros c2. eexists. reflexivity.
Qed.

Lemma markAsRead_returns id t c : exists b, (markAsRead id t c).1 = Ret b.
Proof. apply catch_returns. intros c'. eexists. reflexivity. Qed.


(** What the router does with a new message that the bot accepts and
    whose normalized body is a menu command or a greeting: the global
    command is all that runs. *)
Lemma processMessage_intercepted message w :
  (isMessageProcessed (clock w) (msg_from message) (msg_id message) (cacheSystem w)).1
  = false ->
  ready (ctx w) = true ->
  reliable (env (ctx w)) ->
  chatbot_is_on (state (ctx w)) = true \/ isMenuCommand (msg_body message) = true ->
  isMenuCommand (normalizeText (msg_body message)) = true \/
  isGreeting (normalizeText (msg_body message)) = true ->
  (processMessage message w).1 = Ret true /\
  ctx (processMessage message w).2
  = ((markAsRead (msg_id message) ;;; incrementMessageCount ;;;
      handleGlobalCommands (msg_from message) (msg_body message))%flow
       (clock w) (ctx w)).2 /\
  welcomed (msg_from message) (clock w)
    (fun st =>
       if isMenuCommand (normalizeText (msg_body message))
       then StateManager.updateUserSession (clock w) (msg_from message)
              (flowStepData "welcome" "inicio" []) (StateManager.enableBot st)
       else StateManager.updateUserSession (clock w) (msg_from message)
              (flowStep "welcome" "inicio") st)
    (ctx w) (ctx (processMessage message w).2).
Proof.
  intros Hnew Hr Hc Hon Hkind.
  rewrite (processMessage_new _ _ Hnew). cbv zeta.
  unfold route, extractMessageInfo, welcomed.
  cbn [info_from info_body info_id info_listResponse fst snd ctx].
  unfold handleGlobalCommands.
  assert (Hgate : negb (chatbot_is_on (state (ctx w)))
                  && negb (isMenuCommand (msg_body message)) = false).
  { destruct Hon as [-> | ->]; [reflexivity|apply andb_false_r]. }
  destruct (isMenuCommand (normalizeText (msg_body message))) eqn:Hmenu.
  - unfold sendWelcome. flow_unfold.
    unfold StateManager.isBotActive, StateManager.incrementMessageCount.
    change (validateMenuConfig welcomeMenu) with true.
    repeat (progress (rewrite ?Hr, ?Hgate, ?Hc; cbn)).
    unfold outbound. rewrite <- !app_assoc, !List.filter_app. cbn.
    repeat split.
  - destruct Hkind as [Habs|Hgreet]; [discriminate Habs|].
    unfold sendWelcome. flow_unfold.
    unfold StateManager.isBotActive, StateManager.incrementMessageCount.
    change (validateMenuConfig welcomeMenu) with true.
    repeat (progress (rewrite ?Hr, ?Hgate, ?Hgreet, ?Hc; cbn)).
    unfold outbound. rewrite <- !app_assoc, !List.filter_app. cbn.
    repeat split.
Qed.

Lemma bind_gets {A B} (f : Ctx -> A) (k : A -> M B) t c : bind (gets f) k t c = k (f c) t c.
Proof. reflexivity. Qed.

(** Two continuations that agree where the first computation ends. *)
Lemma bind_ext_on {A B} (m : M A) (k1 k2 : A -> M B) t c :
  (forall a c1, m t c = (Ret a, c1) -> k1 a t c1 = k2 a t c1) ->
  bind m k1 t c = bind m k2 t c.
Proof.
  intros H. unfold bind. destruct (m t c) as [[a|] c1]; [apply H|]; reflexivity.
Qed.

(** The global command, given a menu command or a greeting, leaves
    the session of the sender waiting for the choice of the welcome
    menu, whether the welcome could be sent or not, and does not
    throw. *)
Lemma handleGlobalCommands_state from body t c :
  isMenuCommand (normalizeText body) = true \/ isGreeting (normalizeText body) = true ->
  (exists b, (handleGlobalCommands from body t c).1 = Ret b) /\
  state (handleGlobalCommands from body t c).2
  = StateManager.updateUserSession t from (flowStep "welcome_response" "aguardando_escolha")
      (restarted from body t (state c)).
Proof.
  intros Hkind. unfold handleGlobalCommands, restarted. cbv zeta.
  destruct (isMenuCommand (normalizeText body)) eqn:Hmenu.
  - unfold sendWelcome, Runtime.enableBot, Runtime.updateUserSession, bind, modify,
      Runtime.now. cbn [fst snd].
    match goal with
    | |- context [sendListMessage from welcomeMenu t ?c2] =>
        pose proof (quiet_sendListMessage from welcomeMenu t c2) as Hq;
        destruct (sendListMessageWith_returns from welcomeMenu true 1200 t c2) as [b Hb];
        change (sendListMessageWith from welcomeMenu true 1200) with
          (sendListMessage from welcomeMenu) in Hb;
        destruct (sendListMessage from welcomeMenu t c2) as [r c3]
    end.
    cbn [fst snd] in *. subst r. split; [eexists; reflexivity|]. rewrite Hq. reflexivity.
  - destruct Hkind as [Habs|Hgreet]; [discriminate Habs|]. rewrite Hgreet.
    unfold sendWelcome, Runtime.updateUserSession, bind, modify, Runtime.now. cbn [fst snd].
    match goal with
    | |- context [sendListMessage from welcomeMenu t ?c2] =>
        pose proof (quiet_sendListMessage from welcomeMenu t c2) as Hq;
        destruct (sendListMessageWith_returns from welcomeMenu true 1200 t c2) as [b Hb];
        change (sendListMessageWith from welcomeMenu true 1200) with
          (sendListMessage from welcomeMenu) in Hb;
        destruct (sendListMessage from welcomeMenu t c2) as [r c3]
    end.
    cbn [fst snd] in *. subst r. split; [eexists; reflexivity|]. rewrite Hq. reflexivity.
Qed.

(** Whatever the client does, a bot that is on hands a menu command or
    a greeting to the global command first; the flow the session was in
    is not dispatched. *)
Lemma route_intercepted info t c :
  chatbot_is_on (state c) = true ->
  isMenuCommand (normalizeText (info_body info)) = true \/
  isGreeting (normalizeText (info_body info)) = true ->
  route info t c = interceptedRoute info t c.
Proof.
  intros Hon Hkind. unfold route, interceptedRoute. cbv zeta.
  unfold Runtime.isBotActive. rewrite bind_gets. unfold StateManager.isBotActive.
  rewrite Hon. cbn [negb andb].
  destruct (handleGlobalCommands_state (info_from info) (info_body info) t c Hkind)
    as [_ Hstate].
  apply bind_ext_on. intros handled c1 E. rewrite E in Hstate. cbn [snd] in Hstate.
  destruct handled; [reflexivity|].
  apply bind_ext_on. intros session c2 E2.
  destruct (updateUserSession_lookup t (info_from info)
              (flowStep "welcome_response" "aguardando_escolha")
              (restarted (info_from info) (info_body info) t (state c)))
    as (s' & Hs' & Hflow' & _).
  rewrite <- Hstate in Hs'.
  destruct (getUserSession_data t (info_from info) (state c1) s' Hs') as (_ & Hflow & _).
  unfold Runtime.getUserSession in E2.
  destruct (StateManager.getUserSession t (info_from info) (state c1)) as [s st].
  injection E2 as <- _.
  cbn [fst] in Hflow. rewrite Hflow' in Hflow. cbn [flowStep u_currentFlow default] in Hflow.
  rewrite Hflow. reflexivity.
Qed.



(** *** The back keyword in the quote intake *)

(** The step that collects the e-mail, given the back keyword, returns
    to the step that collects the name and leaves the data alone. *)
Lemma handleColetaEmail_back from input session t c :
  asksBack input (normalizeText input) = true ->
  ready c = true ->
  reliable (env c) ->
  (handleColetaEmail from input session t c).1 = Ret true /\
  state (handleColetaEmail from input session t c).2
  = StateManager.updateUserSession t from (stepOnly "coleta_nome") (state c) /\
  outbound (wire (handleColetaEmail from input session t c).2)
  = outbound (wire c) ++ [SendText (formatPhone from) TxtAskNome].
Proof.
  intros Hback Hr Hc. unfold handleColetaEmail. rewrite Hback.
  unfold solicitarNome. flow_unfold.
  repeat (progress (rewrite ?Hr, ?Hc; cbn)).
  unfold outbound. rewrite <- !app_assoc, !List.filter_app. cbn. repeat split.
Qed.

(** The router, given a menu command, resets the session of the sender
    to the welcome flow with empty data, whatever flow it was in. *)
Lemma menu_command_resets_session message w :
  (isMessageProcessed (clock w) (msg_from message) (msg_id message) (cacheSystem w)).1
  = false ->
  ready (ctx w) = true ->
  reliable (env (ctx w)) ->
  isMenuCommand (msg_body message) = true ->
  isMenuCommand (normalizeText (msg_body message)) = true ->
  (processMessage message w).1 = Ret true /\
  exists s,
    sessions (state (ctx (processMessage message w).2)) !! msg_from message = Some s /\
    currentFlow s = "welcome_response" /\
    currentStep s = "aguardando_escolha" /\
    data s = [].
Proof.
  intros Hnew Hr Hc Hcmd Hcmd'.
  destruct (processMessage_intercepted message w Hnew Hr Hc (or_intror Hcmd) (or_introl Hcmd'))
    as (Hret & _ & Hstate & _).
  split; [exact Hret|]. rewrite Hstate, Hcmd'.
  destruct (updateUserSession_lookup (clock w) (msg_from message)
              (flowStep "welcome_response" "aguardando_escolha")
              (StateManager.updateUserSession (clock w) (msg_from message)
                 (flowStepData "welcome" "inicio" [])
                 (StateManager.enableBot
                    (StateManager.incrementMessageCount (state (ctx w))))))
    as (s & Hs & Hflow & Hstep & Hdata).
  exists s. split; [exact Hs|]. split; [exact Hflow|]. split; [exact Hstep|].
  rewrite Hdata. cbn [u_data flowStep default].
  destruct (updateUserSession_lookup (clock w) (msg_from message)
              (flowStepData "welcome" "inicio" [])
              (StateManager.enableBot
                 (StateManager.incrementMessageCount (state (ctx w)))))
    as (s1 & Hs1 & _ & _ & Hdata1).
  destruct (getUserSession_data (clock w) (msg_from message) _ s1 Hs1) as (-> & _ & _).
  exact Hdata1.
Qed.

(** C6, on the code.  Maria is at the step that collects the e-mail,
    her name collected, and sends "voltar".  The step handler, given
    that input, would return her to the step that collects the name
    with her name kept.  The router never hands it the input: "voltar"
    is a menu command, and the global command puts her session in the
    welcome flow with empty data. *)
Theorem back_keyword_is_taken_as_menu_command :
  (let c := (handleColetaEmail Scenario.maria "voltar" Scenario.mariaAtEmail 1000
               (ctx Scenario.worldAtEmail)).2 in
   exists s,
     sessions (state c) !! Scenario.maria = Some s /\
     currentFlow s = "cotacao" /\ currentStep s = "coleta_nome" /\
     data s = [("cotacao", JObj [("nome", JStr "Maria Silva")])]) /\
  (let w := (processMessage (Scenario.chat "m9" Scenario.maria "voltar")
               Scenario.worldAtEmail).2 in
   exists s,
     sessions (state (ctx w)) !! Scenario.maria = Some s /\
     currentFlow s = "welcome_response" /\ currentStep s = "aguardando_escolha" /\
     data s = []).
Proof.
  split; cbv zeta; eexists; (split; [vm_compute; reflexivity|]); repeat split.
Qed.

(** *** Hand-off and the switch *)


(** C10. [enableBot] leaves the pending timers alone; [disableBot]
    keeps them and adds its own; a re-enable timer that fires switches
    the bot on whatever has happened since it was started.  So when the
    bot is disabled for [m1] minutes and, before they have passed, for
    [m2 > m1] minutes, the timer of the first call is still pending, it
    is due before the end of the second window, and when it fires then
    the bot is on again. *)
Theorem earlier_reenable_timer_cuts_the_window :
  (forall t c, timers (enableBot t c).2 = timers c) /\
  (forall minutes t c,
      timers (disableBot minutes t c).2
      = timers c ++ [{| due := t + timeoutDelay (minutes * 60 * 1000);
                        action := ReenableBot |}]) /\
  (forall t i c tm c',
      timers c !! i = Some tm -> action tm = ReenableBot ->
      fireTimer t i c = Some c' -> chatbot_is_on (state c') = true) /\
  (forall (c : Ctx) (t1 t2 m1 m2 : Z),
      1 <= m1 -> m1 < m2 -> m2 * 60000 <= 2147483647 ->
      t1 <= t2 < t1 + m1 * 60000 ->
      let c2 := (disableBot m2 t2 (disableBot m1 t1 c).2).2 in
      let c2' := (disableBot m2 t2 (enableBot t2 (disableBot m1 t1 c).2).2).2 in
      chatbot_is_on (state c2) = false /\
      timers c2' = timers c2 /\
      timers c2 !! length (timers c)
      = Some {| due := t1 + m1 * 60000; action := ReenableBot |} /\
      t1 + m1 * 60000 < t2 + m2 * 60000 /\
      exists c3,
        fireTimer (t1 + m1 * 60000) (length (timers c)) c2 = Some c3 /\
        chatbot_is_on (state c3) = true).
Proof.
  split; [reflexivity|]. split; [reflexivity|]. split.
  - intros t i c tm c' Hi Ha Hf. unfold fireTimer in Hf. rewrite Hi in Hf.
    destruct (due tm <=? t); [|discriminate]. injection Hf as <-.
    rewrite Ha. reflexivity.
  - intros c t1 t2 m1 m2 H1 H12 Hmax Hwin. cbv zeta.
    assert (Hd1 : timeoutDelay (m1 * 60 * 1000) = m1 * 60000).
    { unfold timeoutDelay.
      destruct (m1 * 60 * 1000 <? 1) eqn:Ea; [lia|].
      destruct (2147483647 <? m1 * 60 * 1000) eqn:Eb; [lia|]. cbn. lia. }
    split; [reflexivity|]. split; [reflexivity|].
    assert (Hlook : timers (disableBot m2 t2 (disableBot m1 t1 c).2).2 !! length (timers c)
                    = Some {| due := t1 + m1 * 60000; action := ReenableBot |}).
    { cbn. rewrite Hd1. rewrite <- app_assoc.
      rewrite lookup_app_r by lia. rewrite Nat.sub_diag. reflexivity. }
    split; [exact Hlook|]. split; [lia|].
    unfold fireTimer. rewrite Hlook. cbn [due action].
    rewrite Z.leb_refl. eexists. split; reflexivity.
Qed.

(** An instance: the bot is
    disabled for ten minutes and, one minute later, for sixty. *)
Lemma earlier_reenable_timer_cuts_the_window_witness :
  exists c3,
    fireTimer 600000 0 (disableBot 60 60000 (disableBot 10 0 Scenario.ctx0).2).2 = Some c3 /\
    chatbot_is_on (state c3) = true.
Proof.
  refine (proj2 (proj2 (proj2 (proj2
            (proj2 (proj2 (proj2 earlier_reenable_timer_cuts_the_window))
               Scenario.ctx0 0 60000 10 60 _ _ _ _))))); lia.
Defined.

End RouterFacts.

(** ** core/utils.js: what its functions guarantee *)

Module UtilsProps.
Import Utils UtilsMore NormalForm JSONText UtilsFacts JSONFacts.

(** *** Telephone numbers *)

Lemma filterChars_append p a b :
  filterChars p (a +:+ b) = filterChars p a +:+ filterChars p b.
Proof.
  induction a as [|c a IH]; [reflexivity|].
  rewrite append_cons. cbn [filterChars]. rewrite IH. destruct (p c); reflexivity.
Qed.

Lemma allChars_filterChars p s : allChars p (filterChars p s) = true.
Proof.
  induction s as [|c s IH]; [reflexivity|]. cbn [filterChars].
  destruct (p c) eqn:E; [|exact IH]. cbn. rewrite E, IH. reflexivity.
Qed.

Lemma filterChars_twice p s : filterChars p (filterChars p s) = filterChars p s.
Proof. apply filterChars_id, allChars_filterChars. Qed.

Lemma len_append a b : len (a +:+ b) = len a + len b.
Proof. unfold len. rewrite length_append. lia. Qed.

Lemma isEmpty_append_r a b : isEmpty b = false -> isEmpty (a +:+ b) = false.
Proof. destruct a; [rewrite append_nil_l; exact id|reflexivity]. Qed.

Lemma startsWith_append s g t : startsWith s g = true -> startsWith (s +:+ t) g = true.
Proof.
  revert s. induction g as [|a g IH]; intros s H; [apply startsWith_empty|].
  destruct s as [|c s]; [discriminate H|].
  rewrite append_cons. cbn in *. apply andb_prop in H as [-> H]. exact (IH _ H).
Qed.

(** X1. Formatting a telephone number twice gives what formatting it
    once gives: the second pass finds a number that begins with the
    country code, or a text it leaves alone. *)
Theorem formatPhone_idempotent (phone : string) :
  formatPhone (formatPhone phone) = formatPhone phone.
Proof.
  destruct (isEmpty phone) eqn:He; [destruct phone; [reflexivity|discriminate He]|].
  unfold formatPhone at 2 3. rewrite He.
  set (numbers := filterChars isDigit phone).
  assert (Hn : filterChars isDigit numbers = numbers) by apply filterChars_twice.
  assert (Hsuffix : forall pre, filterChars isDigit pre = pre -> startsWith pre "55" = true ->
            negb (len (pre +:+ numbers) =? 11) = true ->
            negb (len (pre +:+ numbers) =? 10) = true ->
            formatPhone (pre +:+ numbers +:+ "@c.us") = pre +:+ numbers +:+ "@c.us").
  { intros pre Hpre H55 H11 H10. unfold formatPhone.
    rewrite isEmpty_append_r by (apply isEmpty_append_r; reflexivity).
    rewrite !filterChars_append, Hpre, Hn.
    change (filterChars isDigit "@c.us") with "". rewrite append_nil_r.
    apply negb_true_iff in H11, H10. rewrite H11, H10. cbn [andb].
    rewrite (startsWith_append _ _ _ H55), append_assoc. reflexivity. }
  destruct ((len numbers =? 11) && startsWith numbers "11") eqn:E1.
  - apply andb_prop in E1 as [E11 _]. apply Z.eqb_eq in E11.
    apply (Hsuffix "55"); [reflexivity|reflexivity| |];
      rewrite len_append; change (len "55") with 2; apply negb_true_iff; lia.
  - destruct (len numbers =? 10) eqn:E2.
    + apply Z.eqb_eq in E2.
      apply (Hsuffix "5511"); [reflexivity|reflexivity| |];
        rewrite len_append; change (len "5511") with 4; apply negb_true_iff; lia.
    + destruct (startsWith numbers "55") eqn:E3.
      * unfold formatPhone.
        rewrite isEmpty_append_r by reflexivity.
        rewrite filterChars_append, Hn.
        change (filterChars isDigit "@c.us") with "". rewrite append_nil_r.
        rewrite E1, E2, E3. reflexivity.
      * unfold formatPhone. fold numbers. rewrite He, E1, E2, E3. reflexivity.
Qed.

(** *** Normalized texts *)

Lemma normal_chars b s :
  normal b s = true -> allChars (fun c => cleanWord c || Ascii.eqb c " ") s = true.
Proof.
  revert b. induction s as [|c s IH]; intros b; [reflexivity|]. cbn.
  destruct (Ascii.eqb c " ").
  - intros [_ H]%andb_prop. rewrite orb_true_r. exact (IH _ H).
  - intros [-> H]%andb_prop. exact (IH _ H).
Qed.

Lemma normal_startsWith_spaces b s :
  normal b s = true -> startsWith s "  " = false.
Proof.
  destruct s as [|c [|d s]]; [reflexivity| |].
  - intros _. cbn. apply andb_false_r.
  - cbn [normal startsWith].
    destruct (Ascii.eqb " " c) eqn:Ec; [|reflexivity].
    destruct (Ascii.eqb " " d) eqn:Ed; [|reflexivity].
    rewrite Ascii.eqb_sym in Ec. rewrite Ascii.eqb_sym in Ed. rewrite Ec, Ed.
    cbn. rewrite andb_false_r. discriminate.
Qed.

Lemma normal_tail b c s : normal b (String c s) = true -> exists b', normal b' s = true.
Proof. cbn. destruct (Ascii.eqb c " "); intros [_ H]%andb_prop; eauto. Qed.

Lemma normal_no_double_space b s : normal b s = true -> includes s "  " = false.
Proof.
  revert b. induction s as [|c s IH]; intros b H; [reflexivity|].
  cbn [includes]. rewrite (normal_startsWith_spaces _ _ H).
  destruct (normal_tail _ _ _ H) as [b' H']. exact (IH _ H').
Qed.

(** X2. A normalized text holds lower-case letters of a to z, digits,
    underscores and spaces only, and no two spaces in a row. *)
Theorem normalizeText_alphabet (text : string) :
  allChars (fun c => inRange 97 122 c || isDigit c || (code c =? 95) || Ascii.eqb c " ")
    (normalizeText text) = true /\
  includes (normalizeText text) "  " = false.
Proof.
  pose proof (normalizeText_normal text) as H. split.
  - exact (normal_chars _ _ H).
  - exact (normal_no_double_space _ _ H).
Qed.

Lemma trim_trim s : trim (trim s) = trim s.
Proof.
  unfold trim.
  assert (Hend : forall u, trimEnd (trimEnd u) = trimEnd u).
  { induction u as [|c u IH]; [reflexivity|]. cbn [trimEnd].
    destruct (isSpace c && isEmpty (trimEnd u)) eqn:E; [reflexivity|].
    cbn [trimEnd]. rewrite IH, E. reflexivity. }
  assert (Hstart : forall u, isEmpty (trimEnd u) = false ->
             headed (fun c => negb (isSpace c)) u = true ->
             headed (fun c => negb (isSpace c)) (trimEnd u) = true).
  { intros [|c u]; [discriminate|]. cbn [trimEnd headed].
    intros Hne Hc. destruct (isSpace c) eqn:Ec; [discriminate Hc|]. cbn. rewrite Ec.
    reflexivity. }
  assert (Hts : forall u, trimStart u = "" \/ headed (fun c => negb (isSpace c)) (trimStart u) = true).
  { induction u as [|c u IH]; [left; reflexivity|]. cbn [trimStart].
    destruct (isSpace c) eqn:E; [exact IH|]. right. cbn. rewrite E. reflexivity. }
  assert (Hfix : forall u, headed (fun c => negb (isSpace c)) u = true -> trimStart u = u).
  { intros [|c u]; [discriminate|]. cbn. destruct (isSpace c); [discriminate|reflexivity]. }
  destruct (Hts s) as [->|Hh]; [reflexivity|].
  destruct (isEmpty (trimEnd (trimStart s))) eqn:E.
  - destruct (trimEnd (trimStart s)); [reflexivity|discriminate E].
  - rewrite (Hfix _ (Hstart _ E Hh)). apply Hend.
Qed.

(** X3. Normalizing is not idempotent: a mark of punctuation at the end
    becomes a space that only a second pass trims.  The second pass
    does nothing but trim, and a third changes nothing more. *)
Theorem normalizeText_settles_at_the_second_pass (text : string) :
  normalizeText (normalizeText text) = trim (normalizeText text) /\
  normalizeText (normalizeText (normalizeText text)) = normalizeText (normalizeText text) /\
  normalizeText "oi!" = "oi " /\ normalizeText (normalizeText "oi!") = "oi".
Proof.
  split; [apply normalizeText_twice|]. split; [|split; reflexivity].
  rewrite (normalizeText_twice (normalizeText text)), normalizeText_twice. apply trim_trim.
Qed.

(** *** The national id *)

Lemma isValidCPF_digits s : isValidCPF s = isValidCPF (filterChars isDigit s).
Proof.
  unfold isValidCPF. rewrite filterChars_twice.
  destruct (isEmpty s) eqn:Es; [destruct s; [reflexivity|discriminate Es]|].
  destruct (isEmpty (filterChars isDigit s)) eqn:En; [|reflexivity].
  destruct (filterChars isDigit s); [reflexivity|discriminate En].
Qed.

(** X4. The validator reads the digits of its input and nothing else:
    two inputs with the same digits, in the same order, get the same
    answer, whatever punctuation or spacing they carry. *)
Theorem isValidCPF_reads_digits_only (a b : string) :
  filterChars isDigit a = filterChars isDigit b -> isValidCPF a = isValidCPF b.
Proof. intros H. rewrite (isValidCPF_digits a), (isValidCPF_digits b), H. reflexivity. Qed.

Lemma isValidCPF_reads_digits_only_witness :
  isValidCPF "529 982 247/25" = isValidCPF "529.982.247-25".
Proof. apply isValidCPF_reads_digits_only. reflexivity. Defined.

Lemma maskCPF_eleven c0 c1 c2 c3 c4 c5 c6 c7 c8 c9 c10 :
  let numbers := String c0 (String c1 (String c2 (String c3 (String c4 (String c5
       (String c6 (String c7 (String c8 (String c9 (String c10 EmptyString)))))))))) in
  String.substring 0 3 numbers +:+ "." +:+ String.substring 3 3 numbers +:+ "."
  +:+ String.substring 6 3 numbers +:+ "-" +:+ String.substring 9 2 numbers
  = String c0 (String c1 (String c2 (String "." (String c3 (String c4 (String c5
      (String "." (String c6 (String c7 (String c8 (String "-" (String c9
         (String c10 EmptyString))))))))))))).
Proof. reflexivity. Qed.

Lemma len_eleven s : (len s =? 11) = true -> String.length s = 11%nat.
Proof. unfold len. lia. Qed.

Lemma maskCPF_digits s : filterChars isDigit (maskCPF s) = filterChars isDigit s.
Proof.
  unfold maskCPF. destruct (isEmpty s) eqn:Es; [destruct s; [reflexivity|discriminate Es]|].
  destruct (len (filterChars isDigit s) =? 11) eqn:E; [|reflexivity].
  pose proof (allChars_filterChars isDigit s) as Hd.
  destruct (string_length_11 _ (len_eleven _ E))
    as (c0 & c1 & c2 & c3 & c4 & c5 & c6 & c7 & c8 & c9 & c10 & Hn).
  rewrite Hn in *. rewrite maskCPF_eleven.
  cbn [allChars] in Hd.
  repeat (apply andb_prop in Hd as [?Hc Hd]).
  cbn [filterChars].
  change (isDigit ".") with false. change (isDigit "-") with false.
  rewrite Hc, Hc0, Hc1, Hc2, Hc3, Hc4, Hc5, Hc6, Hc7, Hc8, Hc9. reflexivity.
Qed.

(** X5. Masking an id keeps its digits, so it keeps the answer of the
    validator; an input with eleven digits comes out as fourteen
    characters, [XXX.XXX.XXX-XX]; and masking twice is masking once. *)
Theorem maskCPF_keeps_the_digits (cpf : string) :
  filterChars isDigit (maskCPF cpf) = filterChars isDigit cpf /\
  isValidCPF (maskCPF cpf) = isValidCPF cpf /\
  maskCPF (maskCPF cpf) = maskCPF cpf /\
  (len (filterChars isDigit cpf) = 11 ->
   len (maskCPF cpf) = 14 /\
   String.get 3 (maskCPF cpf) = Some "."%char /\
   String.get 7 (maskCPF cpf) = Some "."%char /\
   String.get 11 (maskCPF cpf) = Some "-"%char).
Proof.
  split; [apply maskCPF_digits|].
  split; [rewrite (isValidCPF_digits (maskCPF cpf)), maskCPF_digits; symmetry;
          apply isValidCPF_digits|].
  split.
  - unfold maskCPF at 1. rewrite maskCPF_digits.
    destruct (isEmpty (maskCPF cpf)) eqn:Em.
    + destruct (maskCPF cpf); [reflexivity|discriminate Em].
    + unfold maskCPF.
      destruct (isEmpty cpf) eqn:Es; [destruct cpf; [reflexivity|discriminate Es]|].
      destruct (len (filterChars isDigit cpf) =? 11); reflexivity.
  - intros H. unfold maskCPF.
    destruct (isEmpty cpf) eqn:Es; [destruct cpf; [discriminate H|discriminate Es]|].
    assert (E : (len (filterChars isDigit cpf) =? 11) = true) by lia. rewrite E.
    destruct (string_length_11 _ (len_eleven _ E))
      as (c0 & c1 & c2 & c3 & c4 & c5 & c6 & c7 & c8 & c9 & c10 & ->).
    rewrite maskCPF_eleven. repeat split.
Qed.

(** *** E-mail addresses *)

Lemma code_inj a b : code a = code b -> a = b.
Proof.
  unfold code. intros H%N2Z.inj.
  rewrite <- (ascii_N_embedding a), <- (ascii_N_embedding b), H. reflexivity.
Qed.

Lemma isDottedAtom_spec l s :
  isDottedAtom l s = true <->
  exists b c, s = b +:+ "." +:+ c /\ allChars (fun c : ascii => negb (isSpace c || (code c =? 64))) b = true /\
              (l = true \/ isEmpty b = false) /\ isEmailAtom c = true.
Proof.
  revert l. induction s as [|x s IH]; intros l.
  - split; [discriminate|]. intros (b & c & H & _). destruct b; discriminate H.
  - cbn [isDottedAtom]. destruct (isSpace x || (code x =? 64)) eqn:Ex.
    + split; [discriminate|]. intros (b & c & H & Hb & _). exfalso.
      destruct b as [|y b].
      * change ("" +:+ "." +:+ c) with (String "." c) in H. injection H as -> _. discriminate Ex.
      * rewrite append_cons in H. injection H as -> _. cbn in Hb.
        rewrite Ex in Hb. discriminate Hb.
    + split.
      * intros [H|H]%orb_prop.
        -- apply andb_prop in H as [[Hdot Hl]%andb_prop Hc].
           apply Z.eqb_eq in Hdot. apply (code_inj x ".") in Hdot. subst x.
           exists "", s. change ("" +:+ "." +:+ s) with (String "." s). repeat split; [left; exact Hl|exact Hc].
        -- apply IH in H as (b & c & -> & Hb & _ & Hc).
           exists (String x b), c. rewrite append_cons. split; [reflexivity|].
           split; [cbn; rewrite Ex, Hb; reflexivity|].
           split; [right; reflexivity|exact Hc].
      * intros (b & c & H & Hb & Hl & Hc). destruct b as [|y b].
        -- change ("" +:+ "." +:+ c) with (String "." c) in H. injection H as -> ->.
           destruct Hl as [->|Hl]; [|discriminate Hl]. rewrite Hc. reflexivity.
        -- rewrite append_cons in H. injection H as -> ->.
           cbn in Hb. apply andb_prop in Hb as [_ Hb].
           apply orb_true_intro. right. apply IH. exists b, c. repeat split; auto.
Qed.

Lemma isEmailFrom_spec l s :
  isEmailFrom l s = true <->
  exists a b c, s = a +:+ "@" +:+ b +:+ "." +:+ c /\ allChars (fun c : ascii => negb (isSpace c || (code c =? 64))) a = true /\
                (l = true \/ isEmpty a = false) /\
                isEmailAtom b = true /\ isEmailAtom c = true.
Proof.
  revert l. induction s as [|x s IH]; intros l.
  - split; [discriminate|]. intros (a & b & c & H & _). destruct a; discriminate H.
  - cbn [isEmailFrom]. destruct (isSpace x) eqn:Esp.
    + split; [discriminate|]. intros (a & b & c & H & Ha & _). exfalso.
      destruct a as [|y a].
      * change ("" +:+ "@" +:+ b +:+ "." +:+ c) with (String "@" (b +:+ "." +:+ c)) in H. injection H as -> _. discriminate Esp.
      * rewrite append_cons in H. injection H as -> _. cbn in Ha.
        rewrite Esp in Ha. discriminate Ha.
    + destruct (code x =? 64) eqn:Eat.
      * apply Z.eqb_eq in Eat. apply (code_inj x "@") in Eat. subst x. split.
        -- intros [Hl H]%andb_prop. apply isDottedAtom_spec in H as (b & c & -> & Hb & Hne & Hc).
           destruct Hne as [Hne|Hne]; [discriminate Hne|].
           exists "", b, c. change ("" +:+ "@" +:+ b +:+ "." +:+ c) with (String "@" (b +:+ "." +:+ c)). repeat split; [left; exact Hl| |exact Hc].
           unfold isEmailAtom. rewrite Hne. exact Hb.
        -- intros (a & b & c & H & Ha & Hl & Hb & Hc). destruct a as [|y a].
           ++ change ("" +:+ "@" +:+ b +:+ "." +:+ c) with (String "@" (b +:+ "." +:+ c)) in H. injection H as ->.
              destruct Hl as [->|Hl]; [|discriminate Hl]. cbn [andb].
              apply isDottedAtom_spec. unfold isEmailAtom in Hb.
              apply andb_prop in Hb as [Hne Hb]. apply negb_true_iff in Hne.
              exists b, c. repeat split; auto.
           ++ rewrite append_cons in H. injection H as <- _. discriminate Ha.
      * split.
        -- intros H. apply IH in H as (a & b & c & -> & Ha & _ & Hb & Hc).
           exists (String x a), b, c. rewrite append_cons. split; [reflexivity|].
           split; [cbn; rewrite Esp, Eat, Ha; reflexivity|].
           split; [right; reflexivity|]. split; assumption.
        -- intros (a & b & c & H & Ha & Hl & Hb & Hc). destruct a as [|y a].
           ++ change ("" +:+ "@" +:+ b +:+ "." +:+ c) with (String "@" (b +:+ "." +:+ c)) in H. injection H as -> _. discriminate Eat.
           ++ rewrite append_cons in H. injection H as -> ->.
              cbn in Ha. apply andb_prop in Ha as [_ Ha].
              apply IH. exists a, b, c. repeat split; auto.
Qed.

(** X6. An e-mail address is accepted exactly when it reads
    [local@domain.rest] with three parts that are not empty and hold
    neither a blank nor an at-sign; the domain and the rest may hold
    further dots. *)
Theorem isValidEmail_accepts_exactly (email : string) :
  isValidEmail email = true <->
  exists a b c,
    email = a +:+ "@" +:+ b +:+ "." +:+ c /\
    isEmailAtom a = true /\ isEmailAtom b = true /\ isEmailAtom c = true.
Proof.
  unfold isValidEmail. rewrite isEmailFrom_spec. split.
  - intros (a & b & c & -> & Ha & [Hl|Hne] & Hb & Hc); [discriminate Hl|].
    exists a, b, c. repeat split; auto. unfold isEmailAtom. rewrite Hne. exact Ha.
  - intros (a & b & c & -> & Ha & Hb & Hc). unfold isEmailAtom in Ha.
    apply andb_prop in Ha as [Hne Ha]. apply negb_true_iff in Hne.
    exists a, b, c. repeat split; auto.
Qed.

(** *** Long texts *)

Lemma length_substring_prefix n s :
  (n <= String.length s)%nat -> String.length (String.substring 0 n s) = n.
Proof.
  revert s. induction n as [|n IH]; intros s H.
  - destruct s; reflexivity.
  - destruct s as [|c s]; [cbn in H; lia|]. cbn in *. rewrite IH by lia. reflexivity.
Qed.

Lemma startsWith_substring n s : startsWith s (String.substring 0 n s) = true.
Proof.
  revert s. induction n as [|n IH]; intros s.
  - destruct s; reflexivity.
  - destruct s as [|c s]; [reflexivity|]. cbn. rewrite Ascii.eqb_refl. apply IH.
Qed.

(** X7. With a limit of three or more, a truncated text is never longer
    than the limit: a text within the limit comes back as it is, a
    longer one keeps its first [maxLength - 3] characters and ends in
    three dots.  With a limit below three the three dots alone are
    already longer than the limit. *)
Theorem truncateTextTo_respects_the_limit (text : string) (maxLength : Z) :
  (len text <= maxLength -> truncateTextTo text maxLength = text) /\
  (3 <= maxLength -> len (truncateTextTo text maxLength) <= maxLength) /\
  (3 <= maxLength < len text ->
   exists kept, truncateTextTo text maxLength = kept +:+ "..." /\
                startsWith text kept = true /\ len kept = maxLength - 3) /\
  (0 <= maxLength < 3 -> maxLength < len text -> truncateTextTo text maxLength = "...") /\
  truncateText text = truncateTextTo text 100.
Proof.
  unfold truncateTextTo, truncateText.
  assert (Hlong : 3 <= maxLength < len text ->
            (isEmpty text || (len text <=? maxLength)) = false /\
            len (String.substring 0 (Z.to_nat (Z.max 0 (maxLength - 3))) text)
            = maxLength - 3).
  { intros H. split.
    - destruct text; [change (len "") with 0 in H; lia|]. cbn [isEmpty orb]. lia.
    - unfold len in *. rewrite length_substring_prefix; lia. }
  split; [|split; [|split; [|split]]].
  - intros H. assert (E : (len text <=? maxLength) = true) by lia.
    rewrite E, orb_true_r. reflexivity.
  - intros H3. destruct (isEmpty text || (len text <=? maxLength)) eqn:E.
    + apply orb_prop in E as [E|E]; [destruct text; [change (len "") with 0; lia|discriminate E]|lia].
    + apply orb_false_elim in E as [_ E]. destruct (Hlong ltac:(lia)) as [_ Hk].
      rewrite len_append, Hk. change (len "...") with 3. lia.
  - intros H. destruct (Hlong H) as [-> Hk]. eexists. split; [reflexivity|].
    split; [apply startsWith_substring|exact Hk].
  - intros H0 H. assert (E : (len text <=? maxLength) = false) by lia. rewrite E.
    destruct text as [|c text]; [change (len "") with 0 in H; lia|]. cbn [isEmpty orb].
    replace (Z.to_nat (Z.max 0 (maxLength - 3))) with 0%nat by lia. reflexivity.
  - reflexivity.
Qed.

(** *** Option numbers *)

Lemma parseDigitsFrom_nonneg acc s :
  0 <= acc -> allChars isDigit s = true -> 0 <= parseDigitsFrom acc s.
Proof.
  revert acc. induction s as [|c s IH]; intros acc Hacc Hs; [exact Hacc|].
  cbn in *. apply andb_prop in Hs as [Hc Hs]. apply isDigit_bounds in Hc.
  apply IH; [lia|exact Hs].
Qed.

Lemma allChars_leadingDigits s : allChars isDigit (leadingDigits s) = true.
Proof.
  induction s as [|c s IH]; [reflexivity|]. cbn.
  destruct (isDigit c) eqn:E; [|reflexivity]. cbn. rewrite E, IH. reflexivity.
Qed.

(** X8. An option number read from a text is never negative; when the
    normalized text does not start with a digit it comes from a number
    word and lies between one and ten. *)
Theorem extractOptionNumber_range (text : string) (n : Z) :
  extractOptionNumber text = Some n ->
  0 <= n /\ (leadingDigits (normalizeText text) = "" -> 1 <= n <= 10).
Proof.
  unfold extractOptionNumber.
  destruct (isEmpty (leadingDigits (normalizeText text))) eqn:E; cbn [negb].
  - destruct (List.find _ numberWords) as [[w m]|] eqn:Ef; [|discriminate].
    cbn. intros [= <-]. apply find_some in Ef as [Hin _].
    assert (H : 1 <= m <= 10).
    { cbn in Hin. repeat (destruct Hin as [[= _ <-]|Hin]; [lia|]). destruct Hin. }
    split; [lia|intros _; exact H].
  - intros [= <-]. split.
    + apply parseDigitsFrom_nonneg; [lia|apply allChars_leadingDigits].
    + intros H. rewrite H in E. discriminate E.
Qed.

Lemma extractOptionNumber_range_witness :
  0 <= 2 /\ (leadingDigits (normalizeText "a segunda") = "" -> 1 <= 2 <= 10).
Proof. apply (extractOptionNumber_range "a segunda" 2). reflexivity. Defined.

(** *** Inputs that need special treatment *)

Lemma allChars_ext (p q : ascii -> bool) s :
  (forall c, p c = q c) -> allChars p s = allChars q s.
Proof.
  intros H. induction s as [|c s IH]; [reflexivity|]. cbn. rewrite H, IH. reflexivity.
Qed.

Lemma allChars_and (p q : ascii -> bool) s :
  allChars (fun c => p c && q c) s = allChars p s && allChars q s.
Proof.
  induction s as [|c s IH]; [reflexivity|]. cbn. rewrite IH.
  destruct (p c), (q c), (allChars p s); reflexivity.
Qed.

Lemma symbol_of_normalized c :
  (inRange 97 122 c || isDigit c || (code c =? 95) || Ascii.eqb c " ") = true ->
  negb (inRange 97 122 c || inRange 65 90 c || isDigit c || isSpace c)
  = Ascii.eqb c "_".
Proof.
  destruct (Ascii.eqb c " ") eqn:Esp.
  - apply Ascii.eqb_eq in Esp. subst c. reflexivity.
  - destruct (Ascii.eqb c "_") eqn:Eu.
    + apply Ascii.eqb_eq in Eu. subst c. reflexivity.
    + rewrite orb_false_r. intros H.
      assert (Hne : (code c =? 95) = false).
      { destruct (code c =? 95) eqn:E95; [|reflexivity].
        apply Z.eqb_eq in E95. apply (code_inj c "_") in E95. subst c. discriminate Eu. }
      rewrite Hne, orb_false_r in H. apply negb_false_iff.
      unfold isDigit, inRange in *. lia.
Qed.

(** X9. An input is flagged exactly when its normalized text is empty,
    is a run of ten or more digits, or is a run of underscores.  The
    test for inputs of symbols only sees the normalized text, where
    every other symbol is already a space: it never flags a text of
    punctuation marks. *)
Theorem isInvalidInput_flags_exactly (text : string) :
  (isInvalidInput text = true <->
   normalizeText text = "" \/
   (10 <= len (normalizeText text) /\ allChars isDigit (normalizeText text) = true) \/
   (normalizeText text <> "" /\ allChars (Ascii.eqb "_") (normalizeText text) = true)) /\
  isInvalidInput "?!" = false /\ isInvalidInput "__" = true.
Proof.
  split; [|split; reflexivity].
  unfold isInvalidInput, isLongNumber, isSymbolsOnly.
  pose proof (normal_chars _ _ (normalizeText_normal text)) as Halpha.
  set (n := normalizeText text) in *.
  assert (Hsym : allChars (fun c => negb (inRange 97 122 c || inRange 65 90 c
                                          || isDigit c || isSpace c)) n
                 = allChars (Ascii.eqb "_") n).
  { clearbody n. induction n as [|c n IH]; [reflexivity|].
    cbn in Halpha. apply andb_prop in Halpha as [Hc Hn]. cbn.
    rewrite (symbol_of_normalized c Hc), (IH Hn), Ascii.eqb_sym. reflexivity. }
  rewrite Hsym. destruct n as [|c n'] eqn:En.
  - split; [left; reflexivity|reflexivity].
  - set (m := String c n') in *.
    assert (Hlen : (len m <? 1) = false) by (unfold len, m; cbn [String.length]; apply Z.ltb_ge; rewrite Nat2Z.inj_succ; pose proof (Nat2Z.is_nonneg (String.length n')); lia). rewrite Hlen.
    cbn [isEmpty negb andb]. split.
    + intros H. right.
      destruct ((10 <=? len m) && allChars isDigit m) eqn:E1.
      * left. apply andb_prop in E1 as [E10 Ed]. split; [lia|exact Ed].
      * right. split; [discriminate|].
        destruct (allChars (Ascii.eqb "_") m); [reflexivity|discriminate H].
    + intros [H|[[H10 Hd]|[_ Hu]]]; [discriminate H| |].
      * assert (E10 : (10 <=? len m) = true) by lia. rewrite E10, Hd. reflexivity.
      * rewrite Hu. destruct ((10 <=? len m) && allChars isDigit m); reflexivity.
Qed.

End UtilsProps.

(** ** core/cacheSystem.js: entries and their timers *)

Module CacheProps.
Import Utils JSON Timers CacheSystem CacheInv CacheFacts.

(** What the invariant of an entry says of [get]. *)
Lemma alive_get_value key v t0 T now c :
  CacheInv.alive key v t0 T (now, c) ->
  t0 <= now /\
  (now > t0 + T -> (get now key c).1 = JNull) /\
  (now <= t0 + T -> ownTimer key t0 T ∈ pending c -> get now key c = (v, c)) /\
  (now <= t0 + T -> ownTimer key t0 T ∉ pending c -> (get now key c).1 = JNull) /\
  (now <= t0 + T -> now < t0 + timeoutDelay T -> get now key c = (v, c)).
Proof.
  intros (Ht & Htm & Hc & Hnone).
  assert (Hsome : cache c !! key = Some (entryOf v t0 T) -> now <= t0 + T ->
                  get now key c = (v, c)).
  { intros He Hle. unfold get. rewrite He. cbn [entryOf expirationTime value].
    destruct (now >? t0 + T) eqn:E; [lia|reflexivity]. }
  assert (Hin : ownTimer key t0 T ∈ pending c -> now <= t0 + T -> get now key c = (v, c)).
  { intros Hp Hle.
    assert (Hp' : ownTimer key t0 T ∈ timersOf key c)
      by (apply list_elem_of_filter; split; [reflexivity|exact Hp]).
    destruct Hc as [He|[He [Hnil|Hgt]]]; [exact (Hsome He Hle)| |lia].
    rewrite Hnil in Hp'. inversion Hp'. }
  split; [exact Ht|]. split; [|split; [|split]].
  - intros Hgt. unfold get. destruct Hc as [He|[He _]]; rewrite He; [|reflexivity].
    cbn [entryOf expirationTime value]. destruct (now >? t0 + T) eqn:E; [reflexivity|lia].
  - intros Hle Hp. exact (Hin Hp Hle).
  - intros Hle Hp. destruct Htm as [Hown|[Hnil _]].
    + exfalso. apply Hp.
      assert (Hp' : ownTimer key t0 T ∈ timersOf key c) by (rewrite Hown; left).
      apply list_elem_of_filter in Hp'. tauto.
    + unfold get. rewrite (Hnone Hnil). reflexivity.
  - intros Hle Hlt. destruct Htm as [Hown|[_ Hdue]]; [|lia].
    apply Hin; [|exact Hle].
    assert (Hp' : ownTimer key t0 T ∈ timersOf key c) by (rewrite Hown; left).
    apply list_elem_of_filter in Hp'. tauto.
Qed.

(** X10. What [set] stores is what [get] returns for as long as the
    removal timer of the entry has not fired and the clock has not
    passed the expiration time.  The key is written at [t0] with no
    removal timer of an earlier write pending, and then anything
    happens that neither writes the key again, nor calls [delete] on
    it, nor clears the cache: time passes, timers fire, the cleanup
    runs, other keys are used.  A [get] at [now > t0 + ttl] returns
    null; a [get] at [now <= t0 + ttl] returns the value and leaves the
    cache as it is while the timer is pending, and returns null once
    the timer has fired.  The timer cannot fire before it is due, which
    is at [t0 + ttl] for a lifetime from 1 to 2147483647 ms and 1 ms
    after the write otherwise.  Writing a key does not change what
    [get] answers for the other keys. *)
Theorem set_then_get (c0 : t) (key : string) (v : json) (t0 ttl : Z)
    (ops : list Op) (now : Z) (c : t) :
  noTimerFor key c0 = true ->
  forallb (leaves key) ops = true ->
  run ops (t0, set t0 key v ttl c0) = Some (now, c) ->
  t0 <= now /\
  (now > t0 + ttl -> (get now key c).1 = JNull) /\
  (now <= t0 + ttl -> (t0 + timeoutDelay ttl, key) ∈ pending c -> get now key c = (v, c)) /\
  (now <= t0 + ttl -> (t0 + timeoutDelay ttl, key) ∉ pending c ->
   (get now key c).1 = JNull) /\
  (now <= t0 + ttl -> now < t0 + timeoutDelay ttl -> get now key c = (v, c)) /\
  (1 <= ttl <= 2147483647 -> now < t0 + ttl -> get now key c = (v, c)) /\
  (forall other, other <> key ->
     (get t0 other (set t0 key v ttl c0)).1 = (get t0 other c0).1).
Proof.
  intros Hfresh Hquiet Hrun.
  pose proof (alive_set key v t0 ttl c0 (noTimerFor_spec _ _ Hfresh)) as H0.
  pose proof (alive_run key v t0 ttl ops _ _ Hquiet Hrun H0) as H1.
  destruct (alive_get_value key v t0 ttl now c H1) as (Ht & Hgt & Hin & Hout & Hlt).
  split; [exact Ht|]. split; [exact Hgt|]. split; [exact Hin|]. split; [exact Hout|].
  split; [exact Hlt|]. split.
  - intros HT Hnow. apply Hlt; [lia|]. rewrite (timeoutDelay_id ttl HT). exact Hnow.
  - intros other Hne. unfold get.
    assert (Ho : cache (set t0 key v ttl c0) !! other = cache c0 !! other)
      by (apply lookup_insert_ne; congruence).
    rewrite Ho. destruct (cache c0 !! other) as [e|]; [|reflexivity].
    destruct (t0 >? expirationTime e); reflexivity.
Qed.

Lemma get_answer now key c :
  (get now key c).1
  = match cache c !! key with
    | Some e => if now >? expirationTime e then JNull else value e
    | None => JNull
    end.
Proof.
  unfold get. destruct (cache c !! key) as [e|]; [|reflexivity].
  destruct (now >? expirationTime e); reflexivity.
Qed.

(** X11. The periodic cleanup cannot be seen through [get] and [has]:
    at the time of the cleanup and at any later time they answer what
    they would have answered without it.  It starts and cancels no
    timer, and a second cleanup at the same time changes nothing. *)
Theorem performCleanup_is_not_observable (now later : Z) (key : string) (c : t) :
  (now <= later ->
   (get later key (performCleanup now c)).1 = (get later key c).1 /\
   (has later key (performCleanup now c)).1 = (has later key c).1) /\
  pending (performCleanup now c) = pending c /\
  performCleanup now (performCleanup now c) = performCleanup now c.
Proof.
  split; [|split; [reflexivity|]].
  - intros Hle.
    assert (Hget : (get later key (performCleanup now c)).1 = (get later key c).1).
    { rewrite !get_answer. cbn [performCleanup cache].
      destruct (cache c !! key) as [e|] eqn:Hk.
      - destruct (decide (now > expirationTime e)) as [Hexp|Hlive].
        + assert (Hgone : filter (fun kv : string * Entry => ~ now > expirationTime kv.2)
                            (cache c) !! key = None).
          { apply map_lookup_filter_None. right. intros e' He'. cbn.
            rewrite Hk in He'. injection He' as <-. tauto. }
          rewrite Hgone. assert (E : (later >? expirationTime e) = true) by lia.
          rewrite E. reflexivity.
        + assert (Hkept : filter (fun kv : string * Entry => ~ now > expirationTime kv.2)
                            (cache c) !! key = Some e).
          { apply map_lookup_filter_Some. split; [exact Hk|exact Hlive]. }
          rewrite Hkept. reflexivity.
      - assert (Hgone : filter (fun kv : string * Entry => ~ now > expirationTime kv.2)
                          (cache c) !! key = None).
        { apply map_lookup_filter_None. left. exact Hk. }
        rewrite Hgone. reflexivity. }
    split; [exact Hget|].
    unfold has. destruct (get later key (performCleanup now c)) as [v1 c1] eqn:E1.
    destruct (get later key c) as [v2 c2] eqn:E2. cbn in *. rewrite Hget. reflexivity.
  - unfold performCleanup. cbn [cache pending]. f_equal.
    apply map_eq. intros k. apply option_eq. intros e.
    rewrite !map_lookup_filter_Some. tauto.
Qed.

Lemma performCleanup_is_not_observable_witness :
  (get 70000 "k" (performCleanup 61000 (set 0 "k" (JStr "v") 60000 empty))).1
  = (get 70000 "k" (set 0 "k" (JStr "v") 60000 empty)).1.
Proof.
  apply (proj1 (performCleanup_is_not_observable 61000 70000 "k"
                  (set 0 "k" (JStr "v") 60000 empty))).
  lia.
Defined.

(** An instance: a value is read one second after it was written, a
    cleanup and a query of another key in between. *)
Lemma set_then_get_witness :
  exists c,
    run [Tick 1000; Cleanup; CallGet "other"] (0, set 0 "k" (JStr "v") 60000 empty)
    = Some (1000, c) /\
    get 1000 "k" c = (JStr "v", c).
Proof.
  eexists. split; [vm_compute; reflexivity|].
  refine (proj1 (proj2 (proj2 (proj2 (proj2 (proj2
            (set_then_get empty "k" (JStr "v") 0 60000
               [Tick 1000; Cleanup; CallGet "other"] 1000 _ _ _ _))))))  _ _).
  - reflexivity.
  - reflexivity.
  - vm_compute. reflexivity.
  - lia.
  - lia.
Defined.

(** X12. [set] does not cancel the removal timer of an earlier [set] of
    the same key.  When a key is written at [t0] and written again at
    [t1] before the first lifetime is over, the first timer is still
    pending; once it is due it removes the second entry, although that
    entry would have been returned until [t1 + T2]. *)
Theorem earlier_timer_removes_the_later_entry
    (c0 : t) (key : string) (v1 v2 : json) (t0 t1 T1 T2 : Z) :
  1 <= T1 <= 2147483647 ->
  t0 <= t1 < t0 + T1 ->
  t0 + T1 <= t1 + T2 ->
  let c2 := set t1 key v2 T2 (set t0 key v1 T1 c0) in
  pending c2 !! length (pending c0) = Some (t0 + T1, key) /\
  (get (t0 + T1) key c2).1 = v2 /\
  exists c3,
    fire (t0 + T1) (length (pending c0)) c2 = Some c3 /\
    cache c3 !! key = None /\
    (get (t0 + T1) key c3).1 = JNull /\
    (has (t0 + T1) key c3).1 = false.
Proof.
  intros HT Ht Hlater c2.
  assert (Hp : pending c2 !! length (pending c0) = Some (t0 + T1, key)).
  { subst c2. cbn [set pending]. rewrite (timeoutDelay_id T1 HT), <- app_assoc.
    rewrite lookup_app_r by lia. rewrite Nat.sub_diag. reflexivity. }
  split; [exact Hp|]. split.
  - rewrite get_answer. subst c2. cbn [set cache]. rewrite lookup_insert_eq.
    cbn [expirationTime value]. assert (E : (t0 + T1 >? t1 + T2) = false) by lia.
    rewrite E. reflexivity.
  - unfold fire. rewrite Hp. assert (E : (t0 + T1 <=? t0 + T1) = true) by lia. rewrite E.
    eexists. split; [reflexivity|].
    assert (Hgone : base.delete key (cache c2) !! key = None) by apply lookup_delete_eq.
    split; [exact Hgone|]. unfold has, get. cbn [cache]. rewrite Hgone. split; reflexivity.
Qed.

Lemma earlier_timer_removes_the_later_entry_witness :
  exists c3,
    fire 60000 0 (set 30000 "k" (JStr "new") 60000 (set 0 "k" (JStr "old") 60000 empty))
    = Some c3 /\
    (get 60000 "k" c3).1 = JNull.
Proof.
  destruct (earlier_timer_removes_the_later_entry empty "k" (JStr "old") (JStr "new")
              0 30000 60000 60000 ltac:(lia) ltac:(lia) ltac:(lia))
    as (_ & _ & c3 & Hfire & _ & Hget & _).
  exists c3. split; [exact Hfire|exact Hget].
Defined.

(** X13. [delete] and [clear] remove entries and cancel no timer.  After
    [delete] the key is not found and the other keys answer as before;
    after [clear] no key is found.  A timer whose key is no longer in
    the cache fires without changing what the cache holds. *)
Theorem delete_and_clear_cancel_no_timer (now : Z) (key : string) (c : t) :
  (get now key (delete key c)).1 = JNull /\
  (has now key (delete key c)).1 = false /\
  (forall other, other <> key -> (get now other (delete key c)).1 = (get now other c).1) /\
  pending (delete key c) = pending c /\
  (forall k, (get now k (clear c)).1 = JNull /\ (has now k (clear c)).1 = false) /\
  pending (clear c) = pending c /\
  (forall i due c',
     pending c !! i = Some (due, key) -> cache c !! key = None ->
     fire now i c = Some c' -> cache c' = cache c).
Proof.
  assert (Hnull : forall k c0, cache c0 !! k = None ->
            (get now k c0).1 = JNull /\ (has now k c0).1 = false).
  { intros k c0 H. unfold has, get. rewrite H. split; reflexivity. }
  assert (Hdel : cache (delete key c) !! key = None) by apply lookup_delete_eq.
  split; [apply (Hnull _ _ Hdel)|]. split; [apply (Hnull _ _ Hdel)|].
  split; [|split; [reflexivity|split; [|split; [reflexivity|]]]].
  - intros other Hne. rewrite !get_answer. cbn [delete cache].
    rewrite lookup_delete_ne by congruence. reflexivity.
  - intros k. apply Hnull. apply lookup_empty.
  - intros i due c' Hi Hk. unfold fire. rewrite Hi.
    destruct (due <=? now); [|discriminate]. intros [= <-]. cbn [cache].
    apply delete_id. exact Hk.
Qed.

Lemma timed_subset (c c' : t) :
  (forall key e, cache c' !! key = Some e -> cache c !! key = Some e) ->
  pending c' = pending c -> timed c -> timed c'.
Proof. intros Hsub Hp H key e Hk. rewrite Hp. apply H, Hsub, Hk. Qed.

Lemma timed_get now key c : timed c -> timed (get now key c).2.
Proof.
  unfold get. destruct (cache c !! key) as [e|]; [|exact id].
  destruct (now >? expirationTime e); [|exact id].
  apply timed_subset; [|reflexivity]. intros k e' H. cbn in H.
  apply lookup_delete_Some in H as [_ H]. exact H.
Qed.

Lemma timed_has now key c : timed c -> timed (has now key c).2.
Proof.
  intros H. unfold has. pose proof (timed_get now key c H) as Hg.
  destruct (get now key c) as [v c']. exact Hg.
Qed.

Lemma timed_set now key v ttl c : timed c -> timed (set now key v ttl c).
Proof.
  intros H k e Hk. cbn [set cache pending] in *.
  apply elem_of_app. destruct (decide (k = key)) as [->|Hne].
  - rewrite lookup_insert_eq in Hk. injection Hk as <-. right. cbn.
    replace (now + ttl - now) with ttl by lia. apply list_elem_of_singleton. reflexivity.
  - rewrite lookup_insert_ne in Hk by congruence. left. apply H, Hk.
Qed.

Lemma timed_fire now i c c' : fire now i c = Some c' -> timed c -> timed c'.
Proof.
  unfold fire. destruct (pending c !! i) as [[due k]|] eqn:Hi; [|discriminate].
  destruct (due <=? now); [|discriminate]. intros [= <-] H key e Hk. cbn in *.
  apply lookup_delete_Some in Hk as [Hne Hk]. specialize (H _ _ Hk).
  rewrite <- (take_drop_middle _ _ _ Hi) in H.
  apply elem_of_app in H as [H|H]; [apply elem_of_app; left; exact H|].
  apply elem_of_cons in H as [H|H]; [congruence|]. apply elem_of_app. right. exact H.
Qed.

Lemma timed_step op nc nc' : step op nc = Some nc' -> timed nc.2 -> timed nc'.2.
Proof.
  destruct nc as [now c]. destruct op; cbn [step snd].
  - destruct (0 <=? dt); [|discriminate]. intros [= <-]. exact id.
  - destruct (fire now i c) as [c'|] eqn:Hf; [|discriminate]. cbn. intros [= <-].
    exact (timed_fire _ _ _ _ Hf).
  - intros [= <-]. apply timed_subset; [|reflexivity]. intros k e Hk. cbn in Hk.
    apply map_lookup_filter_Some in Hk as [Hk _]. exact Hk.
  - intros [= <-]. apply timed_get.
  - intros [= <-]. apply timed_has.
  - intros [= <-]. apply timed_has.
  - intros [= <-]. apply timed_set.
  - intros [= <-]. apply timed_set.
  - intros [= <-]. apply timed_subset; [|reflexivity]. intros k e Hk. cbn in Hk.
    apply lookup_delete_Some in Hk as [_ Hk]. exact Hk.
  - intros [= <-] _ k e Hk. cbn [snd clear cache] in Hk.
    rewrite lookup_empty in Hk. discriminate Hk.
Qed.

Lemma timed_run ops nc nc' : run ops nc = Some nc' -> timed nc.2 -> timed nc'.2.
Proof.
  revert nc. induction ops as [|op ops IH]; intros nc; cbn [run].
  - intros [= <-]. exact id.
  - destruct (step op nc) as [nc1|] eqn:Hs; [|discriminate]. cbn.
    intros Hr H. exact (IH _ Hr (timed_step _ _ _ Hs H)).
Qed.

(** X14. Whatever is done with a cache that starts empty - calls of its
    methods, the periodic cleanup, timers firing, time passing - every
    entry it holds still has the removal timer of the [set] that wrote
    it pending.  So when no timer is pending the cache is empty: no
    entry outlives its timer. *)
Theorem every_entry_keeps_its_timer (ops : list Op) (t0 now : Z) (c : t) :
  run ops (t0, empty) = Some (now, c) ->
  timed c /\ (pending c = [] -> cache c = ∅).
Proof.
  intros Hrun.
  assert (H : timed c).
  { apply (timed_run _ _ _ Hrun). intros k e Hk. cbn [snd empty cache] in Hk.
    rewrite lookup_empty in Hk. discriminate Hk. }
  split; [exact H|]. intros Hnil. apply map_empty. intros k.
  destruct (cache c !! k) as [e|] eqn:Hk; [|reflexivity].
  specialize (H _ _ Hk). rewrite Hnil in H. apply elem_of_nil in H. destruct H.
Qed.

Lemma every_entry_keeps_its_timer_witness :
  exists c,
    run [CallSet "a" (JStr "x") 500; Tick 200; CallMarkMessageProcessed "u" "m" 60000;
         Tick 400; CallGet "a"; Fire 0] (0, empty) = Some (600, c) /\
    timed c.
Proof.
  eexists. split; [vm_compute; reflexivity|].
  apply (every_entry_keeps_its_timer
           [CallSet "a" (JStr "x") 500; Tick 200; CallMarkMessageProcessed "u" "m" 60000;
            Tick 400; CallGet "a"; Fire 0] 0 600).
  vm_compute. reflexivity.
Defined.

End CacheProps.

(** ** core/stateManager.js: sessions and counters *)

Module StoreProps.
Import Utils JSON StateManager StoreRun.

Lemma getUserSession_result now phone st :
  (getUserSession now phone st).1
  = match sessions st !! phone with
    | Some s => touch now s
    | None => newSession now phone
    end /\
  sessions (getUserSession now phone st).2
  = <[phone := (getUserSession now phone st).1]> (sessions st) /\
  chatbot_is_on (getUserSession now phone st).2 = chatbot_is_on st /\
  total_messages (stats (getUserSession now phone st).2) = total_messages (stats st) /\
  total_users (stats (getUserSession now phone st).2)
  = total_users (stats st) + match sessions st !! phone with Some _ => 0 | None => 1 end.
Proof.
  unfold getUserSession. destruct (sessions st !! phone); cbn; repeat split; lia.
Qed.

(** The session [updateUserSession] leaves for [phone]. *)
Lemma updateUserSession_result now phone u st :
  let s := (getUserSession now phone st).1 in
  let changed :=
    match u_currentFlow u with
    | Some flow => negb (isEmpty flow) && negb (String.eqb flow (currentFlow s))
    | None => false
    end in
  sessions (updateUserSession now phone u st)
  = <[phone := {| phone := StateManager.phone s;
                  currentFlow := default (currentFlow s) (u_currentFlow u);
                  currentStep := default (currentStep s) (u_currentStep u);
                  data := default (data s) (u_data u);
                  history :=
                    history s ++
                    (if changed
                     then [{| h_from := currentFlow s;
                              h_to := default (currentFlow s) (u_currentFlow u);
                              h_timestamp := now |}]
                     else []);
                  createdAt := createdAt s;
                  lastActivity := now |}]> (sessions st) /\
  stats (updateUserSession now phone u st) = stats (getUserSession now phone st).2 /\
  chatbot_is_on (updateUserSession now phone u st) = chatbot_is_on st.
Proof.
  cbv zeta. unfold updateUserSession.
  destruct (getUserSession_result now phone st) as (_ & Hs & Hon & _).
  destruct (getUserSession now phone st) as [s st1]. cbn [fst snd] in *.
  cbn [withSessions sessions stats chatbot_is_on]. rewrite Hs, insert_insert_eq.
  split; [|split; [reflexivity|exact Hon]]. f_equal.
  destruct u as [[flow|] us ud]; cbn [u_currentFlow u_currentStep u_data default].
  - destruct (negb (isEmpty flow) && negb (flow =? currentFlow s)%string);
      cbn; rewrite ?app_nil_r; reflexivity.
  - cbn. rewrite app_nil_r. reflexivity.
Qed.

(** X15. For an address that is not a name of [Object.prototype], the
    first [getUserSession] creates its session, in the flow 'welcome'
    with no data, and counts one more user; a later one finds the
    session, changes only its time of last activity and counts
    nothing.  The session returned is the one stored, and the sessions
    of the other addresses are left alone. *)
Theorem getUserSession_counts_a_user_once (now later : Z) (phone : string)
    (st : GlobalState) :
  inherited phone = false ->
  let r := getUserSession now phone st in
  sessions r.2 !! phone = Some r.1 /\
  (forall other, other <> phone -> sessions r.2 !! other = sessions st !! other) /\
  (sessions st !! phone = None ->
   r.1 = newSession now phone /\ total_users (stats r.2) = total_users (stats st) + 1) /\
  (forall s, sessions st !! phone = Some s ->
   r.1 = touch now s /\ total_users (stats r.2) = total_users (stats st)) /\
  total_users (stats (getUserSession later phone r.2).2) = total_users (stats r.2) /\
  (getUserSession later phone r.2).1 = touch later r.1.
Proof.
  intros _. cbv zeta.
  destruct (getUserSession_result now phone st) as (Hr & Hs & _ & _ & Hu).
  assert (Hk : sessions (getUserSession now phone st).2 !! phone
               = Some (getUserSession now phone st).1)
    by (rewrite Hs; apply lookup_insert_eq).
  split; [exact Hk|]. split; [|split; [|split; [|split]]].
  - intros other Hne. rewrite Hs. apply lookup_insert_ne. congruence.
  - intros Hnone. rewrite Hnone in Hr, Hu. split; [exact Hr|exact Hu].
  - intros s Hsome. rewrite Hsome in Hr, Hu. split; [exact Hr|lia].
  - destruct (getUserSession_result later phone (getUserSession now phone st).2)
      as (_ & _ & _ & _ & Hu2). rewrite Hu2, Hk. lia.
  - destruct (getUserSession_result later phone (getUserSession now phone st).2)
      as (Hr2 & _). rewrite Hr2, Hk. reflexivity.
Qed.

(** An instance: the first message of a number, and one a minute
    later. *)
Lemma getUserSession_counts_a_user_once_witness :
  total_users (stats (getUserSession 60000 "5519999990000@c.us"
                        (getUserSession 0 "5519999990000@c.us" (defaultState 0)).2).2)
  = total_users (stats (getUserSession 0 "5519999990000@c.us" (defaultState 0)).2).
Proof.
  apply (getUserSession_counts_a_user_once 0 60000 "5519999990000@c.us" (defaultState 0)).
  reflexivity.
Defined.

(** X16. [cleanInactiveSessions] keeps exactly the sessions whose last
    activity is not older than the given number of hours, and changes
    neither the counters nor the switch.  With a number of hours that
    is not negative, a session that was active at the time of the
    cleanup is kept. *)
Theorem cleanInactiveSessions_keeps_the_recent (now hours : Z) (st : GlobalState) :
  (forall key s,
     sessions (cleanInactiveSessions now hours st) !! key = Some s <->
     sessions st !! key = Some s /\ now - hours * 60 * 60 * 1000 <= lastActivity s) /\
  stats (cleanInactiveSessions now hours st) = stats st /\
  chatbot_is_on (cleanInactiveSessions now hours st) = chatbot_is_on st /\
  (0 <= hours ->
   forall phone,
     sessions (cleanInactiveSessions now hours (getUserSession now phone st).2) !! phone
     = Some (getUserSession now phone st).1).
Proof.
  assert (Hiff : forall st0 key s,
     sessions (cleanInactiveSessions now hours st0) !! key = Some s <->
     sessions st0 !! key = Some s /\ now - hours * 60 * 60 * 1000 <= lastActivity s).
  { intros st0 key s. unfold cleanInactiveSessions. cbn [withSessions sessions].
    rewrite map_lookup_filter_Some. cbn. split; intros [H1 H2]; (split; [exact H1|lia]). }
  split; [apply Hiff|]. split; [reflexivity|]. split; [reflexivity|].
  intros Hh phone. apply Hiff.
  destruct (getUserSession_result now phone st) as (Hr & Hs & _).
  split; [rewrite Hs; apply lookup_insert_eq|].
  rewrite Hr. destruct (sessions st !! phone); cbn; lia.
Qed.

Lemma cleanInactiveSessions_keeps_the_recent_witness :
  sessions (cleanInactiveSessions 5000 24
              (getUserSession 5000 "5519999990000@c.us" (defaultState 0)).2)
    !! "5519999990000@c.us"
  = Some (getUserSession 5000 "5519999990000@c.us" (defaultState 0)).1.
Proof.
  apply (proj2 (proj2 (proj2 (cleanInactiveSessions_keeps_the_recent 5000 24
                                (defaultState 0))))).
  lia.
Defined.

(** What every operation keeps of a property of all sessions, when
    [getUserSession] and [updateUserSession] keep it for the session
    they write. *)
Lemma filed_insert now phone s st st' :
  filed now st -> StateManager.phone s = phone -> createdAt s <= lastActivity s <= now ->
  sessions st' = <[phone := s]> (sessions st) -> filed now st'.
Proof.
  intros Hf Hp Hd Hs key s' Hk. rewrite Hs in Hk.
  destruct (decide (key = phone)) as [->|Hne].
  - rewrite lookup_insert_eq in Hk. injection Hk as <-. split; assumption.
  - rewrite lookup_insert_ne in Hk by congruence. exact (Hf _ _ Hk).
Qed.

Lemma getUserSession_filed now phone st :
  filed now st ->
  StateManager.phone (getUserSession now phone st).1 = phone /\
  createdAt (getUserSession now phone st).1 <= now /\
  lastActivity (getUserSession now phone st).1 = now.
Proof.
  intros Hf. destruct (getUserSession_result now phone st) as (-> & _).
  destruct (sessions st !! phone) as [s|] eqn:Hk; cbn.
  - destruct (Hf _ _ Hk) as [Hp Hd]. repeat split; [exact Hp|lia].
  - repeat split. lia.
Qed.

Lemma apply_filed op now st now' st' :
  apply op (now, st) = Some (now', st') -> filed now st -> now <= now' /\ filed now' st'.
Proof.
  destruct op as [dt|p|p u|p|hours| | | |]; cbn [apply].
  - destruct (0 <=? dt) eqn:E; [|discriminate]. intros [= <- <-] Hf.
    split; [lia|]. intros key s Hk. destruct (Hf _ _ Hk) as [Hp Hd]. split; [exact Hp|lia].
  - intros [= <- <-] Hf. split; [lia|].
    destruct (getUserSession_result now p st) as (_ & Hs & _).
    destruct (getUserSession_filed now p st Hf) as (Hp & Hc & Hl).
    eapply filed_insert; [exact Hf|exact Hp|lia|exact Hs].
  - intros [= <- <-] Hf. split; [lia|].
    destruct (updateUserSession_result now p u st) as (Hs & _).
    destruct (getUserSession_filed now p st Hf) as (Hp & Hc & Hl).
    eapply filed_insert; [exact Hf| | |exact Hs]; cbn; [exact Hp|lia].
  - intros [= <- <-] Hf. split; [lia|]. intros key s Hk. cbn in Hk.
    apply lookup_delete_Some in Hk as [_ Hk]. exact (Hf _ _ Hk).
  - intros [= <- <-] Hf. split; [lia|]. intros key s Hk. cbn in Hk.
    apply map_lookup_filter_Some in Hk as [Hk _]. exact (Hf _ _ Hk).
  - intros [= <- <-] Hf. split; [lia|exact Hf].
  - intros [= <- <-] Hf. split; [lia|exact Hf].
  - intros [= <- <-] Hf. split; [lia|exact Hf].
  - intros [= <- <-] Hf. split; [lia|exact Hf].
Qed.

Lemma apply_counted op now st now' st' :
  apply op (now, st) = Some (now', st') -> isReset op = false ->
  Z.of_nat (size (sessions st)) <= total_users (stats st) ->
  Z.of_nat (size (sessions st')) <= total_users (stats st').
Proof.
  assert (Hget : forall phone,
            Z.of_nat (size (sessions st)) <= total_users (stats st) ->
            Z.of_nat (size (sessions (getUserSession now phone st).2))
            <= total_users (stats (getUserSession now phone st).2)).
  { intros phone H. destruct (getUserSession_result now phone st) as (_ & -> & _ & _ & ->).
    destruct (sessions st !! phone) as [s|] eqn:Hk.
    - rewrite map_size_insert_Some by eauto. lia.
    - rewrite map_size_insert_None by exact Hk. lia. }
  destruct op as [dt|p|p u|p|hours| | | |]; cbn [apply isReset]; try discriminate.
  - destruct (0 <=? dt); [|discriminate]. intros [= <- <-] _. exact id.
  - intros [= <- <-] _. apply Hget.
  - intros [= <- <-] _ H. specialize (Hget p H).
    destruct (updateUserSession_result now p u st) as (-> & -> & _).
    destruct (getUserSession_result now p st) as (_ & Hs & _). rewrite Hs in Hget.
    destruct (sessions st !! p) as [s|] eqn:Hk.
    + rewrite map_size_insert_Some in * by eauto. exact Hget.
    + rewrite map_size_insert_None in * by exact Hk. exact Hget.
  - intros [= <- <-] _ H. cbn. pose proof (map_size_delete p (sessions st)) as Hd.
    destruct (sessions st !! p); unfold id in Hd; lia.
  - intros [= <- <-] _ H. cbn.
    pose proof (map_subseteq_size
                  (filter (fun kv : string * Session =>
                             ~ lastActivity kv.2 < now - hours * 60 * 60 * 1000)
                     (sessions st)) (sessions st) (map_filter_subseteq _ _)). lia.
  - intros [= <- <-] _. exact id.
  - intros [= <- <-] _. exact id.
  - intros [= <- <-] _. exact id.
Qed.

(** X17. Whatever is asked of a state manager that starts with the
    default state, and in whatever order, as long as no session is
    asked for under a name of [Object.prototype]: every session stays
    stored under its own address, created no later than it was last
    active, and last active no later than now.  As long as the
    statistics are not reset, the users counted are at least as many
    as the sessions held. *)
Theorem sessions_stay_filed_and_counted (ops : list StoreOp) (t0 now : Z)
    (st : GlobalState) :
  forallb plainKey ops = true ->
  applyAll ops (t0, defaultState t0) = Some (now, st) ->
  t0 <= now /\
  filed now st /\
  (existsb isReset ops = false -> Z.of_nat (size (sessions st)) <= total_users (stats st)).
Proof.
  assert (Hgen : forall ops ns ns',
            applyAll ops ns = Some ns' -> filed ns.1 ns.2 ->
            ns.1 <= ns'.1 /\ filed ns'.1 ns'.2 /\
            (existsb isReset ops = false ->
             Z.of_nat (size (sessions ns.2)) <= total_users (stats ns.2) ->
             Z.of_nat (size (sessions ns'.2)) <= total_users (stats ns'.2))).
  { clear. induction ops as [|op ops IH]; intros ns ns'; cbn [applyAll].
    - intros [= <-] Hf. split; [lia|]. split; [exact Hf|auto].
    - destruct (apply op ns) as [ns1|] eqn:Hop; [|discriminate]. cbn.
      destruct ns as [now st], ns1 as [now1 st1]. intros Hrun Hf.
      destruct (apply_filed _ _ _ _ _ Hop Hf) as [Hle Hf1].
      destruct (IH _ _ Hrun Hf1) as (Hle' & Hf' & Hc'). cbn [fst snd] in *.
      split; [lia|]. split; [exact Hf'|]. cbn [existsb].
      intros [Hr Hrs]%orb_false_elim Hc. apply (Hc' Hrs).
      exact (apply_counted _ _ _ _ _ Hop Hr Hc). }
  intros _ Hrun. destruct (Hgen _ _ _ Hrun) as (Hle & Hf & Hc).
  - intros key s Hk. cbn in Hk. rewrite lookup_empty in Hk. discriminate Hk.
  - split; [exact Hle|]. split; [exact Hf|]. intros Hr. apply (Hc Hr).
    cbn. rewrite map_size_empty. lia.
Qed.

Lemma sessions_stay_filed_and_counted_witness :
  exists st,
    applyAll [GetUserSession "5519999990000@c.us"; Wait 10;
              UpdateUserSession "5511888880000@c.us"
                {| u_currentFlow := Some "cotacao"; u_currentStep := None; u_data := None |};
              RemoveUserSession "5519999990000@c.us"] (0, defaultState 0)
    = Some (10, st) /\
    filed 10 st.
Proof.
  eexists. split; [vm_compute; reflexivity|].
  apply (sessions_stay_filed_and_counted
           [GetUserSession "5519999990000@c.us"; Wait 10;
            UpdateUserSession "5511888880000@c.us"
              {| u_currentFlow := Some "cotacao"; u_currentStep := None; u_data := None |};
            RemoveUserSession "5519999990000@c.us"] 0 10).
  - reflexivity.
  - vm_compute. reflexivity.
Defined.

Lemma linked_snoc start h current next t :
  linked start h current -> next <> current ->
  linked start (h ++ [{| h_from := current; h_to := next; h_timestamp := t |}]) next.
Proof.
  revert start. induction h as [|e h IH]; intros start; cbn.
  - intros <- Hne. repeat split. exact Hne.
  - intros (Hf & Ht & Hl) Hne. repeat split; [exact Hf|exact Ht|]. exact (IH _ Hl Hne).
Qed.

Lemma chained_insert phone s st st' :
  chained st -> linked "welcome" (history s) (currentFlow s) ->
  sessions st' = <[phone := s]> (sessions st) -> chained st'.
Proof.
  intros Hc Hl Hs key s' Hk. rewrite Hs in Hk.
  destruct (decide (key = phone)) as [->|Hne].
  - rewrite lookup_insert_eq in Hk. injection Hk as <-. exact Hl.
  - rewrite lookup_insert_ne in Hk by congruence. exact (Hc _ _ Hk).
Qed.

Lemma getUserSession_linked now phone st :
  chained st ->
  linked "welcome" (history (getUserSession now phone st).1)
    (currentFlow (getUserSession now phone st).1).
Proof.
  intros Hc. destruct (getUserSession_result now phone st) as (-> & _).
  destruct (sessions st !! phone) as [s|] eqn:Hk; [exact (Hc _ _ Hk)|reflexivity].
Qed.

Lemma apply_chained op now st now' st' :
  apply op (now, st) = Some (now', st') -> namesFlow op = true -> chained st -> chained st'.
Proof.
  destruct op as [dt|p|p u|p|hours| | | |]; cbn [apply namesFlow].
  - destruct (0 <=? dt); [|discriminate]. intros [= <- <-] _. exact id.
  - intros [= <- <-] _ Hc.
    destruct (getUserSession_result now p st) as (_ & Hs & _).
    exact (chained_insert _ _ _ _ Hc (getUserSession_linked now p st Hc) Hs).
  - intros [= <- <-] Hn Hc.
    destruct (updateUserSession_result now p u st) as (Hs & _).
    refine (chained_insert _ _ _ _ Hc _ Hs). cbn [history currentFlow].
    pose proof (getUserSession_linked now p st Hc) as Hl.
    destruct (u_currentFlow u) as [flow|]; cbn [default].
    + apply negb_true_iff in Hn. rewrite Hn. cbn [negb andb].
      destruct (String.eqb flow (currentFlow (getUserSession now p st).1)) eqn:E.
      * apply String.eqb_eq in E. cbn. rewrite app_nil_r, E. exact Hl.
      * apply String.eqb_neq in E. cbn. apply linked_snoc; assumption.
    + rewrite app_nil_r. exact Hl.
  - intros [= <- <-] _ Hc key s Hk. cbn in Hk.
    apply lookup_delete_Some in Hk as [_ Hk]. exact (Hc _ _ Hk).
  - intros [= <- <-] _ Hc key s Hk. cbn in Hk.
    apply map_lookup_filter_Some in Hk as [Hk _]. exact (Hc _ _ Hk).
  - intros [= <- <-] _. exact id.
  - intros [= <- <-] _. exact id.
  - intros [= <- <-] _. exact id.
  - intros [= <- <-] _. exact id.
Qed.

(** X18. The history of a session is a chain: it starts at the flow
    'welcome', every entry starts at the flow the entry before it led
    to and leads to a different flow, and the last entry leads to the
    flow the session is in.  It holds after any sequence of operations
    on a state manager that starts with the default state, as long as
    no session is asked for under a name of [Object.prototype] and no
    update sets the flow to the empty string, which is written to the
    session without an entry in the history. *)
Theorem history_leads_to_the_current_flow (ops : list StoreOp) (t0 now : Z)
    (st : GlobalState) :
  forallb plainKey ops = true ->
  applyAll ops (t0, defaultState t0) = Some (now, st) ->
  forallb namesFlow ops = true ->
  chained st.
Proof.
  assert (Hgen : forall ops ns ns',
            applyAll ops ns = Some ns' -> forallb namesFlow ops = true ->
            chained ns.2 -> chained ns'.2).
  { clear. induction ops as [|op ops IH]; intros ns ns'; cbn [applyAll forallb].
    - intros [= <-] _. exact id.
    - destruct (apply op ns) as [ns1|] eqn:Hop; [|discriminate]. cbn.
      destruct ns as [now st], ns1 as [now1 st1].
      intros Hrun [Hn Hns]%andb_prop Hc.
      exact (IH _ _ Hrun Hns (apply_chained _ _ _ _ _ Hop Hn Hc)). }
  intros _ Hrun Hn. apply (Hgen _ _ _ Hrun Hn).
  intros key s Hk. cbn in Hk. rewrite lookup_empty in Hk. discriminate Hk.
Qed.

Lemma history_leads_to_the_current_flow_witness :
  exists st,
    applyAll [UpdateUserSession "5519999990000@c.us"
                {| u_currentFlow := Some "main_menu"; u_currentStep := None; u_data := None |};
              Wait 5;
              UpdateUserSession "5519999990000@c.us"
                {| u_currentFlow := Some "cotacao"; u_currentStep := Some "coleta_nome";
                   u_data := None |}] (0, defaultState 0)
    = Some (5, st) /\
    chained st.
Proof.
  eexists. split; [vm_compute; reflexivity|].
  apply (history_leads_to_the_current_flow
           [UpdateUserSession "5519999990000@c.us"
              {| u_currentFlow := Some "main_menu"; u_currentStep := None; u_data := None |};
            Wait 5;
            UpdateUserSession "5519999990000@c.us"
              {| u_currentFlow := Some "cotacao"; u_currentStep := Some "coleta_nome";
                 u_data := None |}] 0 5);
    vm_compute; reflexivity.
Defined.

End StoreProps.

(** ** services/whatsappService.js: the queue and the hand-off *)

Module ServiceProps.
Import Utils JSON Timers StateManager Runtime MenuService WhatsAppService Flows.
Import ServiceInv UtilsFacts JSONFacts RouterFacts.

#[local] Arguments formatPhone : simpl never.
#[local] Arguments timeoutDelay : simpl never.
#[local] Arguments StateManager.getUserSession : simpl never.
#[local] Arguments StateManager.updateUserSession : simpl never.
#[local] Arguments removeFirst : simpl never.
#[local] Arguments brokerNumber : simpl never.

(** The plumbing of a flow unfolded, with what is known of the client. *)
Ltac flow_steps Hr := repeat (progress (flow_unfold; rewrite ?Hr; cbn)).

(** The same, by cases on what the client takes. *)
Ltac client_cases Hr :=
  flow_steps Hr;
  repeat match goal with
         | |- context [clientTakes ?e ?n] => destruct (clientTakes e n); cbn
         end.

(** *** The queue of the disconnected client *)

(** A send that runs with the client connected returns, whatever the
    client does with the calls, and leaves the connection, the queue,
    the state and the environment as they are. *)
Lemma runDeferred_steady d t c :
  ready c = true ->
  (exists b, (runDeferred d t c).1 = Ret b) /\
  ready (runDeferred d t c).2 = true /\
  messageQueue (runDeferred d t c).2 = messageQueue c /\
  state (runDeferred d t c).2 = state c /\
  env (runDeferred d t c).2 = env c.
Proof.
  intros Hr. destruct d as [to text w delay|to m w delay]; cbn [runDeferred].
  - unfold sendTextWith. destruct w; client_cases Hr;
      repeat split; try exact Hr; eexists; reflexivity.
  - unfold sendListMessageWith. destruct w, (validateMenuConfig m); client_cases Hr;
      repeat split; try exact Hr; eexists; reflexivity.
Qed.

(** Whatever the client does, the send is handed to it; the one other
    send there can be is the text that stands in for a menu the client
    did not take. *)
Lemma runDeferred_sent d t c :
  ready c = true ->
  exists sent,
    outbound (wire (runDeferred d t c).2) = outbound (wire c) ++ sent /\
    handedFor d sent.
Proof.
  intros Hr. unfold handedFor.
  destruct d as [to text w delay|to m w delay]; cbn [runDeferred delivered].
  - unfold sendTextWith. destruct w; client_cases Hr;
      rewrite <- ?app_assoc, ?outbound_app; cbn;
      eexists; (split; [reflexivity|]); left; reflexivity.
  - unfold sendListMessageWith. destruct w, (validateMenuConfig m); client_cases Hr;
      rewrite <- ?app_assoc, ?outbound_app; cbn;
      eexists; (split; [reflexivity|]);
      first [left; reflexivity | right; split; reflexivity].
Qed.

(** With a client that takes the calls, the send is delivered. *)
Lemma runDeferred_ready d t c :
  ready c = true -> reliable (env c) ->
  outbound (wire (runDeferred d t c).2) = outbound (wire c) ++ [delivered d].
Proof.
  intros Hr Hc. destruct d as [to text w delay|to m w delay]; cbn [runDeferred delivered].
  - unfold sendTextWith. destruct w; repeat (progress (flow_unfold; rewrite ?Hr, ?Hc; cbn));
      rewrite ?outbound_app; cbn; rewrite ?app_nil_r; reflexivity.
  - unfold sendListMessageWith. destruct w, (validateMenuConfig m);
      repeat (progress (flow_unfold; rewrite ?Hr, ?Hc; cbn));
      rewrite ?outbound_app; cbn; rewrite ?app_nil_r; reflexivity.
Qed.

Lemma runAll_ready ds t c :
  ready c = true ->
  (runAll ds t c).1 = Ret tt /\
  ready (runAll ds t c).2 = true /\
  messageQueue (runAll ds t c).2 = messageQueue c /\
  state (runAll ds t c).2 = state c /\
  exists sents,
    outbound (wire (runAll ds t c).2) = outbound (wire c) ++ concat sents /\
    Forall2 handedFor ds sents /\
    (reliable (env c) -> concat sents = List.map delivered ds).
Proof.
  revert c. induction ds as [|d ds IH]; intros c Hr.
  - cbn. repeat split; [exact Hr|]. exists []. cbn. rewrite app_nil_r.
    repeat split. constructor.
  - cbn [runAll List.map]. unfold bind.
    destruct (runDeferred_steady d t c Hr) as ([b Hb] & Hr1 & Hq1 & Hs1 & He1).
    destruct (runDeferred_sent d t c Hr) as (sent1 & Hw1 & Hi1).
    pose proof (runDeferred_ready d t c Hr) as Hrel1.
    destruct (runDeferred d t c) as [r c1]. cbn [fst snd] in *. subst r.
    destruct (IH c1 Hr1) as (Hret & Hr2 & Hq2 & Hs2 & sents & Hw2 & Hi2 & Hrel2).
    rewrite Hret, Hr2, Hq2, Hs2, Hq1, Hs1. repeat split.
    exists (sent1 :: sents). cbn [concat]. split; [|split].
    + rewrite Hw2, Hw1, <- app_assoc. reflexivity.
    + constructor; assumption.
    + intros Hc. rewrite (Hrel2 ltac:(rewrite He1; exact Hc)).
      specialize (Hrel1 Hc). rewrite Hw1 in Hrel1. apply app_inv_head in Hrel1.
      rewrite Hrel1. reflexivity.
Qed.

Lemma setClient_run (t : Z) (c : Ctx) :
  (setClient t c).1 = Ret tt /\
  ready (setClient t c).2 = true /\
  messageQueue (setClient t c).2 = [] /\
  state (setClient t c).2 = state c /\
  exists sents,
    outbound (wire (setClient t c).2) = outbound (wire c) ++ concat sents /\
    Forall2 handedFor (messageQueue c) sents /\
    (reliable (env c) -> concat sents = List.map delivered (messageQueue c)).
Proof.
  unfold setClient, bind, gets, modify. cbn [fst snd].
  set (c0 := {| env := env c; state := state c; disk := disk c; timers := timers c;
                ready := true; wire := wire c; messageQueue := []; leads := leads c |}).
  exact (runAll_ready (messageQueue c) t c0 eq_refl).
Qed.

(** X19. When the client connects, the queue is run: it is empty
    afterwards, the service is ready and the state of the manager is
    untouched.  The sends that have waited are handed to the client in
    the order they were made, each to the formatted address it was
    meant for, a menu without rows as the text that asks to try again.
    With a client that takes the calls these are all the sends there
    are; after the call of a menu that the client does not take, the
    menu is sent as text besides, and nothing else is sent. *)
Theorem setClient_delivers_the_queue_in_order (t : Z) (c : Ctx) :
  (setClient t c).1 = Ret tt /\
  ready (setClient t c).2 = true /\
  messageQueue (setClient t c).2 = [] /\
  state (setClient t c).2 = state c /\
  exists sents,
    outbound (wire (setClient t c).2) = outbound (wire c) ++ concat sents /\
    Forall2 handedFor (messageQueue c) sents /\
    (reliable (env c) -> concat sents = List.map delivered (messageQueue c)).
Proof.
  unfold setClient, bind, gets, modify. cbn [fst snd].
  set (c0 := {| env := env c; state := state c; disk := disk c; timers := timers c;
                ready := true; wire := wire c; messageQueue := []; leads := leads c |}).
  exact (runAll_ready (messageQueue c) t c0 eq_refl).
Qed.

(** X20. A hand-off made while the client is disconnected loses the
    notification of the operator: it is neither sent nor queued.  The
    acknowledgment of the user waits in the queue, the bot is switched
    off and the session is in the hand-off flow all the same.  When the
    client connects, what is handed to it is what the queue held and
    then the acknowledgment; with a client that takes the calls these
    are all the sends, so the user is told that an attendant will
    follow and the operator hears nothing. *)
Theorem handoff_while_disconnected_drops_the_notification
    (from reason : string) (t t' : Z) (c : Ctx) :
  ready c = false ->
  let c1 := (transferToHuman from reason t c).2 in
  (transferToHuman from reason t c).1 = Ret true /\
  wire c1 = wire c /\
  messageQueue c1 = messageQueue c ++ [DeferText from TxtTransferAck true 1500] /\
  chatbot_is_on (state c1) = false /\
  (exists s, sessions (state c1) !! from = Some s /\ currentFlow s = "atendimento") /\
  exists sents,
    outbound (wire (setClient t' c1).2) = outbound (wire c) ++ concat sents /\
    Forall2 handedFor (messageQueue c ++ [DeferText from TxtTransferAck true 1500]) sents /\
    (reliable (env c) ->
     concat sents = List.map delivered (messageQueue c)
                    ++ [SendText (formatPhone from) TxtTransferAck]).
Proof.
  intros Hr c1.
  assert (Hrun : (transferToHuman from reason t c).1 = Ret true /\
                 wire c1 = wire c /\
                 messageQueue c1 = messageQueue c ++ [DeferText from TxtTransferAck true 1500] /\
                 env c1 = env c /\
                 state c1
                 = StateManager.updateUserSession t from
                     (flowStepData "atendimento" "transferido"
                        [("transferred_at", JNum t 0); ("reason", JStr reason)])
                     (StateManager.setBotOff (StateManager.getUserSession t from (state c)).2)).
  { subst c1. unfold transferToHuman, notifyBrokerTransfer. flow_unfold.
    destruct (StateManager.getUserSession t from (state c)) as [s st1].
    flow_steps Hr. repeat split. }
  destruct Hrun as (Hret & Hw & Hq & He & Hs).
  split; [exact Hret|]. split; [exact Hw|]. split; [exact Hq|].
  split; [rewrite Hs; apply updateUserSession_stats|]. split.
  - rewrite Hs.
    destruct (updateUserSession_lookup t from
                (flowStepData "atendimento" "transferido"
                   [("transferred_at", JNum t 0); ("reason", JStr reason)])
                (StateManager.setBotOff (StateManager.getUserSession t from (state c)).2))
      as (s & Hk & Hf & _).
    exists s. split; [exact Hk|exact Hf].
  - destruct (setClient_run t' c1) as (_ & _ & _ & _ & sents & Hout & Hint & Hrel).
    exists sents. rewrite Hw in Hout. rewrite Hq in Hint, Hrel.
    rewrite map_app in Hrel. cbn [List.map delivered] in Hrel.
    split; [exact Hout|]. split; [exact Hint|].
    intros Hc. apply Hrel. rewrite He. exact Hc.
Qed.

(** An instance: Maria asks for a person before the client of
    [Scenario.env0], which takes every call, has connected. *)
Lemma handoff_while_disconnected_drops_the_notification_witness :
  messageQueue (transferToHuman Scenario.maria reasonDefault 1000
                  {| env := Scenario.env0; state := defaultState 0;
                     disk := Missing; timers := []; ready := false;
                     wire := []; messageQueue := []; leads := [] |}).2
  = [DeferText Scenario.maria TxtTransferAck true 1500].
Proof.
  apply (handoff_while_disconnected_drops_the_notification Scenario.maria reasonDefault
           1000 2000
           {| env := Scenario.env0; state := defaultState 0;
              disk := Missing; timers := []; ready := false;
              wire := []; messageQueue := []; leads := [] |}).
  reflexivity.
Defined.

End ServiceProps.

(** ** flows/mainFlow.js: the switch of the bot *)

Module FlowProps.
Import Utils JSON Timers StateManager Runtime MenuService WhatsAppService Flows.
Import CacheSystem NormalForm ServiceInv RouterInv UtilsFacts JSONFacts RouterFacts ServiceProps.

#[local] Arguments isMenuCommand : simpl never.
#[local] Arguments isGreeting : simpl never.
#[local] Arguments isFarewell : simpl never.
#[local] Arguments isRequestingHuman : simpl never.
#[local] Arguments normalizeText : simpl never.
#[local] Arguments formatPhone : simpl never.
#[local] Arguments flows : simpl never.
#[local] Arguments timeoutDelay : simpl never.
#[local] Arguments userInputOf : simpl never.
#[local] Arguments welcomeMenu : simpl never.
#[local] Arguments brokerNumber : simpl never.
#[local] Arguments removeFirst : simpl never.
#[local] Arguments StateManager.getUserSession : simpl never.
#[local] Arguments StateManager.updateUserSession : simpl never.

(** *** Menu commands and the switch *)

Lemma startsWith_refl s : startsWith s s = true.
Proof. induction s as [|c s IH]; [reflexivity|]. cbn. rewrite Ascii.eqb_refl. exact IH. Qed.

Lemma includes_refl s : includes s s = true.
Proof. destruct s; [reflexivity|]. cbn [includes]. rewrite startsWith_refl. reflexivity. Qed.

(** The router tests the body and the global command tests the
    normalized body; for menu commands the two agree. *)
Lemma isMenuCommand_normalized body :
  isMenuCommand body = true -> isMenuCommand (normalizeText body) = true.
Proof.
  unfold isMenuCommand, some. intros H.
  apply existsb_exists in H as (cmd & Hin & Hcmd).
  apply existsb_exists. exists cmd. split; [exact Hin|].
  apply orb_true_intro. right.
  assert (Hinc : includes (normalizeText body) cmd = true).
  { apply orb_prop in Hcmd as [Heq|Hinc]; [|exact Hinc].
    apply String.eqb_eq in Heq. rewrite Heq. apply includes_refl. }
  apply includes_normalizeText_twice; [|exact Hinc].
  cbn in Hin. repeat (destruct Hin as [<-|Hin]; [reflexivity|]). destruct Hin.
Qed.

(** X21. A menu command is answered whatever the switch says: with
    the client connected and taking the calls, a new message whose body
    holds one switches the bot on, empties the data of the sender's
    session, leaves the session waiting for the choice of the welcome
    menu and sends that menu.  So any user ends a hand-off pause by
    writing "menu". *)
Theorem menu_command_switches_the_bot_on (message : Message) (w : World) :
  (isMessageProcessed (clock w) (msg_from message) (msg_id message) (cacheSystem w)).1
  = false ->
  ready (ctx w) = true ->
  reliable (env (ctx w)) ->
  isMenuCommand (msg_body message) = true ->
  (processMessage message w).1 = Ret true /\
  chatbot_is_on (state (ctx (processMessage message w).2)) = true /\
  (exists s,
     sessions (state (ctx (processMessage message w).2)) !! msg_from message = Some s /\
     currentFlow s = "welcome_response" /\
     currentStep s = "aguardando_escolha" /\
     data s = []) /\
  outbound (wire (ctx (processMessage message w).2))
  = outbound (wire (ctx w)) ++ [SendListMessage (formatPhone (msg_from message)) welcomeMenu].
Proof.
  intros Hnew Hr Hc Hcmd. pose proof (isMenuCommand_normalized _ Hcmd) as Hcmd'.
  destruct (processMessage_intercepted message w Hnew Hr Hc (or_intror Hcmd)
              (or_introl Hcmd'))
    as (Hret & _ & Hstate & Hout).
  split; [exact Hret|]. split; [|split; [|exact Hout]].
  - rewrite Hstate, Hcmd'.
    rewrite (proj2 (updateUserSession_stats _ _ _ _)).
    rewrite (proj2 (updateUserSession_stats _ _ _ _)). reflexivity.
  - exact (proj2 (menu_command_resets_session message w Hnew Hr Hc Hcmd Hcmd')).
Qed.

Lemma menu_command_switches_the_bot_on_witness :
  chatbot_is_on (state (ctx (processMessage (Scenario.chat "m7" Scenario.maria "Menu!")
                               (Scenario.withBot false Scenario.worldAtEmail)).2)) = true.
Proof.
  apply (menu_command_switches_the_bot_on (Scenario.chat "m7" Scenario.maria "Menu!")
           (Scenario.withBot false Scenario.worldAtEmail));
    [reflexivity|reflexivity|intros n; reflexivity|reflexivity].
Defined.

(** X22. The switch is one for all users.  After the hand-off of one
    user, a new message of any user that is not a menu command gets no
    answer: the router returns false, sends nothing and touches no
    session. *)
Theorem handoff_silences_the_bot_for_every_user
    (from reason : string) (t : Z) (c : Ctx) (message : Message) (w : World) :
  ctx w = (transferToHuman from reason t c).2 ->
  (isMessageProcessed (clock w) (msg_from message) (msg_id message) (cacheSystem w)).1
  = false ->
  isMenuCommand (msg_body message) = false ->
  chatbot_is_on (state (ctx w)) = false /\
  (processMessage message w).1 = Ret false /\
  outbound (wire (ctx (processMessage message w).2)) = outbound (wire (ctx w)) /\
  sessions (state (ctx (processMessage message w).2)) = sessions (state (ctx w)).
Proof.
  intros Hctx Hnew Hcmd.
  assert (Hoff : chatbot_is_on (state (ctx w)) = false).
  { rewrite Hctx. unfold transferToHuman, notifyBrokerTransfer. flow_unfold.
    destruct (StateManager.getUserSession t from (state c)) as [s st1].
    destruct (ready c) eqn:Hr; client_cases Hr;
      rewrite (proj2 (updateUserSession_stats _ _ _ _)); reflexivity. }
  split; [exact Hoff|].
  rewrite (processMessage_new _ _ Hnew). cbv zeta.
  unfold route, extractMessageInfo. cbn [info_from info_body info_id info_listResponse].
  flow_unfold. unfold StateManager.isBotActive, StateManager.incrementMessageCount.
  destruct (ready (ctx w)) eqn:Hr; cbn;
    [destruct (clientTakes (env (ctx w)) (length (wire (ctx w)))); cbn|];
    rewrite Hoff, Hcmd; cbn;
    unfold outbound; rewrite ?List.filter_app, ?app_nil_r; cbn; rewrite ?app_nil_r;
    repeat split; reflexivity.
Qed.

Lemma handoff_silences_the_bot_for_every_user_witness :
  (processMessage (Scenario.chat "m8" "5511888880000@c.us" "quero cotar um seguro")
     (withCtx (transferToHuman Scenario.maria reasonDefault 1000
                 (ctx Scenario.worldAtEmail)).2 Scenario.worldAtEmail)).1
  = Ret false.
Proof.
  apply (handoff_silences_the_bot_for_every_user Scenario.maria reasonDefault 1000
           (ctx Scenario.worldAtEmail)
           (Scenario.chat "m8" "5511888880000@c.us" "quero cotar um seguro")
           (withCtx (transferToHuman Scenario.maria reasonDefault 1000
                       (ctx Scenario.worldAtEmail)).2 Scenario.worldAtEmail));
    reflexivity.
Defined.

End FlowProps.

(** ** flows/mainFlow.js: what a message may change *)

Module FrameProps.
Import Utils JSON Timers StateManager Runtime MenuService WhatsAppService Flows.
Import FlowInv UtilsFacts JSONFacts RouterFacts StoreProps.

(** *** What a handler may change *)

Lemma extends_refl from c : extends from c c.
Proof. unfold extends. repeat split; reflexivity. Qed.

Lemma extends_trans from c1 c2 c3 :
  extends from c1 c2 -> extends from c2 c3 -> extends from c1 c3.
Proof.
  intros (He & Hd & Hr & Hs & Hm & Hu & Hw & Ht & Hq & Hl)
         (He' & Hd' & Hr' & Hs' & Hm' & Hu' & Hw' & Ht' & Hq' & Hl').
  unfold extends. repeat split; try congruence; try (etrans; eassumption).
  intros other Hne. rewrite (Hs' _ Hne). exact (Hs _ Hne).
Qed.

Lemma keeps_ret {A} from (a : A) : keeps from (ret a).
Proof. intros t c. apply extends_refl. Qed.

Lemma keeps_throw {A} from : keeps from (@throw A).
Proof. intros t c. apply extends_refl. Qed.

Lemma keeps_gets {A} from (f : Ctx -> A) : keeps from (gets f).
Proof. intros t c. apply extends_refl. Qed.

Lemma keeps_now from : keeps from Runtime.now.
Proof. intros t c. apply extends_refl. Qed.

Lemma keeps_bind {A B} from (m : M A) (k : A -> M B) :
  keeps from m -> (forall a, keeps from (k a)) -> keeps from (bind m k).
Proof.
  intros Hm Hk t c. unfold bind. specialize (Hm t c).
  destruct (m t c) as [[a|] c1]; cbn [snd] in *; [|exact Hm].
  exact (extends_trans _ _ _ _ Hm (Hk a t c1)).
Qed.

Lemma keeps_catch {A} from (m handler : M A) :
  keeps from m -> keeps from handler -> keeps from (catch m handler).
Proof.
  intros Hm Hh t c. unfold catch. specialize (Hm t c).
  destruct (m t c) as [[a|] c1]; cbn [snd] in *; [exact Hm|].
  exact (extends_trans _ _ _ _ Hm (Hh t c1)).
Qed.

Lemma keeps_modify from (f : Ctx -> Ctx) :
  (forall c, extends from c (f c)) -> keeps from (modify f).
Proof. intros H t c. apply H. Qed.

Ltac extends_field :=
  intros; unfold extends; cbn; repeat split; try reflexivity; try lia;
  try (eexists; reflexivity).

Lemma keeps_setTimeout from a ms : keeps from (setTimeout a ms).
Proof. intros t c. unfold setTimeout. flow_unfold. extends_field. Qed.

Lemma keeps_call from op : keeps from (call op).
Proof. intros t c. unfold call. flow_unfold. extends_field. Qed.

Lemma keeps_queueMessage from d : keeps from (queueMessage d).
Proof. intros t c. unfold queueMessage. flow_unfold. extends_field. Qed.

Lemma keeps_isServiceReady from : keeps from isServiceReady.
Proof. apply keeps_gets. Qed.

Lemma keeps_isBotActive from : keeps from Runtime.isBotActive.
Proof. apply keeps_gets. Qed.

Lemma keeps_enableBot from : keeps from Runtime.enableBot.
Proof. intros t c. unfold Runtime.enableBot. flow_unfold. extends_field. Qed.

Lemma keeps_disableBot from minutes : keeps from (Runtime.disableBot minutes).
Proof. intros t c. unfold Runtime.disableBot. flow_unfold. extends_field. Qed.

Lemma keeps_getUserSession from : keeps from (Runtime.getUserSession from).
Proof.
  intros t c. unfold Runtime.getUserSession.
  destruct (getUserSession_result t from (state c)) as (_ & Hs & _ & Hm & Hu).
  destruct (StateManager.getUserSession t from (state c)) as [s st1]. cbn [fst snd] in *.
  unfold extends. cbn. repeat split; try reflexivity.
  - intros other Hne. rewrite Hs. apply lookup_insert_ne. congruence.
  - exact Hm.
  - rewrite Hu. destruct (sessions (state c) !! from); lia.
Qed.

Lemma keeps_updateUserSession from u : keeps from (Runtime.updateUserSession from u).
Proof.
  intros t c. unfold Runtime.updateUserSession. flow_unfold.
  destruct (updateUserSession_result t from u (state c)) as (Hs & Hst & _).
  destruct (getUserSession_result t from (state c)) as (_ & _ & _ & Hm & Hu).
  unfold extends. cbn. repeat split; try reflexivity.
  - intros other Hne. rewrite Hs. apply lookup_insert_ne. congruence.
  - rewrite Hst. exact Hm.
  - rewrite Hst, Hu. destruct (sessions (state c) !! from); lia.
Qed.

Create HintDb frames.
#[local] Hint Resolve keeps_ret keeps_throw keeps_gets keeps_now keeps_setTimeout keeps_call
  keeps_queueMessage keeps_isServiceReady keeps_isBotActive keeps_enableBot
  keeps_disableBot keeps_getUserSession keeps_updateUserSession : frames.

(** A flow is taken apart along its binds and its branches. *)
Ltac frame :=
  cbv zeta;
  repeat first
    [ solve [auto with frames]
    | apply keeps_bind; [|intros ?]
    | apply keeps_catch
    | match goal with
      | |- keeps _ (if ?b then _ else _) => destruct b
      | |- keeps _ (match ?x with _ => _ end) => destruct x
      end ].

Lemma keeps_sendTyping from to duration : keeps from (sendTyping to duration).
Proof. unfold sendTyping. frame. Qed.
#[local] Hint Resolve keeps_sendTyping : frames.

Lemma keeps_sendTextWith from to text w delay : keeps from (sendTextWith to text w delay).
Proof. unfold sendTextWith. frame. Qed.
#[local] Hint Resolve keeps_sendTextWith : frames.

Lemma keeps_sendText from to text : keeps from (sendText to text).
Proof. unfold sendText. frame. Qed.
#[local] Hint Resolve keeps_sendText : frames.

Lemma keeps_sendListMessageWith from to m w delay :
  keeps from (sendListMessageWith to m w delay).
Proof. unfold sendListMessageWith. frame. Qed.
#[local] Hint Resolve keeps_sendListMessageWith : frames.

Lemma keeps_sendListMessage from to m : keeps from (sendListMessage to m).
Proof. unfold sendListMessage. frame. Qed.
#[local] Hint Resolve keeps_sendListMessage : frames.

Lemma keeps_markAsRead from id : keeps from (markAsRead id).
Proof. unfold markAsRead. frame. Qed.
#[local] Hint Resolve keeps_markAsRead : frames.

Lemma keeps_notifyBrokerTransfer from n k r : keeps from (notifyBrokerTransfer n k r).
Proof. unfold notifyBrokerTransfer. frame. Qed.
#[local] Hint Resolve keeps_notifyBrokerTransfer : frames.

Lemma keeps_member from v key : keeps from (member v key).
Proof. unfold member. frame. Qed.
#[local] Hint Resolve keeps_member : frames.

Lemma keeps_salvarCotacaoCSV from who cotacao : keeps from (salvarCotacaoCSV who cotacao).
Proof. intros t c. unfold salvarCotacaoCSV. flow_unfold. extends_field. Qed.
#[local] Hint Resolve keeps_salvarCotacaoCSV : frames.

Lemma keeps_salvarCotacaoGoogleSheets from who cotacao :
  keeps from (salvarCotacaoGoogleSheets who cotacao).
Proof.
  unfold salvarCotacaoGoogleSheets. frame.
  intros t c. flow_unfold. extends_field.
Qed.
#[local] Hint Resolve keeps_salvarCotacaoGoogleSheets : frames.
Lemma keeps_sendMainMenu from : keeps from (sendMainMenu from).
Proof. unfold sendMainMenu. frame. Qed.
#[local] Hint Resolve keeps_sendMainMenu : frames.

Lemma keeps_transferToHuman from reason : keeps from (transferToHuman from reason).
Proof. unfold transferToHuman. frame. Qed.
#[local] Hint Resolve keeps_transferToHuman : frames.

Lemma keeps_handleFinalization from input : keeps from (handleFinalization from input).
Proof. unfold handleFinalization. frame. Qed.
#[local] Hint Resolve keeps_handleFinalization : frames.

Lemma keeps_solicitarNome from : keeps from (solicitarNome from).
Proof. unfold solicitarNome. frame. Qed.
#[local] Hint Resolve keeps_solicitarNome : frames.

Lemma keeps_solicitarEmail from : keeps from (solicitarEmail from).
Proof. unfold solicitarEmail. frame. Qed.
#[local] Hint Resolve keeps_solicitarEmail : frames.

Lemma keeps_solicitarCPF from : keeps from (solicitarCPF from).
Proof. unfold solicitarCPF. frame. Qed.
#[local] Hint Resolve keeps_solicitarCPF : frames.

Lemma keeps_solicitarDadosVeiculo from : keeps from (solicitarDadosVeiculo from).
Proof. unfold solicitarDadosVeiculo. frame. Qed.
#[local] Hint Resolve keeps_solicitarDadosVeiculo : frames.

Lemma keeps_start from : keeps from (start from).
Proof. unfold start. frame. Qed.
#[local] Hint Resolve keeps_start : frames.

Lemma keeps_forceRestart from : keeps from (forceRestart from).
Proof. unfold forceRestart. frame. Qed.
#[local] Hint Resolve keeps_forceRestart : frames.

Lemma keeps_mostrarResumo from d : keeps from (mostrarResumo from d).
Proof. unfold mostrarResumo. frame. Qed.
#[local] Hint Resolve keeps_mostrarResumo : frames.

Lemma keeps_avancarParaProximoPasso from d : keeps from (avancarParaProximoPasso from d).
Proof. unfold avancarParaProximoPasso. frame. Qed.
#[local] Hint Resolve keeps_avancarParaProximoPasso : frames.

Lemma keeps_handleTipoSeguro from input session : keeps from (handleTipoSeguro from input session).
Proof. unfold handleTipoSeguro. frame. Qed.
#[local] Hint Resolve keeps_handleTipoSeguro : frames.

Lemma keeps_handleColetaNome from input session : keeps from (handleColetaNome from input session).
Proof. unfold handleColetaNome. frame. Qed.
#[local] Hint Resolve keeps_handleColetaNome : frames.

Lemma keeps_oferecerContinuacao from : keeps from (oferecerContinuacao from).
Proof. unfold oferecerContinuacao. frame. Qed.
#[local] Hint Resolve keeps_oferecerContinuacao : frames.

Lemma keeps_handleContinuacao from input session : keeps from (handleContinuacao from input session).
Proof. unfold handleContinuacao. frame. Qed.
#[local] Hint Resolve keeps_handleContinuacao : frames.

Lemma keeps_handleColetaEmail from input session : keeps from (handleColetaEmail from input session).
Proof. unfold handleColetaEmail. frame. Qed.
#[local] Hint Resolve keeps_handleColetaEmail : frames.

Lemma keeps_handleColetaCPF from input session : keeps from (handleColetaCPF from input session).
Proof. unfold handleColetaCPF. frame. Qed.
#[local] Hint Resolve keeps_handleColetaCPF : frames.

Lemma keeps_handleDadosVeiculo from input session : keeps from (handleDadosVeiculo from input session).
Proof. unfold handleDadosVeiculo. frame. Qed.
#[local] Hint Resolve keeps_handleDadosVeiculo : frames.

Lemma keeps_handleColetaPlacaChassi from input session : keeps from (handleColetaPlacaChassi from input session).
Proof. unfold handleColetaPlacaChassi. frame. Qed.
#[local] Hint Resolve keeps_handleColetaPlacaChassi : frames.

Lemma keeps_handleColetaCepPernoite from input session : keeps from (handleColetaCepPernoite from input session).
Proof. unfold handleColetaCepPernoite. frame. Qed.
#[local] Hint Resolve keeps_handleColetaCepPernoite : frames.

Lemma keeps_handleResumo from input session : keeps from (handleResumo from input session).
Proof. unfold handleResumo. frame. Qed.
#[local] Hint Resolve keeps_handleResumo : frames.

Lemma keeps_handleFinalizado from input session : keeps from (handleFinalizado from input session).
Proof. unfold handleFinalizado. frame. Qed.
#[local] Hint Resolve keeps_handleFinalizado : frames.

Lemma keeps_handleDadosIniciais from input session : keeps from (handleDadosIniciais from input session).
Proof. unfold handleDadosIniciais. frame. Qed.
#[local] Hint Resolve keeps_handleDadosIniciais : frames.

Lemma keeps_steps from step h input session :
  steps step = Some h -> keeps from (h from input session).
Proof.
  unfold steps. repeat case_match; intros [= <-]; auto with frames.
Qed.

Lemma keeps_processInput from input : keeps from (processInput from input).
Proof.
  unfold processInput. apply keeps_catch; [|frame].
  apply keeps_bind; [frame|intros session]. cbv zeta.
  destruct (steps _) eqn:E; [exact (keeps_steps _ _ _ _ _ E)|frame].
Qed.
#[local] Hint Resolve keeps_processInput : frames.

Lemma keeps_sendWelcome from : keeps from (sendWelcome from).
Proof. unfold sendWelcome. frame. Qed.
#[local] Hint Resolve keeps_sendWelcome : frames.

Lemma keeps_handleGlobalCommands from body : keeps from (handleGlobalCommands from body).
Proof. unfold handleGlobalCommands. frame. Qed.
#[local] Hint Resolve keeps_handleGlobalCommands : frames.

Lemma keeps_handleWelcome from input session : keeps from (handleWelcome from input session).
Proof. unfold handleWelcome. frame. Qed.
#[local] Hint Resolve keeps_handleWelcome : frames.

Lemma keeps_handleWelcomeResponse from input session : keeps from (handleWelcomeResponse from input session).
Proof. unfold handleWelcomeResponse. frame. Qed.
#[local] Hint Resolve keeps_handleWelcomeResponse : frames.

Lemma keeps_sendCotacaoMenu from : keeps from (sendCotacaoMenu from).
Proof. unfold sendCotacaoMenu. frame. Qed.
#[local] Hint Resolve keeps_sendCotacaoMenu : frames.

Lemma keeps_sendRenovacaoMenu from : keeps from (sendRenovacaoMenu from).
Proof. unfold sendRenovacaoMenu. frame. Qed.
#[local] Hint Resolve keeps_sendRenovacaoMenu : frames.

Lemma keeps_sendSinistroMenu from : keeps from (sendSinistroMenu from).
Proof. unfold sendSinistroMenu. frame. Qed.
#[local] Hint Resolve keeps_sendSinistroMenu : frames.

Lemma keeps_sendSeguradorasMenu from : keeps from (sendSeguradorasMenu from).
Proof. unfold sendSeguradorasMenu. frame. Qed.
#[local] Hint Resolve keeps_sendSeguradorasMenu : frames.

Lemma keeps_handleInvalidOption from : keeps from (handleInvalidOption from).
Proof. unfold handleInvalidOption. frame. Qed.
#[local] Hint Resolve keeps_handleInvalidOption : frames.

Lemma keeps_handleMainMenu from input session : keeps from (handleMainMenu from input session).
Proof. unfold handleMainMenu. frame. Qed.
#[local] Hint Resolve keeps_handleMainMenu : frames.

Lemma keeps_handleCotacao from input session : keeps from (handleCotacao from input session).
Proof. unfold handleCotacao. frame. Qed.
#[local] Hint Resolve keeps_handleCotacao : frames.

Lemma keeps_handleRenovacao from input session : keeps from (handleRenovacao from input session).
Proof. unfold handleRenovacao. frame. Qed.
#[local] Hint Resolve keeps_handleRenovacao : frames.

Lemma keeps_handleSinistro from input session : keeps from (handleSinistro from input session).
Proof. unfold handleSinistro. frame. Qed.
#[local] Hint Resolve keeps_handleSinistro : frames.

Lemma keeps_handleSeguradoras from input session : keeps from (handleSeguradoras from input session).
Proof. unfold handleSeguradoras. frame. Qed.
#[local] Hint Resolve keeps_handleSeguradoras : frames.

Lemma keeps_handleSeguradoraInfo from input session : keeps from (handleSeguradoraInfo from input session).
Proof. unfold handleSeguradoraInfo. frame. Qed.
#[local] Hint Resolve keeps_handleSeguradoraInfo : frames.

Lemma keeps_handleAtendimento from input session : keeps from (handleAtendimento from input session).
Proof. unfold handleAtendimento. frame. Qed.
#[local] Hint Resolve keeps_handleAtendimento : frames.

Lemma keeps_handleUnknownFlow from : keeps from (handleUnknownFlow from).
Proof. unfold handleUnknownFlow. frame. Qed.
#[local] Hint Resolve keeps_handleUnknownFlow : frames.

Lemma keeps_handleError from : keeps from (handleError from).
Proof. unfold handleError. frame. Qed.
#[local] Hint Resolve keeps_handleError : frames.

Lemma keeps_flows from flow h input session :
  flows flow = Some h -> keeps from (h from input session).
Proof.
  unfold flows. repeat case_match; intros [= <-]; auto with frames.
Qed.


Lemma keeps_route info : keeps (info_from info) (route info).
Proof.
  unfold route. cbv zeta. apply keeps_bind; [frame|intros active].
  destruct (_ && _); [frame|].
  apply keeps_bind; [frame|intros handled]. destruct handled; [frame|].
  apply keeps_bind; [frame|intros session].
  apply keeps_bind; [frame|intros _].
  destruct (flows _) eqn:E; [exact (keeps_flows _ _ _ _ _ E)|frame].
Qed.

Lemma extends_counted from c c' :
  extends from c c' -> extends from (counted c) (counted c').
Proof.
  intros (He & Hd & Hr & Hs & Hm & Hu & Hw & Ht & Hq & Hl).
  unfold extends, counted. cbn. repeat split; try assumption. lia.
Qed.

Lemma counted_then from (a r h : M bool) t c :
  keeps from a -> (exists b, (a t c).1 = Ret b) -> keeps from r -> keeps from h ->
  extends from (counted c) (catch (a ;;; incrementMessageCount ;;; r)%flow h t c).2.
Proof.
  intros Ha [b Hb] Hr Hh. unfold catch, bind, incrementMessageCount, modify.
  specialize (Ha t c). destruct (a t c) as [[b'|] c1]; [|discriminate].
  cbn [fst snd] in *. fold (counted c1).
  apply extends_counted in Ha. specialize (Hr t (counted c1)).
  destruct (r t (counted c1)) as [[b2|] c2]; cbn [snd] in *.
  - exact (extends_trans _ _ _ _ Ha Hr).
  - exact (extends_trans _ _ _ _ Ha (extends_trans _ _ _ _ Hr (Hh t c2))).
Qed.

(** The context a message leaves behind extends the one it found, once
    the message is counted; a duplicate leaves the context as it was. *)
Lemma processMessage_extends message w :
  extends (msg_from message)
    (if (CacheSystem.isMessageProcessed (clock w) (msg_from message)
           (msg_id message) (cacheSystem w)).1
     then ctx w else counted (ctx w))
    (ctx (processMessage message w).2).
Proof.
  unfold processMessage. cbn [extractMessageInfo info_from info_id].
  destruct (CacheSystem.isMessageProcessed _ _ _ _) as [seen cache1]. cbn [fst].
  destruct seen; [apply extends_refl|].
  pose proof (counted_then (msg_from message) (markAsRead (msg_id message))
    (route (extractMessageInfo message)) (handleError (msg_from message))
    (clock w) (ctx w) (keeps_markAsRead _ _) (markAsRead_returns _ _ _)
    (keeps_route (extractMessageInfo message)) (keeps_handleError _)) as H.
  destruct (catch _ _ _ _) as [r c]. exact H.
Qed.

(** X23. Handling a message reads and writes no session but the sender's:
    whatever the message and the state of the system, the session kept
    for any other number is afterwards exactly what it was before. *)
Theorem a_message_touches_only_the_senders_session message w other :
  other <> msg_from message ->
  sessions (state (ctx (processMessage message w).2)) !! other
  = sessions (state (ctx w)) !! other.
Proof.
  intros Hne. destruct (processMessage_extends message w) as (_ & _ & _ & Hs & _).
  rewrite (Hs _ Hne). destruct (CacheSystem.isMessageProcessed _ _ _ _).1; reflexivity.
Qed.

(** An instance: Maria greets the bot while Joana is known to it. *)
Lemma a_message_touches_only_the_senders_session_witness :
  sessions (state (ctx (processMessage (Scenario.chat "m1" "5511911110000@c.us" "oi")
                          Scenario.worldAtEmail).2)) !! Scenario.maria
  = sessions (state (ctx Scenario.worldAtEmail)) !! Scenario.maria.
Proof.
  apply (a_message_touches_only_the_senders_session
           (Scenario.chat "m1" "5511911110000@c.us" "oi") Scenario.worldAtEmail
           Scenario.maria).
  discriminate.
Defined.

(** X24. Handling a message never writes the state file and never changes
    the configuration or the connection flag; the calls made on the
    client, the timers set, the queued messages and the saved leads are
    only added to, never withdrawn or reordered. *)
Theorem a_message_only_adds_to_the_logs message w :
  disk (ctx (processMessage message w).2) = disk (ctx w) /\
  env (ctx (processMessage message w).2) = env (ctx w) /\
  ready (ctx (processMessage message w).2) = ready (ctx w) /\
  wire (ctx w) `prefix_of` wire (ctx (processMessage message w).2) /\
  timers (ctx w) `prefix_of` timers (ctx (processMessage message w).2) /\
  messageQueue (ctx w) `prefix_of` messageQueue (ctx (processMessage message w).2) /\
  leads (ctx w) `prefix_of` leads (ctx (processMessage message w).2).
Proof.
  destruct (processMessage_extends message w)
    as (He & Hd & Hr & _ & _ & _ & Hw & Ht & Hq & Hl).
  destruct (CacheSystem.isMessageProcessed _ _ _ _).1; cbn in *; auto 10.
Qed.

(** X25. Every message that is not a duplicate is counted exactly once,
    whatever becomes of it afterwards (dropped because the bot is off,
    answered, or ending in the error reply); a duplicate is not
    counted. *)
Theorem each_new_message_is_counted_once message w :
  total_messages (stats (state (ctx (processMessage message w).2)))
  = total_messages (stats (state (ctx w)))
    + (if (CacheSystem.isMessageProcessed (clock w) (msg_from message)
             (msg_id message) (cacheSystem w)).1 then 0 else 1).
Proof.
  destruct (processMessage_extends message w) as (_ & _ & _ & _ & Hm & _).
  rewrite Hm. destruct (CacheSystem.isMessageProcessed _ _ _ _).1; cbn; lia.
Qed.

End FrameProps.

(** ** flows/cotacaoFlow.js: the intake of the tax id *)

Module IntakeProps.
Import Utils JSON Timers StateManager Runtime MenuService WhatsAppService Flows.
Import FlowInv UtilsFacts JSONFacts RouterFacts UtilsProps StoreProps.

(** *** What the intake of the tax id stores *)

Lemma obj_get_set key value members :
  obj_get key (obj_set key value members) = Some value.
Proof.
  induction members as [|[k v] rest IH]; cbn.
  - rewrite String.eqb_refl. reflexivity.
  - destruct (String.eqb k key) eqn:E; cbn; rewrite E; [reflexivity|exact IH].
Qed.

(** The session kept for [from] after an update carries the data and
    the step of the update. *)
Lemma updateUserSession_stepData from step d t c :
  exists s,
    sessions (state (Runtime.updateUserSession from (stepData step d) t c).2) !! from = Some s
    /\ currentStep s = step /\ data s = d.
Proof.
  unfold Runtime.updateUserSession. flow_unfold.
  destruct (updateUserSession_result t from (stepData step d) (state c)) as (Hs & _).
  cbn [snd state withState]. rewrite Hs, lookup_insert_eq. eexists. split; [reflexivity|].
  split; reflexivity.
Qed.

Lemma isValidCPF_eleven s : isValidCPF s = true -> len (filterChars isDigit s) = 11.
Proof.
  unfold isValidCPF. destruct (isEmpty s); [discriminate|]. cbv zeta.
  destruct (len (filterChars isDigit s) =? 11) eqn:E; [lia|discriminate].
Qed.

Lemma memberOpt_withCotacao d key value :
  memberOpt (obj_get "cotacao" (withCotacao d [(key, value)])) key = Some value.
Proof.
  unfold withCotacao. rewrite obj_get_set. cbn [memberOpt fold_left fst snd].
  apply obj_get_set.
Qed.

(** X26. The intake of the tax id stores nothing but a valid id, and stores
    it bare: when the answer (which does not ask to go back) passes the
    check, the session of the sender moves to the step that asks for the
    kind of insurance and its quote holds the eleven digits of the
    answer, punctuation removed, which themselves pass the check; when
    the answer fails the check, the state of the bot is left as it was. *)
Theorem handleColetaCPF_stores_the_bare_valid_id from input session t c :
  asksBack input (normalizeText input) = false ->
  if isValidCPF (trim input)
  then exists s,
         sessions (state (handleColetaCPF from input session t c).2) !! from = Some s
         /\ currentStep s = "tipo_seguro"
         /\ memberOpt (obj_get "cotacao" (data s)) "cpf"
            = Some (JStr (filterChars isDigit (trim input)))
         /\ len (filterChars isDigit (trim input)) = 11
         /\ isValidCPF (filterChars isDigit (trim input)) = true
  else state (handleColetaCPF from input session t c).2 = state c.
Proof.
  intros Hback. unfold handleColetaCPF. cbv zeta. rewrite Hback.
  destruct (isValidCPF (trim input)) eqn:Hv; cbn [negb].
  - set (d := withCotacao _ _).
    destruct (updateUserSession_stepData from "tipo_seguro" d t c) as (s & Hs & Hstep & Hd).
    exists s. split; [|split; [exact Hstep|split; [|split]]].
    + unfold bind at 1.
      destruct (Runtime.updateUserSession from (stepData "tipo_seguro" d) t c)
        as [[[]|] c1] eqn:E; cbn [snd] in Hs |- *.
      * assert (Hq : quiet (bind (sendText from TxtCpfConfirmed)
                              (fun _ => sendListMessage from cotacaoMenu))) by hush.
        rewrite (Hq t c1). exact Hs.
      * exact Hs.
    + rewrite Hd. apply memberOpt_withCotacao.
    + apply isValidCPF_eleven. exact Hv.
    + rewrite <- isValidCPF_digits. exact Hv.
  - assert (Hq : quiet (bind (sendText from TxtCpfInvalid) (fun _ => ret false))) by hush.
    apply Hq.
Qed.

(** An instance: Maria answers with a punctuated id. *)
Lemma handleColetaCPF_stores_the_bare_valid_id_witness :
  if isValidCPF (trim "529.982.247-25")
  then exists s,
         sessions (state (handleColetaCPF Scenario.maria "529.982.247-25"
                            Scenario.mariaAtEmail 1000 Scenario.ctx0).2) !! Scenario.maria
         = Some s
         /\ currentStep s = "tipo_seguro"
         /\ memberOpt (obj_get "cotacao" (data s)) "cpf"
            = Some (JStr (filterChars isDigit (trim "529.982.247-25")))
         /\ len (filterChars isDigit (trim "529.982.247-25")) = 11
         /\ isValidCPF (filterChars isDigit (trim "529.982.247-25")) = true
  else state (handleColetaCPF Scenario.maria "529.982.247-25"
                Scenario.mariaAtEmail 1000 Scenario.ctx0).2 = state Scenario.ctx0.
Proof.
  apply (handleColetaCPF_stores_the_bare_valid_id Scenario.maria "529.982.247-25"
           Scenario.mariaAtEmail 1000 Scenario.ctx0).
  reflexivity.
Defined.

End IntakeProps.

(** ** services/menuService.js: the rows of a menu *)

Module MenuProps.
Import Utils JSON Timers StateManager Runtime MenuService WhatsAppService Flows.
Import UtilsFacts JSONFacts.

Lemma leadingDigits_digits s : allChars isDigit s = true -> leadingDigits s = s.
Proof.
  induction s as [|c s IH]; [reflexivity|]. cbn. intros [Hc Hs]%andb_prop.
  rewrite Hc, (IH Hs). reflexivity.
Qed.

(** The option a row id names is found again, whatever its number. *)
Lemma matchOption_integer n :
  0 <= n -> matchOption ("option_" +:+ integer n) = Some (integer n).
Proof.
  intros Hn. unfold integer. replace (n <? 0) with false by lia.
  destruct (natural_spec n Hn) as (Hall & Hne & _).
  change ("option_" +:+ natural n)
    with (String "o" (String "p" (String "t" (String "i" (String "o" (String "n"
           (String "_" (natural n)))))))).
  cbn [matchOption startsWith dropChars]. cbn [Ascii.eqb Bool.eqb andb].
  rewrite startsWith_empty, (leadingDigits_digits _ Hall), Hne. reflexivity.
Qed.

Lemma selectSeguradora_option segs n normalized :
  1 <= n ->
  selectSeguradora segs ("option_" +:+ integer n) normalized = segs !! Z.to_nat (n - 1).
Proof.
  intros Hn. unfold selectSeguradora. rewrite matchOption_integer by lia.
  unfold integer. replace (n <? 0) with false by lia.
  destruct (natural_spec n ltac:(lia)) as (_ & _ & -> & _). cbv zeta.
  destruct (n - 1 <? Z.of_nat (length segs)) eqn:E.
  - replace (0 <=? n - 1) with true by lia. reflexivity.
  - rewrite andb_false_r. symmetry. apply lookup_ge_None. lia.
Qed.

Lemma generateMenu_row name keys i row :
  menu_rows (generateMenu name keys) !! i = Some row ->
  row_id row = "option_" +:+ integer (Z.of_nat i + 1).
Proof.
  unfold generateMenu. cbn [menu_rows]. rewrite list_lookup_imap.
  destruct (keys !! i); [|discriminate]. cbn. intros [= <-]. reflexivity.
Qed.

(** X27. The row a user picks in the list of insurers selects the insurer
    shown in that row: the reply to row [i] of the menu (counted from
    0) selects the [i]-th configured insurer.  The last row, the one
    that offers to go back, lies past the configured insurers and
    selects none. *)
Theorem picked_row_selects_its_insurer e i row message :
  menu_rows (seguradorasMenu e) !! i = Some row ->
  msg_type message = "list_response" ->
  msg_list_response message = Some {| lr_id := row_id row; lr_rowId := row_rowId row |} ->
  selectSeguradora (seguradoras e) (userInputOf (extractMessageInfo message))
    (normalizeText (userInputOf (extractMessageInfo message)))
  = seguradoras e !! i.
Proof.
  intros Hrow Htype Hlr. apply generateMenu_row in Hrow.
  assert (Hin : userInputOf (extractMessageInfo message) = row_id row).
  { unfold userInputOf, extractMessageInfo, processListResponse.
    cbn [info_listResponse info_body]. rewrite Htype, Hlr. cbn [String.eqb Ascii.eqb Bool.eqb].
    cbn [lr_id lr_rowId]. rewrite Hrow.
    change ("option_" +:+ integer (Z.of_nat i + 1))
      with (String "o" ("ption_" +:+ integer (Z.of_nat i + 1))).
    reflexivity. }
  rewrite Hin, Hrow, selectSeguradora_option by lia.
  f_equal. lia.
Qed.

(** An instance: the second row of the menu of two insurers. *)
Lemma picked_row_selects_its_insurer_witness :
  selectSeguradora (seguradoras Scenario.env0)
    (userInputOf (extractMessageInfo
       {| msg_id := "m1"; msg_from := Scenario.maria; msg_body := "";
          msg_type := "list_response";
          msg_list_response := Some {| lr_id := "option_2"; lr_rowId := "option_2_allianz" |};
          msg_button_response := None |}))
    (normalizeText (userInputOf (extractMessageInfo
       {| msg_id := "m1"; msg_from := Scenario.maria; msg_body := "";
          msg_type := "list_response";
          msg_list_response := Some {| lr_id := "option_2"; lr_rowId := "option_2_allianz" |};
          msg_button_response := None |})))
  = seguradoras Scenario.env0 !! 1%nat.
Proof.
  apply (picked_row_selects_its_insurer Scenario.env0 1%nat
           {| row_id := "option_2"; row_rowId := "option_2_allianz" |}); reflexivity.
Defined.

End MenuProps.

(** ** services/csvService.js: the file of leads *)

Module CsvProps.
Import Utils CsvService CsvText UtilsFacts JSONFacts.

Lemma isEmpty_trimEnd_head c r : isSpace c = false -> isEmpty (trimEnd (String c r)) = false.
Proof. intros H. cbn [trimEnd]. rewrite H. reflexivity. Qed.

Lemma isEmpty_trim s : isEmpty (trim s) = allChars isSpace s.
Proof.
  unfold trim. induction s as [|c s IH]; [reflexivity|].
  cbn [trimStart allChars]. destruct (isSpace c) eqn:E; [exact IH|].
  apply isEmpty_trimEnd_head. exact E.
Qed.

Lemma splitOn_nonempty sep s : splitOn sep s <> [].
Proof.
  destruct s as [|c s]; [discriminate|]. cbn.
  destruct (Ascii.eqb c sep); [discriminate|]. destruct (splitOn sep s); discriminate.
Qed.

Lemma splitOn_plain sep a :
  allChars (fun c => negb (Ascii.eqb c sep)) a = true -> splitOn sep a = [a].
Proof.
  induction a as [|c a IH]; [reflexivity|]. cbn. intros [Hc Ha]%andb_prop.
  apply negb_true_iff in Hc. rewrite Hc, (IH Ha). reflexivity.
Qed.

Lemma splitOn_append sep a rest :
  allChars (fun c => negb (Ascii.eqb c sep)) a = true ->
  splitOn sep (a +:+ String sep rest) = a :: splitOn sep rest.
Proof.
  induction a as [|c a IH]; intros Ha.
  - rewrite append_nil_l. cbn. rewrite Ascii.eqb_refl. reflexivity.
  - cbn in Ha. apply andb_prop in Ha as [Hc Ha]. apply negb_true_iff in Hc.
    rewrite append_cons. cbn [splitOn]. rewrite Hc, (IH Ha). reflexivity.
Qed.

Lemma plain_semicolon a :
  allChars plain a = true -> allChars (fun c => negb (Ascii.eqb c semicolon)) a = true.
Proof.
  induction a as [|c a IH]; [reflexivity|]. cbn. unfold plain at 1.
  intros [Hc Ha]%andb_prop. rewrite (IH Ha), andb_true_r.
  apply negb_true_iff in Hc. apply orb_false_elim in Hc as [-> _]. reflexivity.
Qed.

Lemma plain_LF a :
  allChars plain a = true -> allChars (fun c => negb (Ascii.eqb c LF)) a = true.
Proof.
  induction a as [|c a IH]; [reflexivity|]. cbn. unfold plain at 1.
  intros [Hc Ha]%andb_prop. rewrite (IH Ha), andb_true_r.
  apply negb_true_iff in Hc. apply orb_false_elim in Hc as [_ ->]. reflexivity.
Qed.

(** What the sanitization is for: no separator and no line end is left
    in a field. *)
Lemma sanitizeCSVField_plain s : allChars plain (sanitizeCSVField s) = true.
Proof.
  unfold sanitizeCSVField, trim. apply allChars_trimEnd, allChars_trimStart.
  induction s as [|c s IH]; [reflexivity|]. cbn [mapChars allChars]. rewrite IH, andb_true_r.
  destruct c as [[] [] [] [] [] [] [] []]; reflexivity.
Qed.

Lemma allChars_append p a b : allChars p (a +:+ b) = allChars p a && allChars p b.
Proof.
  induction a as [|c a IH]; [rewrite append_nil_l; reflexivity|].
  rewrite append_cons. cbn [allChars]. rewrite IH, andb_assoc. reflexivity.
Qed.

Lemma append_middle a c b : (a +:+ String c "") +:+ b = a +:+ String c b.
Proof. induction a as [|x a IH]; [reflexivity|]. rewrite !append_cons, IH. reflexivity. Qed.

Lemma splitOn_joined fields :
  fields <> [] ->
  Forall (fun campo => allChars plain campo = true) fields ->
  splitOn semicolon (joined fields) = fields.
Proof.
  intros Hne H. induction H as [|a rest Ha Hrest IH]; [congruence|].
  destruct rest as [|b rest].
  - cbn [joined]. apply splitOn_plain, plain_semicolon, Ha.
  - change (joined (a :: b :: rest))
      with (a +:+ String semicolon "" +:+ joined (b :: rest)).
    rewrite append_cons, append_nil_l, splitOn_append by apply plain_semicolon, Ha.
    rewrite IH by discriminate. reflexivity.
Qed.

Lemma joined_LF fields :
  Forall (fun campo => allChars plain campo = true) fields ->
  allChars (fun c => negb (Ascii.eqb c LF)) (joined fields) = true.
Proof.
  induction 1 as [|a rest Ha Hrest IH]; [reflexivity|].
  destruct rest as [|b rest]; [apply plain_LF, Ha|].
  change (joined (a :: b :: rest))
    with (a +:+ String semicolon "" +:+ joined (b :: rest)).
  rewrite !allChars_append, IH, (plain_LF _ Ha). reflexivity.
Qed.

Lemma linhaCsv_joined r : linhaCsv r = joined (campos r) +:+ String LF "".
Proof.
  unfold linhaCsv, campos. cbv zeta. cbn [joined]. rewrite !append_assoc. reflexivity.
Qed.

(** A line of the file is never blank: it holds its nine separators. *)
Lemma joined_not_blank r : isEmpty (trim (joined (campos r))) = false.
Proof.
  rewrite isEmpty_trim. unfold campos. cbv zeta. cbn [joined].
  rewrite allChars_append, append_cons. cbn [allChars].
  change (isSpace semicolon) with false. apply andb_false_r.
Qed.

Lemma lerLinha_joined r : clean r -> lerLinha (joined (campos r)) = r.
Proof.
  intros H. unfold lerLinha. cbv zeta. rewrite splitOn_joined by (auto || discriminate).
  destruct r as [d []]. reflexivity.
Qed.

Lemma splitOn_texto rs :
  Forall clean rs ->
  splitOn LF (texto rs) = List.map (fun r => joined (campos r)) rs ++ [""].
Proof.
  induction 1 as [|r rs Hr Hrs IH]; [reflexivity|].
  cbn [texto List.map app]. rewrite linhaCsv_joined, append_assoc, append_cons, append_nil_l.
  rewrite splitOn_append by apply joined_LF, Hr. rewrite IH. reflexivity.
Qed.

Lemma salvarTodos_texto entradas conteudo :
  salvarTodos entradas (Some conteudo)
  = Some (conteudo +:+ texto (List.map registro entradas)).
Proof.
  unfold salvarTodos. revert conteudo.
  induction entradas as [|e entradas IH]; intros conteudo.
  - cbn. rewrite append_nil_r. reflexivity.
  - cbn [fold_left List.map texto salvarLead snd appendFileSync].
    rewrite IH, append_assoc. reflexivity.
Qed.

Lemma registro_clean e : allChars plain (fst e) = true -> clean (registro e).
Proof.
  intros H. unfold clean, campos, registro, limpar. cbn.
  repeat constructor; try exact H; apply sanitizeCSVField_plain.
Qed.

Lemma filter_lines rs :
  List.filter (fun linha => negb (isEmpty (trim linha)))
    (List.map (fun r => joined (campos r)) rs ++ [""])
  = List.map (fun r => joined (campos r)) rs.
Proof.
  induction rs as [|r rs IH]; [reflexivity|].
  cbn [List.map app List.filter]. rewrite joined_not_blank, IH. reflexivity.
Qed.

Lemma lerLeads_texto rs :
  Forall clean rs -> lerLeads (Some (header +:+ texto rs)) = rs.
Proof.
  intros Hc. unfold lerLeads. cbv zeta.
  unfold header. rewrite append_middle.
  rewrite splitOn_append by reflexivity. rewrite splitOn_texto by exact Hc.
  cbn [List.filter].
  change (negb (isEmpty (trim _))) with true at 1. cbv iota.
  rewrite filter_lines. cbn [drop]. rewrite drop_0.
  induction Hc as [|r rs Hr _ IH]; [reflexivity|].
  cbn [List.map]. rewrite (lerLinha_joined _ Hr), IH. reflexivity.
Qed.

Lemma lerLeads_headless rs :
  Forall clean rs -> lerLeads (Some (texto rs)) = drop 1 rs.
Proof.
  intros Hc. unfold lerLeads. cbv zeta. rewrite splitOn_texto by exact Hc.
  rewrite filter_lines. destruct Hc as [|r rs Hr Hc]; [reflexivity|].
  cbn [List.map drop]. rewrite !drop_0.
  induction Hc as [|r' rs Hr' _ IH]; [reflexivity|].
  cbn [List.map]. rewrite (lerLinha_joined _ Hr'), IH. reflexivity.
Qed.

(** X28. The leads saved to a new file are read back one record per save,
    in the order of the saves, each with its date and with its fields
    sanitized: a semicolon or a line break inside a field can neither
    split a record nor add one.  The one assumption is that the
    formatted date itself holds no semicolon and no line feed. *)
Theorem saved_leads_are_read_back entradas :
  Forall (fun e => allChars plain (fst e) = true) entradas ->
  lerLeads (salvarTodos entradas (ensureCSVExists None)) = List.map registro entradas.
Proof.
  intros H. cbn [ensureCSVExists]. rewrite salvarTodos_texto. apply lerLeads_texto.
  apply Forall_map. eapply Forall_impl; [exact H|]. intros e. apply registro_clean.
Qed.

(** An instance: a name with a semicolon, an observation on two lines. *)
Lemma saved_leads_are_read_back_witness :
  lerLeads (salvarTodos
    [("03/11/2026, 14:05:09",
      {| nome := "Silva; Ana"; email := "ana@example.com"; telefone := "5519999990000";
         cpf := "52998224725"; tipoSeguro := "Auto"; veiculo := "Fiat Uno"; cep := "13000-000";
         observacoes := "Placa ABC1D23" +:+ String LF "Chassi ausente";
         whatsapp := "5519999990000@c.us" |})]
    (ensureCSVExists None))
  = List.map registro
    [("03/11/2026, 14:05:09",
      {| nome := "Silva; Ana"; email := "ana@example.com"; telefone := "5519999990000";
         cpf := "52998224725"; tipoSeguro := "Auto"; veiculo := "Fiat Uno"; cep := "13000-000";
         observacoes := "Placa ABC1D23" +:+ String LF "Chassi ausente";
         whatsapp := "5519999990000@c.us" |})].
Proof.
  apply (saved_leads_are_read_back
    [("03/11/2026, 14:05:09",
      {| nome := "Silva; Ana"; email := "ana@example.com"; telefone := "5519999990000";
         cpf := "52998224725"; tipoSeguro := "Auto"; veiculo := "Fiat Uno"; cep := "13000-000";
         observacoes := "Placa ABC1D23" +:+ String LF "Chassi ausente";
         whatsapp := "5519999990000@c.us" |})]).
  repeat constructor.
Defined.

(** X29. A save does not write the header: when the file is missing at
    the time of the first save, the save creates it with the lead on
    its first line, and the reader, which skips the first line as the
    header, never returns that lead.  The later leads are read back as
    usual. *)
Theorem first_lead_of_a_missing_file_is_not_read_back entradas :
  Forall (fun e => allChars plain (fst e) = true) entradas ->
  lerLeads (salvarTodos entradas None) = drop 1 (List.map registro entradas).
Proof.
  intros H. destruct entradas as [|e entradas]; [reflexivity|].
  change (salvarTodos (e :: entradas) None)
    with (salvarTodos entradas (Some (linhaCsv (registro e)))).
  rewrite salvarTodos_texto.
  change (linhaCsv (registro e) +:+ texto (List.map registro entradas))
    with (texto (List.map registro (e :: entradas))).
  apply lerLeads_headless.
  apply Forall_map. eapply Forall_impl; [exact H|]. intros e'. apply registro_clean.
Qed.

(** An instance: two saves after the file went missing. *)
Lemma first_lead_of_a_missing_file_is_not_read_back_witness :
  lerLeads (salvarTodos
    [("03/11/2026, 14:05:09",
      {| nome := "Ana"; email := "ana@example.com"; telefone := ""; cpf := "";
         tipoSeguro := "Auto"; veiculo := ""; cep := ""; observacoes := "";
         whatsapp := "5519999990000@c.us" |});
     ("03/11/2026, 15:10:00",
      {| nome := "Rui"; email := "rui@example.com"; telefone := ""; cpf := "";
         tipoSeguro := "Vida"; veiculo := ""; cep := ""; observacoes := "";
         whatsapp := "5519888880000@c.us" |})]
    None)
  = drop 1 (List.map registro
    [("03/11/2026, 14:05:09",
      {| nome := "Ana"; email := "ana@example.com"; telefone := ""; cpf := "";
         tipoSeguro := "Auto"; veiculo := ""; cep := ""; observacoes := "";
         whatsapp := "5519999990000@c.us" |});
     ("03/11/2026, 15:10:00",
      {| nome := "Rui"; email := "rui@example.com"; telefone := ""; cpf := "";
         tipoSeguro := "Vida"; veiculo := ""; cep := ""; observacoes := "";
         whatsapp := "5519888880000@c.us" |})]).
Proof.
  apply (first_lead_of_a_missing_file_is_not_read_back
    [("03/11/2026, 14:05:09",
      {| nome := "Ana"; email := "ana@example.com"; telefone := ""; cpf := "";
         tipoSeguro := "Auto"; veiculo := ""; cep := ""; observacoes := "";
         whatsapp := "5519999990000@c.us" |});
     ("03/11/2026, 15:10:00",
      {| nome := "Rui"; email := "rui@example.com"; telefone := ""; cpf := "";
         tipoSeguro := "Vida"; veiculo := ""; cep := ""; observacoes := "";
         whatsapp := "5519888880000@c.us" |})]).
  repeat constructor.
Defined.

End CsvProps.
